(** * The rule-based entity resolution engine of the IIoT fault-report analyzer

    A shallow embedding of [src/istok_nlp.py] (class [IIoTAnalyzer]) and of
    the urgency and identifier helpers of [src/NLP_with_spaCy.py] (class
    [EquipmentFailureAnalyzer]).

    Python strings are kept as UTF-8 byte strings.  The morphological
    analyzer (pymorphy), the spaCy pipeline and the wall clock are outside
    the repository: they enter the model as values the analyzer carries or
    receives, never as fixed functions.  Python exceptions are explicit: a
    computation that may raise has type [result A].

    The methods are modelled twice.  First with the libraries read as
    tables, which is enough for what a method returns.  Then, for
    [analyze_text] and what it calls, as actions on a store (module [Run]),
    where a call of a library is an event that may change the state of
    the libraries: that is where two runs are compared and where "writes
    no state" is a statement.  The two agree (lemma
    [run_refines_analyze_text]). *)

From Stdlib Require Import String Ascii NArith.
From stdpp Require Import base strings list gmap.

Open Scope string_scope.
Open Scope list_scope.

(** ** Exceptions *)

Inductive exn : Type :=
| AttributeError
| IndexError
| KeyError
| ValueError
| OtherError (msg : string).

Inductive result (A : Type) : Type :=
| Ok (a : A)
| Raise (e : exn).

Arguments Ok {A} a.
Arguments Raise {A} e.

#[global] Instance result_ret : MRet result := @Ok.

#[global] Instance result_bind : MBind result :=
  λ A B f m, match m with Ok a => f a | Raise e => Raise e end.

(** [try: body except Exception: handler] *)
Definition try_except {A} (body : result A) (handler : result A) : result A :=
  match body with
  | Ok v => Ok v
  | Raise _ => handler
  end.

(** A [for] loop without early exit: the body threads the loop state. *)
Fixpoint for_each {A S} (xs : list A) (body : A → S → result S) (s : S)
  : result S :=
  match xs with
  | [] => Ok s
  | x :: xs' => s' ← body x s; for_each xs' body s'
  end.

Definition returns {A} (m : result A) : Prop := ∃ v, m = Ok v.

(** ** Python string operations *)

(** [needle in haystack] on strings. *)
Fixpoint is_in (needle haystack : string) : bool :=
  String.prefix needle haystack ||
  match haystack with
  | EmptyString => false
  | String _ rest => is_in needle rest
  end.

(** [x in xs] on a list of strings. *)
Definition in_list (x : string) (xs : list string) : bool :=
  bool_decide (x ∈ xs).

(** Truth value of a string and of an [Optional[str]]. *)
Definition truthy (s : string) : bool :=
  match s with EmptyString => false | _ => true end.

Definition truthy_opt (o : option string) : bool :=
  match o with Some s => truthy s | None => false end.

(** The characters (code points) of a UTF-8 string: a byte [10xxxxxx]
    continues the character before it. *)
Definition is_continuation (c : ascii) : bool :=
  let n := N_of_ascii c in (128 <=? n)%N && (n <? 192)%N.

Fixpoint chars (s : string) : list string :=
  match s with
  | EmptyString => []
  | String c rest =>
      match rest with
      | String c' _ =>
          if is_continuation c' then
            match chars rest with
            | h :: t => String c h :: t
            | [] => [String c EmptyString]
            end
          else String c EmptyString :: chars rest
      | EmptyString => [String c EmptyString]
      end
  end.

Definition join (cs : list string) : string :=
  fold_right String.append EmptyString cs.

(** The built-in methods whose tables live in the interpreter:
    [str.lower], [str.capitalize] and [str.isdigit] (on one character). *)
Class PyStr : Type := {
  lower : string → string;
  capitalize : string → string;
  isdigit : string → bool;
}.

(** [''.join(filter(str.isdigit, s))] and [any(c.isdigit() for c in s)]. *)
Definition digits_of `{PyStr} (s : string) : string :=
  join (filter (λ c, isdigit c = true) (chars s)).

Definition has_digit `{PyStr} (s : string) : bool :=
  existsb isdigit (chars s).

(** [list(s)] for a set [s] of strings: the order in which the hash table
    of the interpreter yields the elements of a set, given the order in
    which they were added.  Within one process it is a function of that
    order; it yields each element once. *)
Class PySet : Type := {
  set_list : list string → list string;
  set_list_elem : ∀ added x, x ∈ set_list added ↔ x ∈ added;
  set_list_nodup : ∀ added, NoDup (set_list added);
}.

(** *** The built-ins on the ASCII and Cyrillic blocks

    Used to run the analyzer on concrete reports.  Characters outside
    [A-Z], [0-9] and U+0400..U+045F are left as they are. *)

Definition of_code (n : N) : ascii := ascii_of_N n.

Definition lower_char (c : string) : string :=
  match c with
  | String a EmptyString =>
      let n := N_of_ascii a in
      if (65 <=? n)%N && (n <=? 90)%N then String (of_code (n + 32)) EmptyString
      else c
  | String a (String b EmptyString) =>
      let n := N_of_ascii b in
      if (N_of_ascii a =? 208)%N then
        if (144 <=? n)%N && (n <=? 159)%N
        then String (of_code 208) (String (of_code (n + 32)) EmptyString)
        else if (160 <=? n)%N && (n <=? 175)%N
        then String (of_code 209) (String (of_code (n - 32)) EmptyString)
        else if (128 <=? n)%N && (n <=? 143)%N
        then String (of_code 209) (String (of_code (n + 16)) EmptyString)
        else c
      else c
  | _ => c
  end.

Definition upper_char (c : string) : string :=
  match c with
  | String a EmptyString =>
      let n := N_of_ascii a in
      if (97 <=? n)%N && (n <=? 122)%N then String (of_code (n - 32)) EmptyString
      else c
  | String a (String b EmptyString) =>
      let n := N_of_ascii b in
      if (N_of_ascii a =? 208)%N then
        if (176 <=? n)%N && (n <=? 191)%N
        then String (of_code 208) (String (of_code (n - 32)) EmptyString)
        else c
      else if (N_of_ascii a =? 209)%N then
        if (128 <=? n)%N && (n <=? 143)%N
        then String (of_code 208) (String (of_code (n + 32)) EmptyString)
        else if (144 <=? n)%N && (n <=? 159)%N
        then String (of_code 208) (String (of_code (n - 16)) EmptyString)
        else c
      else c
  | _ => c
  end.

Definition utf8_lower (s : string) : string := join (map lower_char (chars s)).

Definition utf8_capitalize (s : string) : string :=
  match chars s with
  | [] => EmptyString
  | c :: cs => upper_char c +:+ join (map lower_char cs)
  end.

Definition ascii_isdigit (c : string) : bool :=
  match c with
  | String a EmptyString =>
      let n := N_of_ascii a in (48 <=? n)%N && (n <=? 57)%N
  | _ => false
  end.

Definition utf8_str : PyStr :=
  {| lower := utf8_lower; capitalize := utf8_capitalize; isdigit := ascii_isdigit |}.

(** ** Data model *)

(** A spaCy token: surface text, coarse part of speech, lemma. *)
Record Token : Type := {
  tok_text : string;
  pos_ : string;
  lemma_ : string;
}.

(** An entity of [doc.ents]: the text it covers and its label. *)
Record Span : Type := {
  ent_text : string;
  label_ : string;
}.

(** What the pipeline returns for a text: [doc.text], the tokens,
    [doc.ents] and the texts of [doc.sents]. *)
Record Doc : Type := {
  doc_text : string;
  tokens : list Token;
  ents : list Span;
  sents : list string;
}.

(** One form of a lexeme, and one parse of a word, as pymorphy gives them;
    a tag is the list of its grammemes. *)
Record Form : Type := {
  form_tag : list string;
  form_word : string;
}.

Record Parse : Type := {
  tag : list string;
  normal_form : string;
  lexeme : list Form;
}.

Record MorphAnalyzer : Type := {
  parse : string → result (list Parse);
}.

(** A term dictionary, in definition order: canonical key and variants. *)
Abbreviation term_dict := (list (string * list string)).

(** The state of an [IIoTAnalyzer] after [__init__]: [morph] is [None]
    when the morphological analyzer failed to initialise; [nlp] is the
    pipeline: called on a text it returns the annotated document or
    raises, as spaCy does for a component that was added and never
    initialised, or for a text longer than the pipeline accepts. *)
Record IIoTAnalyzer : Type := {
  morph : option MorphAnalyzer;
  nlp : string → result Doc;
  pipe_names : list string;
  equipment_types : term_dict;
  components : term_dict;
  symptoms : term_dict;
  actions : term_dict;
}.

(** [ner_result] of [analyze_text]. *)
Record NerResult : Type := {
  ner_equipment : list string;
  ner_equipment_id : list string;
  ner_dates : list string;
  ner_error_codes : list string;
  ner_times : list string;
  ner_components : list string;
  ner_symptoms : list string;
  ner_actions : list string;
  ner_unknown_terms : list string;
}.

(** [failure_result] of [analyze_text]; [list(set(...))] is kept as the
    set, Python fixes no order for it. *)
Record FailureResult : Type := {
  equipment_type : string;
  fa_components : gset string;
  fa_symptoms : gset string;
  urgency : string;
  timestamp : string;
  unknown_terms : list string;
}.

(** The record [analyze_text] returns.  In the source the ["ner"] entry
    drops the key [unknown_terms], which is always the empty list. *)
Record Analysis : Type := {
  ner : NerResult;
  failure_analysis : FailureResult;
  raw_text : string;
  success : bool;
}.

(** [failure_result] and the record [analyze_text] returns, with each
    [list(...)] of a set as the list the interpreter builds. *)
Record FailureLists : Type := {
  run_equipment_type : string;
  run_components : list string;
  run_symptoms : list string;
  run_urgency : string;
  run_timestamp : string;
  run_unknown_terms : list string;
}.

Record Returned : Type := {
  run_ner : NerResult;
  run_failure_analysis : FailureLists;
  run_raw_text : string;
  run_success : bool;
}.

(** [xs[0]] *)
Definition index0 {A} (xs : list A) : result A :=
  match xs with
  | x :: _ => Ok x
  | [] => Raise IndexError
  end.

(** The pairs [(doc[i], doc[i + 1])] for [i] in [range(len(doc) - 1)]. *)
Fixpoint adjacent (ts : list Token) : list (Token * Token) :=
  match ts with
  | t1 :: ((t2 :: _) as rest) => (t1, t2) :: adjacent rest
  | _ => []
  end.

(** [s.add(x)] guarded by [if x:] on an [Optional[str]]. *)
Definition add_if_truthy (o : option string) (s : gset string) : gset string :=
  match o with
  | Some x => if truthy x then {[x]} ∪ s else s
  | None => s
  end.

Definition is_empty_set (s : gset string) : bool := bool_decide (s = ∅).

(** ** The analyzer of [istok_nlp.py] *)

Section analyzer.
Context `{PyStr} (self : IIoTAnalyzer).

(** [self.morph.parse(word)]; attribute access on [None] raises. *)
Definition morph_parse (word : string) : result (list Parse) :=
  match morph self with
  | None => Raise AttributeError
  | Some m => parse m word
  end.

(** [for form in p.lexeme: if 'NOUN' in form.tag: return form.word] *)
Definition first_noun (p : Parse) : option string :=
  form_word <$> List.find (λ form, in_list "NOUN" (form_tag form)) (lexeme p).

Definition _convert_verb_to_noun (word : string) : option string :=
  if negb (truthy word) then None
  else
    let body : result (option string) :=
      parsed ← morph_parse word;
      match parsed with
      | [] => Ok None
      | p0 :: _ =>
          let from_verb :=
            if in_list "VERB" (tag p0) || in_list "PRTS" (tag p0)
            then first_noun p0 else None in
          match from_verb with
          | Some w => Ok (Some w)
          | None =>
              let from_adj :=
                if in_list "ADJF" (tag p0) || in_list "ADJS" (tag p0)
                then first_noun p0 else None in
              match from_adj with
              | Some w => Ok (Some w)
              | None => Ok (Some word)
              end
          end
      end in
    match body with
    | Ok r => r
    | Raise _ => Some word
    end.

Definition _normalize (word : string) : result string :=
  if negb (truthy word) || negb (bool_decide (is_Some (morph self))) then
    Ok (if truthy word then lower word else EmptyString)
  else
    try_except
      (parsed ← morph_parse word; p0 ← index0 parsed; Ok (normal_form p0))
      (Ok (lower word)).

(** [any(normalized == self._normalize(variant.lower()) for variant in variants)] *)
Fixpoint any_variant (normalized : string) (variants : list string)
  : result bool :=
  match variants with
  | [] => Ok false
  | variant :: rest =>
      nv ← _normalize (lower variant);
      if String.eqb normalized nv then Ok true
      else any_variant normalized rest
  end.

(** The loop of [_match_term] over [term_dict.items()]. *)
Fixpoint match_items (normalized : string) (items : term_dict)
  : result (option string) :=
  match items with
  | [] => Ok None
  | (term, variants) :: rest =>
      if String.eqb normalized term then Ok (Some term)
      else
        hit ← any_variant normalized variants;
        if (hit : bool) then Ok (Some term) else match_items normalized rest
  end.

Definition _match_term (text : option string) (dict : term_dict)
  : result (option string) :=
  match text with
  | None => Ok None
  | Some t =>
      let text_lower := lower t in
      normalized ← _normalize text_lower;
      match_items normalized dict
  end.

Definition _get_components (doc : Doc) : result (gset string) :=
  found ← for_each (tokens doc) (λ token found,
    let word := _convert_verb_to_noun (tok_text token) in
    component ← _match_term word (components self);
    Ok (add_if_truthy component found)) ∅;
  Ok (if is_empty_set found then {["Не указаны"]} else found).

(** The three hard-wired trigger lists of [_get_symptoms]. *)
Definition extra_rules : term_dict :=
  [("вибрация", ["вибрирует"; "дрожит"; "трясется"]);
   ("шум", ["шумит"; "гудит"; "скрипит"]);
   ("перегрев", ["перегревается"; "нагревается"])].

Definition _get_symptoms (doc : Doc) : result (gset string) :=
  (* 1. entities labelled SYMPTOM *)
  let s1 : gset string :=
    fold_left (λ acc ent,
      if String.eqb (label_ ent) "SYMPTOM" then {[lower (ent_text ent)]} ∪ acc
      else acc) (ents doc) ∅ in
  (* 2. the token and its lemma against the dictionary *)
  s2 ← for_each (tokens doc) (λ token acc,
    symptom ← _match_term (Some (tok_text token)) (symptoms self);
    let acc := add_if_truthy symptom acc in
    symptom ← _match_term (Some (lemma_ token)) (symptoms self);
    Ok (add_if_truthy symptom acc)) s1;
  (* 3. verbs and adjectives turned into nouns *)
  s3 ← for_each (tokens doc) (λ token acc,
    if in_list (pos_ token) ["VERB"; "ADJ"] then
      let noun_form := _convert_verb_to_noun (tok_text token) in
      if truthy_opt noun_form then
        symptom ← _match_term noun_form (symptoms self);
        Ok (add_if_truthy symptom acc)
      else Ok acc
    else Ok acc) s2;
  (* 4. two-token phrases *)
  s4 ← for_each (adjacent (tokens doc)) (λ pair acc,
    let phrase := tok_text pair.1 +:+ " " +:+ tok_text pair.2 in
    symptom ← _match_term (Some phrase) (symptoms self);
    Ok (add_if_truthy symptom acc)) s3;
  (* 5. sentence-level substring scan *)
  let s5 : gset string :=
    if in_list "sentencizer" (pipe_names self) then
      fold_left (λ acc sent,
        let sent_text := lower sent in
        fold_left (λ acc (item : string * list string),
          if existsb (λ variant, is_in variant sent_text) item.2
          then {[item.1]} ∪ acc else acc) (symptoms self) acc)
        (sents doc) s4
    else s4 in
  (* 6. additional rules *)
  let text_lower := lower (doc_text doc) in
  let s6 : gset string :=
    fold_left (λ acc (rule : string * list string),
      if existsb (λ word, is_in word text_lower) rule.2
      then {[rule.1]} ∪ acc else acc) extra_rules s5 in
  Ok (if is_empty_set s6 then {["Симптомы не описаны"]} else s6).

(** The first equipment type one of whose names occurs in an entity text. *)
Definition type_named_in (eq : string) : option string :=
  fst <$> List.find (λ item : string * list string,
    existsb (λ v, is_in (lower v) (lower eq)) (item.1 :: item.2))
    (equipment_types self).

Fixpoint first_named_type (found_equipment : list string) : option string :=
  match found_equipment with
  | [] => None
  | eq :: rest =>
      match type_named_in eq with
      | Some eq_type => Some eq_type
      | None => first_named_type rest
      end
  end.

(** [for token in doc: ... if eq_type: return eq_type.capitalize()] *)
Fixpoint first_dictionary_type (ts : list Token) : result (option string) :=
  match ts with
  | [] => Ok None
  | token :: rest =>
      eq_type ← _match_term (Some (tok_text token)) (equipment_types self);
      if truthy_opt eq_type then Ok eq_type else first_dictionary_type rest
  end.

(** A breakdown verb followed by a noun. *)
Definition first_context_noun (doc : Doc) : option string :=
  (λ pair : Token * Token, tok_text pair.2) <$>
  List.find (λ pair : Token * Token,
    in_list (lemma_ pair.1) ["сломаться"; "остановиться"; "перегреться"]
    && in_list (pos_ pair.2) ["NOUN"; "PROPN"]) (adjacent (tokens doc)).

Definition _determine_equipment_type (doc : Doc) (found_equipment : list string)
  : result string :=
  match found_equipment with
  | first :: _ =>
      match first_named_type found_equipment with
      | Some eq_type => Ok (capitalize eq_type)
      | None => Ok (capitalize first)
      end
  | [] =>
      eq_type ← first_dictionary_type (tokens doc);
      match eq_type with
      | Some t => Ok (capitalize t)
      | None =>
          match first_context_noun doc with
          | Some noun => Ok (capitalize noun)
          | None => Ok "Неизвестное оборудование"
          end
      end
  end.

Definition mapping : list (string * string) :=
  [("вибрировать", "вибрация");
   ("шуметь", "шум");
   ("перегреваться", "перегрев");
   ("течь", "течь");
   ("зависать", "зависание");
   ("останавливаться", "остановка")].

Definition _verb_to_symptom_noun (verb : string) : result (option string) :=
  parsed ← morph_parse verb;
  p0 ← index0 parsed;
  Ok (snd <$> List.find (λ kv : string * string,
        String.eqb kv.1 (normal_form p0)) mapping).

Definition _find_unknown_terms (doc : Doc) : list string :=
  tok_text <$> List.filter (λ token,
    in_list (pos_ token) ["NOUN"; "PROPN"]
    && negb (existsb (λ ent, String.eqb (ent_text ent) (tok_text token))
               (ents doc))) (tokens doc).

Definition _get_components_from_dict (doc : Doc) : result (gset string) :=
  found ← for_each (tokens doc) (λ token found,
    component ← _match_term (Some (tok_text token)) (components self);
    Ok (add_if_truthy component found)) ∅;
  Ok (if is_empty_set found then {["Не указаны"]} else found).

Definition _get_symptoms_from_dict (doc : Doc) : result (gset string) :=
  found ← for_each (tokens doc) (λ token found,
    symptom ← _match_term (Some (tok_text token)) (symptoms self);
    Ok (add_if_truthy symptom found)) ∅;
  Ok (if is_empty_set found then {["Симптомы не описаны"]} else found).

Definition urgency_words : term_dict :=
  [("высокая", ["срочно"; "авария"; "остановка"; "критичн"]);
   ("низкая", ["плановый"; "не срочно"; "профилактика"])].

(** [for level, words in urgency_words.items(): if any(...): return level] *)
Fixpoint first_level (text_lower : string) (levels : term_dict)
  : option string :=
  match levels with
  | [] => None
  | (level, words) :: rest =>
      if existsb (λ word, is_in word text_lower) words then Some level
      else first_level text_lower rest
  end.

Definition _detect_urgency (doc : Doc) : string :=
  let text_lower := lower (doc_text doc) in
  match first_level text_lower urgency_words with
  | Some level => capitalize level
  | None => "Средняя"
  end.

(** [now] is [datetime.now().strftime("%d.%m.%Y %H:%M")], read when the
    function runs. *)
Definition _get_timestamp (doc : Doc) (now : string) : string :=
  match List.find (λ ent, String.eqb (label_ ent) "DATE") (ents doc) with
  | Some ent => ent_text ent
  | None => now
  end.

Definition empty_ner : NerResult :=
  {| ner_equipment := []; ner_equipment_id := []; ner_dates := [];
     ner_error_codes := []; ner_times := []; ner_components := [];
     ner_symptoms := []; ner_actions := []; ner_unknown_terms := [] |}.

(** [ner_result["equipment"].append(text)] followed by the append of the
    digits of [text] to [ner_result["equipment_id"]] when there are any. *)
Definition append_equipment (text : string) (r : NerResult) : NerResult :=
  let id_part := digits_of text in
  {| ner_equipment := ner_equipment r ++ [text];
     ner_equipment_id :=
       if truthy id_part then ner_equipment_id r ++ [id_part]
       else ner_equipment_id r;
     ner_dates := ner_dates r; ner_error_codes := ner_error_codes r;
     ner_times := ner_times r; ner_components := ner_components r;
     ner_symptoms := ner_symptoms r; ner_actions := ner_actions r;
     ner_unknown_terms := ner_unknown_terms r |}.

(** The body of the loop over [doc.ents]. *)
Definition record_entity (r : NerResult) (ent : Span) : NerResult :=
  let label := label_ ent in
  let text := ent_text ent in
  if String.eqb label "EQUIPMENT" then append_equipment text r
  else if String.eqb label "DATE" then
    {| ner_equipment := ner_equipment r; ner_equipment_id := ner_equipment_id r;
       ner_dates := ner_dates r ++ [text];
       ner_error_codes := ner_error_codes r; ner_times := ner_times r;
       ner_components := ner_components r; ner_symptoms := ner_symptoms r;
       ner_actions := ner_actions r; ner_unknown_terms := ner_unknown_terms r |}
  else if String.eqb label "ERROR_CODE" then
    {| ner_equipment := ner_equipment r; ner_equipment_id := ner_equipment_id r;
       ner_dates := ner_dates r;
       ner_error_codes := ner_error_codes r ++ [text];
       ner_times := ner_times r;
       ner_components := ner_components r; ner_symptoms := ner_symptoms r;
       ner_actions := ner_actions r; ner_unknown_terms := ner_unknown_terms r |}
  else if String.eqb label "TIME" then
    {| ner_equipment := ner_equipment r; ner_equipment_id := ner_equipment_id r;
       ner_dates := ner_dates r; ner_error_codes := ner_error_codes r;
       ner_times := ner_times r ++ [text];
       ner_components := ner_components r; ner_symptoms := ner_symptoms r;
       ner_actions := ner_actions r; ner_unknown_terms := ner_unknown_terms r |}
  else if String.eqb label "COMPONENT" then
    {| ner_equipment := ner_equipment r; ner_equipment_id := ner_equipment_id r;
       ner_dates := ner_dates r; ner_error_codes := ner_error_codes r;
       ner_times := ner_times r;
       ner_components := ner_components r ++ [text];
       ner_symptoms := ner_symptoms r;
       ner_actions := ner_actions r; ner_unknown_terms := ner_unknown_terms r |}
  else if String.eqb label "SYMPTOM" then
    {| ner_equipment := ner_equipment r; ner_equipment_id := ner_equipment_id r;
       ner_dates := ner_dates r; ner_error_codes := ner_error_codes r;
       ner_times := ner_times r; ner_components := ner_components r;
       ner_symptoms := ner_symptoms r ++ [text];
       ner_actions := ner_actions r; ner_unknown_terms := ner_unknown_terms r |}
  else if String.eqb label "ACTION" then
    {| ner_equipment := ner_equipment r; ner_equipment_id := ner_equipment_id r;
       ner_dates := ner_dates r; ner_error_codes := ner_error_codes r;
       ner_times := ner_times r; ner_components := ner_components r;
       ner_symptoms := ner_symptoms r;
       ner_actions := ner_actions r ++ [text];
       ner_unknown_terms := ner_unknown_terms r |}
  else r.

(** The body of the pattern search: a noun or proper noun with a digit. *)
Definition record_pattern (r : NerResult) (token : Token) : NerResult :=
  if in_list (pos_ token) ["NOUN"; "PROPN"] && has_digit (tok_text token)
  then append_equipment (tok_text token) r
  else r.

(** Steps 1 to 3 of [analyze_text]: [ner_result] as it stands when the
    result is assembled. *)
Definition collect_ner (doc : Doc) : NerResult :=
  let r := fold_left record_entity (ents doc) empty_ner in
  match ner_equipment r with
  | [] => fold_left record_pattern (tokens doc) r
  | _ => r
  end.

(** Truth value of a list. *)
Definition nonempty (v : list string) : bool := negb (bool_decide (v = [])).

(** [any(ner_result.values())] *)
Definition any_values (r : NerResult) : bool :=
  existsb nonempty
    [ner_equipment r; ner_equipment_id r; ner_dates r; ner_error_codes r;
     ner_times r; ner_components r; ner_symptoms r; ner_actions r;
     ner_unknown_terms r].

Definition analyze_doc (doc : Doc) (text now : string) : result Analysis :=
  let ner_result := collect_ner doc in
  (* 4. symptoms from the tagger and from verbs *)
  symptoms ← for_each (tokens doc) (λ token acc,
    if String.eqb (pos_ token) "VERB" then
      noun_form ← _verb_to_symptom_noun (tok_text token);
      Ok (add_if_truthy noun_form acc)
    else Ok acc) (list_to_set (ner_symptoms ner_result) : gset string);
  (* 5. equipment type *)
  equipment_type ← _determine_equipment_type doc (ner_equipment ner_result);
  (* 6. the result *)
  found_components ←
    match ner_components ner_result with
    | [] => _get_components_from_dict doc
    | cs => Ok (list_to_set cs)
    end;
  found_symptoms ←
    (if is_empty_set symptoms then _get_symptoms_from_dict doc
     else Ok symptoms);
  Ok {| ner := ner_result;
        failure_analysis :=
          {| equipment_type := equipment_type;
             fa_components := found_components;
             fa_symptoms := found_symptoms;
             urgency := _detect_urgency doc;
             timestamp := _get_timestamp doc now;
             unknown_terms := _find_unknown_terms doc |};
        raw_text := text;
        success := any_values ner_result |}.

Definition analyze_text (text now : string) : result Analysis :=
  doc ← nlp self text;
  analyze_doc doc text now.

End analyzer.

(** *** The dictionary-only equipment search *)

Section equipment_search.
Context `{PyStr} (self : IIoTAnalyzer).

(** The first loop of [_get_equipment_type]: each token, turned into a
    noun form, against the equipment dictionary. *)
Fixpoint first_converted_type (ts : list Token) : result (option string) :=
  match ts with
  | [] => Ok None
  | token :: rest =>
      let word := _convert_verb_to_noun self (tok_text token) in
      if truthy_opt word then
        term ← _match_term self word (equipment_types self);
        if truthy_opt term then Ok term else first_converted_type rest
      else first_converted_type rest
  end.

(** The second loop: the phrases of two adjacent tokens. *)
Fixpoint first_phrase_type (pairs : list (Token * Token))
  : result (option string) :=
  match pairs with
  | [] => Ok None
  | (first, second) :: rest =>
      let phrase := tok_text first +:+ " " +:+ tok_text second in
      term ← _match_term self (Some phrase) (equipment_types self);
      if truthy_opt term then Ok term else first_phrase_type rest
  end.

Definition _get_equipment_type (doc : Doc) : result string :=
  term ← first_converted_type (tokens doc);
  match term with
  | Some t => Ok (capitalize t)
  | None =>
      term ← first_phrase_type (adjacent (tokens doc));
      match term with
      | Some t => Ok (capitalize t)
      | None => Ok "Неизвестное оборудование"
      end
  end.

End equipment_search.

(** ** [analyze_text] as the interpreter runs it

    Above, the pipeline and the morphological analyzer are read as
    tables, and the clock reading is an argument.  Here the analyzer is
    an object in a store, next to the state of everything outside it: a
    method is an action on the store, a call of a library may change the
    state of the libraries as it answers, the clock is read from that
    state, and a set is the sequence of the elements added to it, from
    which [list(...)] takes its order. *)

Module Run.

Section interpreter.
Context `{PyStr} `{PySet} {World : Type}.

(** What lies outside the analyzer, with [World] the state it is in:
    [self.nlp(text)] for the pipeline [self.nlp] refers to,
    [self.morph.parse(word)] for the analyzer [self.morph] refers to, and
    [datetime.now().strftime("%d.%m.%Y %H:%M")].  A call answers and
    leaves the libraries in a new state. *)
Record Libraries : Type := {
  call_nlp : (string → result Doc) → string → World → result Doc * World;
  call_parse : MorphAnalyzer → string → World → result (list Parse) * World;
  clock : World → string;
}.

(** The store: the attributes of the analyzer object, and the state of
    what lies outside it. *)
Record Store : Type := {
  analyzer : IIoTAnalyzer;
  world : World;
}.

(** A piece of code: from a store to what it returns or raises, and the
    store it leaves.  An exception keeps the store as it is when raised. *)
Definition Action (A : Type) : Type := Store → result A * Store.

Definition action_ret : MRet Action := λ A a s, (Ok a, s).

Definition action_bind : MBind Action := λ A B k m s,
  match m s with
  | (Ok a, s') => k a s'
  | (Raise e, s') => (Raise e, s')
  end.

#[local] Existing Instance action_ret.
#[local] Existing Instance action_bind.

(** [self.field], read. *)
Definition attribute {A} (field : IIoTAnalyzer → A) : Action A :=
  λ s, (Ok (field (analyzer s)), s).

(** A call of a library. *)
Definition outside {A} (call : World → result A * World) : Action A :=
  λ s, let (r, w) := call (world s) in
       (r, {| analyzer := analyzer s; world := w |}).

(** A computation that calls nothing. *)
Definition value {A} (r : result A) : Action A := λ s, (r, s).

(** [try: body except Exception: handler] *)
Definition try_except {A} (body handler : Action A) : Action A :=
  λ s, match body s with
       | (Ok v, s') => (Ok v, s')
       | (Raise _, s') => handler s'
       end.

(** A [for] loop without early exit. *)
Fixpoint for_each {A S} (xs : list A) (body : A → S → Action S) (acc : S)
  : Action S :=
  match xs with
  | [] => mret acc
  | x :: xs' => acc' ← body x acc; for_each xs' body acc'
  end.

Variable libs : Libraries.

(** [self.morph.parse(word)]; attribute access on [None] raises. *)
Definition morph_parse (word : string) : Action (list Parse) :=
  morph ← attribute morph;
  match morph with
  | None => value (Raise AttributeError)
  | Some m => outside (call_parse libs m word)
  end.

Definition _normalize (word : string) : Action string :=
  morph ← attribute morph;
  if negb (truthy word) || negb (bool_decide (is_Some morph)) then
    mret (if truthy word then lower word else EmptyString)
  else
    try_except
      (parsed ← morph_parse word; p0 ← value (index0 parsed); mret (normal_form p0))
      (mret (lower word)).

Fixpoint any_variant (normalized : string) (variants : list string)
  : Action bool :=
  match variants with
  | [] => mret false
  | variant :: rest =>
      nv ← _normalize (lower variant);
      if String.eqb normalized nv then mret true
      else any_variant normalized rest
  end.

Fixpoint match_items (normalized : string) (items : term_dict)
  : Action (option string) :=
  match items with
  | [] => mret None
  | (term, variants) :: rest =>
      if String.eqb normalized term then mret (Some term)
      else
        hit ← any_variant normalized variants;
        if (hit : bool) then mret (Some term) else match_items normalized rest
  end.

Definition _match_term (text : option string) (dict : term_dict)
  : Action (option string) :=
  match text with
  | None => mret None
  | Some t =>
      let text_lower := lower t in
      normalized ← _normalize text_lower;
      match_items normalized dict
  end.

Definition _verb_to_symptom_noun (verb : string) : Action (option string) :=
  parsed ← morph_parse verb;
  p0 ← value (index0 parsed);
  mret (snd <$> List.find (λ kv : string * string,
          String.eqb kv.1 (normal_form p0)) mapping).

(** [s.add(x)] guarded by [if x:], on the elements added to the set [s]
    so far, in the order in which they were added. *)
Definition add_if_truthy (o : option string) (added : list string) : list string :=
  match o with
  | Some x => if truthy x then added ++ [x] else added
  | None => added
  end.

Definition _get_components_from_dict (doc : Doc) : Action (list string) :=
  found ← for_each (tokens doc) (λ token found,
    dict ← attribute components;
    component ← _match_term (Some (tok_text token)) dict;
    mret (add_if_truthy component found)) [];
  mret (match found with [] => ["Не указаны"] | _ => set_list found end).

Definition _get_symptoms_from_dict (doc : Doc) : Action (list string) :=
  found ← for_each (tokens doc) (λ token found,
    dict ← attribute symptoms;
    symptom ← _match_term (Some (tok_text token)) dict;
    mret (add_if_truthy symptom found)) [];
  mret (match found with [] => ["Симптомы не описаны"] | _ => set_list found end).

Fixpoint first_dictionary_type (ts : list Token) : Action (option string) :=
  match ts with
  | [] => mret None
  | token :: rest =>
      dict ← attribute equipment_types;
      eq_type ← _match_term (Some (tok_text token)) dict;
      if truthy_opt eq_type then mret eq_type else first_dictionary_type rest
  end.

Definition _determine_equipment_type (doc : Doc) (found_equipment : list string)
  : Action string :=
  match found_equipment with
  | first :: _ =>
      self ← attribute id;
      match first_named_type self found_equipment with
      | Some eq_type => mret (capitalize eq_type)
      | None => mret (capitalize first)
      end
  | [] =>
      eq_type ← first_dictionary_type (tokens doc);
      match eq_type with
      | Some t => mret (capitalize t)
      | None =>
          match first_context_noun doc with
          | Some noun => mret (capitalize noun)
          | None => mret "Неизвестное оборудование"
          end
      end
  end.

(** [datetime.now().strftime("%d.%m.%Y %H:%M")] *)
Definition now : Action string := λ s, (Ok (clock libs (world s)), s).

Definition _get_timestamp (doc : Doc) : Action string :=
  match List.find (λ ent, String.eqb (label_ ent) "DATE") (ents doc) with
  | Some ent => mret (ent_text ent)
  | None => now
  end.

Definition analyze_text (text : string) : Action Returned :=
  pipeline ← attribute nlp;
  doc ← outside (call_nlp libs pipeline text);
  let ner_result := collect_ner doc in
  (* 4. symptoms from the tagger and from verbs *)
  symptoms ← for_each (tokens doc) (λ token symptoms,
    if String.eqb (pos_ token) "VERB" then
      noun_form ← _verb_to_symptom_noun (tok_text token);
      mret (add_if_truthy noun_form symptoms)
    else mret symptoms) (ner_symptoms ner_result);
  (* 5. equipment type *)
  equipment_type ← _determine_equipment_type doc (ner_equipment ner_result);
  (* 6. the result *)
  components ←
    match ner_components ner_result with
    | [] => _get_components_from_dict doc
    | found => mret found
    end;
  symptoms ←
    match symptoms with
    | [] => _get_symptoms_from_dict doc
    | _ => mret (set_list symptoms)
    end;
  timestamp ← _get_timestamp doc;
  mret {| run_ner := ner_result;
          run_failure_analysis :=
            {| run_equipment_type := equipment_type;
               run_components := set_list components;
               run_symptoms := symptoms;
               run_urgency := _detect_urgency doc;
               run_timestamp := timestamp;
               run_unknown_terms := _find_unknown_terms doc |};
          run_raw_text := text;
          run_success := any_values ner_result |}.

(** What a library answers is decided by the pipeline or analyzer it is
    called on and by its argument, whatever state the libraries are in. *)
Definition answers_fixed : Prop :=
  (∀ pipeline text w w',
     (call_nlp libs pipeline text w).1 = (call_nlp libs pipeline text w').1)
  ∧ (∀ m word w w',
       (call_parse libs m word w).1 = (call_parse libs m word w').1).

(** The libraries keep no state of their own: a call leaves them as they
    were. *)
Definition quiet : Prop :=
  (∀ pipeline text w, (call_nlp libs pipeline text w).2 = w)
  ∧ (∀ m word w, (call_parse libs m word w).2 = w).

(** The libraries answer as the tables of the analyzer say. *)
Definition faithful : Prop :=
  (∀ pipeline text w, (call_nlp libs pipeline text w).1 = pipeline text)
  ∧ (∀ m word w, (call_parse libs m word w).1 = parse m word).

End interpreter.

Arguments Libraries : clear implicits.
Arguments Store : clear implicits.
Arguments Action : clear implicits.

End Run.

(** ** The analyzer of [NLP_with_spaCy.py] *)

Module EquipmentFailureAnalyzer.
Section methods.
Context `{PyStr}.

Definition _get_equipment_id (doc : Doc) : string :=
  match List.find (λ ent,
          in_list (label_ ent) ["ORG"; "PER"] || has_digit (ent_text ent))
          (ents doc) with
  | Some ent => ent_text ent
  | None => "Не указан"
  end.

Definition _detect_urgency (doc : Doc) : string :=
  let text_lower := lower (doc_text doc) in
  if existsb (λ word, is_in word text_lower)
       ["срочно"; "авария"; "остановился"; "срочный"]
  then "Высокая"
  else if is_in "незначительный" text_lower then "Низкая"
  else "Средняя".

(** The dictionaries of [__init__]: lemma to display name.  They are only
    looked up, never iterated. *)
Definition equipment_types : gmap string string :=
  list_to_map
    [("станок", "Станок"); ("пресс", "Пресс"); ("робот", "Робот");
     ("конвейер", "Конвейер"); ("компрессор", "Компрессор")].

Definition components : gmap string string :=
  list_to_map
    [("шпиндель", "Шпиндель"); ("подшипник", "Подшипник");
     ("гидравлика", "Гидравлическая система");
     ("электродвигатель", "Электродвигатель");
     ("ремень", "Ремень"); ("панель", "Панель управления")].

Definition symptoms : gmap string string :=
  list_to_map
    [("шум", "Нехарактерный шум"); ("вибрация", "Вибрация");
     ("перегрев", "Перегрев"); ("течь", "Течь жидкости");
     ("ошибка", "Код ошибки"); ("заклинивание", "Заклинивание");
     ("ремонт", "Требуется ремонт"); ("остановка", "Остановка работы")].

(** [for token in doc: if token.lemma_ in d: return d[token.lemma_]] *)
Fixpoint first_known (d : gmap string string) (ts : list Token) : option string :=
  match ts with
  | [] => None
  | token :: rest =>
      match d !! lemma_ token with
      | Some name => Some name
      | None => first_known d rest
      end
  end.

(** [for token in doc: if token.lemma_ in d: found.append(d[token.lemma_])] *)
Fixpoint all_known (d : gmap string string) (ts : list Token) : list string :=
  match ts with
  | [] => []
  | token :: rest =>
      match d !! lemma_ token with
      | Some name => name :: all_known d rest
      | None => all_known d rest
      end
  end.

(** [xs or default] on lists. *)
Definition or_list (xs default : list string) : list string :=
  match xs with
  | [] => default
  | _ => xs
  end.

Definition _get_equipment (doc : Doc) : string :=
  match first_known equipment_types (tokens doc) with
  | Some name => name
  | None => "Неизвестное оборудование"
  end.

Definition _get_components (doc : Doc) : list string :=
  or_list (all_known components (tokens doc)) ["Не указан"].

Definition _get_symptoms (doc : Doc) : list string :=
  let found := all_known symptoms (tokens doc) in
  let text_lower := lower (doc_text doc) in
  let found :=
    if is_in "не включается" text_lower || is_in "не запускается" text_lower
    then found ++ ["Не запускается"] else found in
  let found :=
    if is_in "срочный ремонт" text_lower
    then found ++ ["Требуется срочный ремонт"] else found in
  or_list found ["Симптомы не описаны"].

(** The dictionary [analyze] returns, key by key. *)
Record Report : Type := {
  rep_equipment : string;
  rep_identifier : string;
  rep_components : list string;
  rep_symptoms : list string;
  rep_date : string;
  rep_urgency : string;
  rep_text : string;
}.

(** [nlp] is the module-level pipeline; [_get_timestamp] has the text of
    the method of [IIoTAnalyzer] and is shared with it. *)
Definition analyze (nlp : string → result Doc) (text now : string)
  : result Report :=
  doc ← nlp text;
  Ok {| rep_equipment := _get_equipment doc;
        rep_identifier := _get_equipment_id doc;
        rep_components := _get_components doc;
        rep_symptoms := _get_symptoms doc;
        rep_date := _get_timestamp doc now;
        rep_urgency := _detect_urgency doc;
        rep_text := text |}.

End methods.
End EquipmentFailureAnalyzer.

(** ** Training the tagger *)

(** The operations of spaCy that [train_ner_model] calls.  [Model] is the
    in-memory pipeline with its labels and weights.  An operation that
    raises leaves the model as it was. *)
Class Spacy (Model Example Optimizer Loss : Type) : Type := {
  (** [self.ner.add_label(label)] *)
  add_label : string → Model → Model;
  (** [Example.from_dict(self.nlp.make_doc(text), annots)] *)
  make_example : Model → string → list (nat * nat * string) → result Example;
  (** [random.shuffle(examples)] *)
  shuffle : list Example → list Example;
  shuffle_perm : ∀ l, shuffle l ≡ₚ l;
  (** [self.nlp.begin_training()] *)
  begin_training : Model → result (Model * Optimizer);
  (** the size of the [i]-th batch, [int(next(compounding(4.0, 32.0, 1.1)))] *)
  batch_size : nat → nat;
  (** [self.nlp.update(batch, drop=0.4, losses=losses, sgd=optimizer)] *)
  update : list Example → Model → Optimizer → gmap string Loss →
           result (Model * Optimizer * gmap string Loss);
  (** [len(gold_ents & pred_ents)] and [len(gold_ents)] for one example *)
  score : Model → Example → result (nat * nat);
}.

Section training.
Context {Model Example Optimizer Loss : Type}.
Context `{!Spacy Model Example Optimizer Loss}.

(** The pipeline in memory and what [output_dir] holds on disk. *)
Record Pipeline : Type := {
  in_memory : Model;
  on_disk : option Model;
}.

(** One line of console output per iteration: loss and the counts the
    accuracy is computed from. *)
Record Report : Type := {
  rep_iter : nat;
  rep_loss : Loss;
  rep_correct : nat;
  rep_total : nat;
}.

(** [minibatch(items, size=...)]: slices of the scheduled sizes, until a
    slice is empty. *)
Fixpoint minibatch (fuel i : nat) (items : list Example) : list (list Example) :=
  match fuel with
  | O => []
  | S fuel' =>
      match take (batch_size i) items with
      | [] => []
      | batch => batch :: minibatch fuel' (S i) (drop (batch_size i) items)
      end
  end.

(** The labels of a corpus, [labels.add(label)] over all annotations. *)
Definition corpus_labels (train_data : list (string * list (nat * nat * string)))
  : gset string :=
  list_to_set (train_data ≫= λ item, (λ ent : nat * nat * string, ent.2) <$> item.2).

(** One pass of [for itn in range(n_iter)]. *)
Definition iteration (itn : nat) (train_examples eval_examples : list Example)
    (optimizer : Optimizer) (m : Model)
  : Model * result (Optimizer * Report) :=
  let trained :=
    fold_left (λ (acc : Model * result (Optimizer * gmap string Loss)) batch,
      match acc with
      | (m, Ok (opt, losses)) =>
          match update batch m opt losses with
          | Ok (m', opt', losses') => (m', Ok (opt', losses'))
          | Raise e => (m, Raise e)
          end
      | (m, Raise e) => (m, Raise e)
      end)
      (minibatch (length train_examples) 0 train_examples)
      (m, Ok (optimizer, ∅)) in
  match trained with
  | (m, Raise e) => (m, Raise e)
  | (m, Ok (opt, losses)) =>
      let counted :=
        for_each eval_examples (λ eval_ex (acc : nat * nat),
          ct ← score m eval_ex;
          Ok (acc.1 + ct.1, acc.2 + ct.2)) (0, 0) in
      match counted with
      | Raise e => (m, Raise e)
      | Ok (correct, total) =>
          (* the format string reads losses['ner'] *)
          match losses !! "ner" with
          | None => (m, Raise KeyError)
          | Some loss =>
              (m, Ok (opt, {| rep_iter := S itn; rep_loss := loss;
                              rep_correct := correct; rep_total := total |}))
          end
      end
  end.

Fixpoint iterations (n_iter itn : nat) (train_examples eval_examples : list Example)
    (optimizer : Optimizer) (m : Model) (out : list Report)
  : Model * result (list Report) :=
  match n_iter with
  | O => (m, Ok out)
  | S n' =>
      match iteration itn train_examples eval_examples optimizer m with
      | (m', Ok (opt', rep)) =>
          iterations n' (S itn) train_examples eval_examples opt' m' (out ++ [rep])%list
      | (m', Raise e) => (m', Raise e)
      end
  end.

Definition train_ner_model
    (train_data : list (string * list (nat * nat * string))) (n_iter : nat)
    (p : Pipeline) : Pipeline * result (list Report) :=
  (* 1. labels *)
  let m1 := fold_left (λ m label, add_label label m)
              (elements (corpus_labels train_data)) (in_memory p) in
  let p1 := {| in_memory := m1; on_disk := on_disk p |} in
  (* 2. examples *)
  match for_each train_data (λ item examples,
          example ← make_example m1 item.1 item.2;
          Ok (examples ++ [example])%list) [] with
  | Raise e => (p1, Raise e)
  | Ok examples =>
      (* 3. training with validation *)
      let examples := shuffle examples in
      (* int(0.8 * len(examples)) *)
      let cut := 4 * length examples / 5 in
      let train_examples := take cut examples in
      let eval_examples := drop cut examples in
      match begin_training m1 with
      | Raise e => (p1, Raise e)
      | Ok (m2, optimizer) =>
          match iterations n_iter 0 train_examples eval_examples optimizer m2 [] with
          | (m3, Raise e) => ({| in_memory := m3; on_disk := on_disk p |}, Raise e)
          | (m3, Ok out) =>
              (* self.nlp.to_disk(output_dir) *)
              ({| in_memory := m3; on_disk := Some m3 |}, Ok out)
          end
      end
  end.

End training.

(** ** The analyzer of [istok_nlp_learn.py] *)

Module Learn.

Section methods.
Context `{PyStr}.

Definition urgency_words : term_dict :=
  [("высокая", ["срочно"; "авария"; "остановился"; "критичн"; "срочный"]);
   ("низкая", ["незначительн"; "плановый"; "не срочно"])].

Definition _detect_urgency (doc : Doc) : string :=
  let text_lower := lower (doc_text doc) in
  match first_level text_lower urgency_words with
  | Some level => capitalize level
  | None => "Средняя"
  end.

End methods.

Section training.
Context {Model Example Optimizer Loss : Type}.
Context `{!Spacy Model Example Optimizer Loss}.

(** The number [0] of [losses.get('ner', 0)].  The spaCy operations are
    the ones this file calls: batches from [compounding(2.0, 16.0, 1.1)],
    [update] with [drop=0.3]; [score] is not used. *)
Variable zero : Loss.

(** One pass of [for itn in range(n_iter)], after the shuffle. *)
Definition iteration (examples : list Example) (optimizer : Optimizer) (m : Model)
  : Model * result (Optimizer * Loss) :=
  let trained :=
    fold_left (λ (acc : Model * result (Optimizer * gmap string Loss)) batch,
      match acc with
      | (m, Ok (opt, losses)) =>
          match update batch m opt losses with
          | Ok (m', opt', losses') => (m', Ok (opt', losses'))
          | Raise e => (m, Raise e)
          end
      | (m, Raise e) => (m, Raise e)
      end)
      (minibatch (length examples) 0 examples)
      (m, Ok (optimizer, ∅)) in
  match trained with
  | (m, Raise e) => (m, Raise e)
  | (m, Ok (opt, losses)) => (m, Ok (opt, default zero (losses !! "ner")))
  end.

(** The loop; [out] collects the iteration number and loss of each line
    printed. *)
Fixpoint iterations (n_iter itn : nat) (examples : list Example)
    (optimizer : Optimizer) (m : Model) (out : list (nat * Loss))
  : Model * result (list (nat * Loss)) :=
  match n_iter with
  | O => (m, Ok out)
  | S n' =>
      let examples := shuffle examples in
      match iteration examples optimizer m with
      | (m', Ok (opt', loss)) =>
          iterations n' (S itn) examples opt' m' (out ++ [(S itn, loss)])
      | (m', Raise e) => (m', Raise e)
      end
  end.

Definition train_ner_model
    (train_data : list (string * list (nat * nat * string))) (n_iter : nat)
    (p : Pipeline) : Pipeline * result (list (nat * Loss)) :=
  (* the labels, one [add_label] per annotated entity *)
  let m1 := fold_left (λ m label, add_label label m)
              (train_data ≫= λ item, (λ ent : nat * nat * string, ent.2) <$> item.2)
              (in_memory p) in
  let p1 := {| in_memory := m1; on_disk := on_disk p |} in
  match for_each train_data (λ item examples,
          example ← make_example m1 item.1 item.2;
          Ok (examples ++ [example])) [] with
  | Raise e => (p1, Raise e)
  | Ok examples =>
      match begin_training m1 with
      | Raise e => (p1, Raise e)
      | Ok (m2, optimizer) =>
          match iterations n_iter 0 examples optimizer m2 [] with
          | (m3, Raise e) => ({| in_memory := m3; on_disk := on_disk p |}, Raise e)
          | (m3, Ok out) => ({| in_memory := m3; on_disk := Some m3 |}, Ok out)
          end
      end
  end.

End training.

End Learn.

(** ** The remote annotator of [llama3.py] *)

Module Llama3.

(** A value of the parsed JSON: a string, or anything else, of which the
    code only ever takes [str(v)]. *)
Inductive value : Type :=
| VStr (s : string)
| VOther (rendered : string).

(** [str(v)] *)
Definition str (v : value) : string :=
  match v with
  | VStr s => s
  | VOther rendered => rendered
  end.

Definition quote : string := String (ascii_of_nat 34) EmptyString.
Definition newline : string := String (ascii_of_nat 10) EmptyString.

(** The template of [build_prompt], stripped, before and after [{text}]. *)
Definition prompt_head : list string :=
  ["Ты — система анализа промышленного оборудования. Извлеки данные из текста в формате JSON, приводя все сущности к начальной форме (единственное число, именительный падеж).";
   newline; newline; "Текст: "; quote].

Definition prompt_tail : list string :=
  [quote; newline; newline; "Правила:"; newline;
   "1. equipment: тип оборудования (электродвигатель, пресс, насос и т.д.)";
   newline; "2. number: идентификатор оборудования"; newline;
   "3. symptom: проблема (3-5 слов в начальной форме)"; newline;
   "4. action: требуемое действие (инфинитив)"; newline;
   "5. urgency: нормальный/срочный/критичный (срочный при словах "; quote;
   "срочно"; quote; ", "; quote; "авария"; quote; ")"; newline; newline;
   "Пример вывода:"; newline; "{"; newline; "  "; quote; "equipment"; quote;
   ": "; quote; "электродвигатель"; quote; ","; newline; "  "; quote;
   "number"; quote; ": "; quote; "12"; quote; ","; newline; "  "; quote;
   "symptom"; quote; ": "; quote; "коррозия"; quote; ","; newline; "  ";
   quote; "action"; quote; ": "; quote; "проверить"; quote; ","; newline;
   "  "; quote; "urgency"; quote; ": "; quote; "нормальный"; quote; newline;
   "}"; newline; newline;
   "Выведи ТОЛЬКО JSON, без других слов или комментариев."].

Definition build_prompt (text : string) : string :=
  join prompt_head +:+ text +:+ join prompt_tail.

(** [sep.join(parts)] *)
Fixpoint join_with (sep : string) (parts : list string) : string :=
  match parts with
  | [] => EmptyString
  | [part] => part
  | part :: rest => part +:+ sep +:+ join_with sep rest
  end.

(** [s.split(sep)] for a separator that is not empty: [skip] characters
    of a separator just found are still to be passed over, [cur] is the
    piece being read. *)
Fixpoint split_go (sep s : string) (skip : nat) (cur : string) : list string :=
  match s with
  | EmptyString => [cur]
  | String c rest =>
      match skip with
      | S skip' => split_go sep rest skip' cur
      | O =>
          if String.prefix sep s
          then cur :: split_go sep rest (String.length sep - 1) EmptyString
          else split_go sep rest 0 (cur +:+ String c EmptyString)
      end
  end.

Definition split (sep s : string) : list string := split_go sep s 0 EmptyString.

(** [xs[1]] *)
Definition index1 {A} (xs : list A) : result A :=
  match xs with
  | _ :: x :: _ => Ok x
  | _ => Raise IndexError
  end.

Definition base_url : string :=
  "http://127.0.0.1/Winnum/views/pages/app/agw.jsp".

Definition fixed_params : list (string * string) :=
  [("rpc", "WNApplicationTagHelper.getTagCalculationValue");
   ("mode", "yes");
   ("appid", "winnum.org.app.WNApplicationInstance:1");
   ("from", "now-2h");
   ("till", "now")].

Definition product_map : gmap string string :=
  list_to_map
    [("станок", "WNProduct:"); ("пресс", "WNPress:"); ("робот", "WNRobot:");
     ("двигатель", "WNMotor:"); ("насос", "WNPump:");
     ("электродвигатель", "WNMotor:")].

Definition symptom_map : gmap string string :=
  list_to_map
    [("вибрация", "NC_VIBRATION"); ("температура", "NC_TEMPERATURE");
     ("давление", "NC_PRESSURE"); ("шум", "NC_NOISE");
     ("перегрев", "NC_OVERHEATING"); ("коррозия", "NC_CORROSION")].

(** ["&".join([f"{k}={v}" for k, v in params.items()])] *)
Definition query (params : list (string * string)) : string :=
  join_with "&" ((λ kv : string * string, kv.1 +:+ "=" +:+ kv.2) <$> params).

(** What [extract_entities] returns: the parsed response, or the
    dictionary [{"raw_response": raw_response}]. *)
Inductive extracted (J : Type) : Type :=
| Parsed (j : J)
| RawResponse (raw_response : option string).

Arguments Parsed {J} j.
Arguments RawResponse {J} raw_response.

(** An HTTP response: its status code and [response.json()], taken to be
    a JSON object when it parses. *)
Record Response : Type := {
  status_code : nat;
  json : result (gmap string value);
}.

Section remote.
Context `{PyStr}.

(** [v.lower()]: only a string has the method. *)
Definition lower_of (v : value) : result string :=
  match v with
  | VStr s => Ok (lower s)
  | VOther _ => Raise AttributeError
  end.

Definition build_winnum_url (entities : gmap string value) : result string :=
  params ←
    match entities !! "equipment", entities !! "number" with
    | Some equipment, Some number =>
        equip_type ← lower_of equipment;
        let pid := default "WNProduct:" (product_map !! equip_type) +:+ str number in
        Ok (fixed_params ++ [("pid", pid)])
    | _, _ => Ok fixed_params
    end;
  params ←
    match entities !! "symptom" with
    | Some symptom =>
        name ← lower_of symptom;
        let tid := default "NC_DEFAULT" (symptom_map !! name) in
        Ok (params ++ [("tid", tid)])
    | None => Ok params
    end;
  Ok (base_url +:+ "?" +:+ query params).

(** The services outside the program: [requests.post] to the Ollama
    endpoint with a model name and a prompt, [str.strip], and
    [json.loads], whose result is left abstract. *)
Context {J : Type}.
Variable post : string → string → string → result Response.
Variable strip : string → string.
Variable json_loads : string → result J.

Definition ask_ollama (prompt model : string) : result (option string) :=
  response ← post "http://localhost:11434/api/generate" model prompt;
  if Nat.eqb (status_code response) 200 then
    data ← json response;
    raw_response ←
      match data !! "response" with
      | None => Ok (strip EmptyString)
      | Some (VStr s) => Ok (strip s)
      | Some (VOther _) => Raise AttributeError
      end;
    if negb (String.prefix "{" raw_response) then Ok None
    else Ok (Some raw_response)
  else Ok None.

Definition extract_entities (text : string) : result (extracted J) :=
  let prompt := build_prompt text in
  raw_response ← ask_ollama prompt "phi3";
  try_except
    (clean_json ←
       match raw_response with
       | None => Raise (OtherError "TypeError")
       | Some raw =>
           if is_in "```json" raw then
             fenced ← index1 (split "```json" raw);
             index0 (split "```" fenced)
           else Ok raw
       end;
     entities ← json_loads clean_json;
     Ok (Parsed entities))
    (Ok (RawResponse raw_response)).

(** The dictionary [{"raw_response": raw_response}] handed on to
    [build_winnum_url]. *)
Definition raw_response_dict (raw_response : option string) : gmap string value :=
  {["raw_response" :=
      match raw_response with
      | Some s => VStr s
      | None => VOther "None"
      end]}.

End remote.

End Llama3.

(** ** The dictionaries built by [IIoTAnalyzer.__init__] *)

Definition equipment_types_dict : term_dict :=
  [("станок",
    ["станок"; "станка"; "станку"; "станком"; "станке"; "фрезер";
     "фрезерный"; "токар"; "токарный"; "шлифовальный"; "шлифовщик";
     "обрабатывающий"; "обработка"]);
   ("пресс",
    ["пресс"; "пресса"; "прессу"; "прессом"; "прессе"; "гидропресс";
     "гидравлический пресс"; "кривошипный пресс"; "пружинный пресс";
     "пневматический пресс"]);
   ("робот",
    ["робот"; "робота"; "роботу"; "роботом"; "роботе"; "манипулятор";
     "сварочный робот"; "автоматический робот"; "роботизированный";
     "манипулятор"]);
   ("конвейер",
    ["конвейер"; "лента"; "транспортёр"; "транспортер"; "поток";
     "транспортная лента"; "ленточный конвейер"; "скребковый"]);
   ("компрессор",
    ["компрессор"; "компрессора"; "компрессору"; "компрессором";
     "компрессоре"; "воздушный компрессор"; "масляный компрессор";
     "воздушный насос"]);
   ("линия",
    ["линия"; "линии"; "линию"; "линией"; "лине"; "упаковочная линия";
     "сборочная линия"; "автоматическая линия"; "комплекс"]);
   ("печь",
    ["печь"; "печи"; "печью"; "печкой"; "нагревательная установка";
     "отопительная печь"; "кухонная печь"]);
   ("фрезерный станок",
    ["фрезер"; "фрезерный станок"; "фрезерная установка";
     "фрезерный комплекс"]);
   ("токарный станок",
    ["токарь"; "токарный станок"; "токарка"; "обработка по кругу"]);
   ("шлифовальный станок",
    ["шлифовальщик"; "шлифовальный станок"; "шлифовка";
     "шлифовальная машина"]);
   ("краскопульт",
    ["краскопульт"; "распылитель"; "краскораспылитель"; "краскопульту";
     "краскораспылитель"]);
   ("балансировочный станок",
    ["балансировщик"; "балансировочный станок"; "взвешивающий"]);
   ("гальваническая ванна",
    ["гальваническая ванна"; "гальваника"; "электрохимическая ванна"]);
   ("сварочный аппарат",
    ["сварочный аппарат"; "сварка"; "сварочный комплекс"; "сварочный"])].

Definition components_dict : term_dict :=
  [("шпиндель",
    ["шпиндель"; "шпинделя"; "шпинделю"; "шпинделем"; "шпинделе"; "вал";
     "торец"; "часть вращения"]);
   ("подшипник",
    ["подшипник"; "подшипника"; "подшипнику"; "подшипником"; "подшипнике";
     "ролик"; "опора"]);
   ("гидравлика",
    ["гидравлика"; "гидравлики"; "гидравлику"; "гидравликой"; "гидравлике";
     "насос"; "цилиндр"; "трубопровод"]);
   ("электродвигатель",
    ["электродвигатель"; "электродвигателя"; "электродвигателю";
     "электродвигателем"; "электрический мотор"; "двигатель"]);
   ("ремень",
    ["ремень"; "приводной ремень"; "клиновой ремень"; "зубчатый ремень";
     "лента"; "привод"]);
   ("датчик",
    ["датчик"; "сенсор"; "сигнализатор"; "измеритель"; "контрольный прибор";
     "тестер"]);
   ("трансмиссия",
    ["трансмиссия"; "передача"; "редуктор"; "механизм передачи"]);
   ("кабель",
    ["кабель"; "провод"; "трос"; "жгут"; "проводка"])].

Definition symptoms_dict : term_dict :=
  [("шум",
    ["шум"; "шума"; "шумом"; "шуме"; "гудение"; "скрежет"; "скрип"; "визг"]);
   ("вибрация",
    ["вибрация"; "вибрации"; "вибрацию"; "вибрацией"; "тряска";
     "дребезжание"; "колебания"]);
   ("перегрев",
    ["перегрев"; "перегрева"; "перегреву"; "перегревом"; "жар";
     "тепловой режим"; "перегревание"]);
   ("ошибка",
    ["ошибка"; "ошибки"; "ошибку"; "ошибкой"; "сбой"; "неисправность";
     "глюк"; "проблема"]);
   ("утечка",
    ["утечка"; "течь"; "протечка"; "капает"; "подтекание"; "вытекает";
     "вылив"]);
   ("задержка",
    ["задержка"; "задержки"; "задержку"; "задержкой"; "замедление";
     "зависание"]);
   ("коррозия",
    ["коррозия"; "ржавчина"; "окисление"; "загнивание"]);
   ("засор",
    ["засор"; "загрязнение"; "забитость"; "засорение"])].

Definition actions_dict : term_dict :=
  [("замена",
    ["замена"; "смена"; "промывка"; "ремонт"; "установка"; "обслуживание"]);
   ("ремонт",
    ["ремонт"; "починка"; "восстановление"; "замена"; "обновление"]);
   ("проверка",
    ["проверка"; "диагностика"; "осмотр"; "тестирование"]);
   ("настройка",
    ["настройка"; "регулировка"; "калибровка"]);
   ("заморожен",
    ["заморожен"; "остановлен"; "выключен"; "заблокирован"])].

(** [__init__]: [morph] is what [pymorphy2.MorphAnalyzer()] gave ([None]
    when it raised), [nlp] the pipeline that was loaded or created blank,
    [pipes] its component names; a sentencizer and a tagger are added when
    missing. *)
Definition __init__ (morph : option MorphAnalyzer) (nlp : string → result Doc)
    (pipes : list string) : IIoTAnalyzer :=
  let pipes :=
    if in_list "sentencizer" pipes then pipes else (pipes ++ ["sentencizer"])%list in
  let pipes :=
    if in_list "ner" pipes then pipes else (pipes ++ ["ner"])%list in
  {| morph := morph; nlp := nlp; pipe_names := pipes;
     equipment_types := equipment_types_dict;
     components := components_dict;
     symptoms := symptoms_dict;
     actions := actions_dict |}.

(** Every word of a dictionary: its keys and its variants. *)
Definition dictionary_words (dict : term_dict) : list string :=
  dict ≫= λ item, item.1 :: item.2.

(** ** Pipelines to run the analyzer on *)

(** Splitting at spaces. *)
Fixpoint split_spaces (s cur : string) : list string :=
  match s with
  | EmptyString => if truthy cur then [cur] else []
  | String c rest =>
      if Ascii.eqb c " "%char
      then (if truthy cur then [cur] else []) ++ split_spaces rest EmptyString
      else split_spaces rest (cur +:+ String c EmptyString)
  end.

(** The annotation of a blank pipeline: tokens without part of speech or
    lemma, no entities, the whole text as one sentence. *)
Definition blank_nlp (text : string) : Doc :=
  {| doc_text := text;
     tokens := (λ w, {| tok_text := w; pos_ := ""; lemma_ := "" |})
               <$> split_spaces text EmptyString;
     ents := [];
     sents := if truthy text then [text] else [] |}.

(** The listed annotations, blank elsewhere. *)
Definition annotated_nlp (table : list (string * Doc)) (text : string) : Doc :=
  match List.find (λ entry : string * Doc, String.eqb entry.1 text) table with
  | Some entry => entry.2
  | None => blank_nlp text
  end.

(** A pipeline that was initialised, by training or by loading a trained
    model: it annotates every text it is given. *)
Definition initialised (annotate : string → Doc) (text : string) : result Doc :=
  Ok (annotate text).

(** The pipeline [__init__] leaves when it loads no model: a blank
    pipeline to which the tagger was added and never initialised, which
    spaCy refuses to run. *)
Definition uninitialised_nlp (text : string) : result Doc := Raise ValueError.

Definition noun (w : string) : Token :=
  {| tok_text := w; pos_ := "NOUN"; lemma_ := w |}.

(** "станок вибрирует" as a pipeline with a part-of-speech tagger sees it. *)
Definition doc_machine_vibrates : Doc :=
  {| doc_text := "станок вибрирует";
     tokens := [noun "станок";
                {| tok_text := "вибрирует"; pos_ := "VERB"; lemma_ := "вибрировать" |}];
     ents := [];
     sents := ["станок вибрирует"] |}.

(** "станок 5" with the span "станок 5" tagged EQUIPMENT, and with the
    span tagged by a general-purpose model. *)
Definition doc_machine_5 (label : string) : Doc :=
  {| doc_text := "станок 5";
     tokens := [noun "станок"; {| tok_text := "5"; pos_ := "NUM"; lemma_ := "5" |}];
     ents := [{| ent_text := "станок 5"; label_ := label |}];
     sents := ["станок 5"] |}.

(** An analyzer whose morphological analyzer failed to initialise. *)
Definition analyzer_without_morph (nlp : string → result Doc) : IIoTAnalyzer :=
  __init__ None nlp [].

(** A morphological analyzer that knows a handful of word forms, for
    running the analyzer with [morph] present. *)
Definition toy_parse (word : string) : result (list Parse) :=
  if String.eqb word "вибрирует" then
    Ok [{| tag := ["VERB"]; normal_form := "вибрировать";
           lexeme := [{| form_tag := ["VERB"]; form_word := "вибрирует" |}] |}]
  else if String.eqb word "станка" then
    Ok [{| tag := ["NOUN"]; normal_form := "станок";
           lexeme := [{| form_tag := ["NOUN"]; form_word := "станок" |}] |}]
  else
    Ok [{| tag := ["UNKN"]; normal_form := word; lexeme := [] |}].

Definition toy_morph : MorphAnalyzer := {| parse := toy_parse |}.

(** spaCy operations for running [train_ner_model]: the model is the
    list of its labels and a count of updates. *)
Definition toy_spacy : Spacy (list string * nat) string unit nat :=
  {| add_label := λ label m, (label :: m.1, m.2);
     make_example := λ _ text _, Ok text;
     shuffle := λ l, l;
     shuffle_perm := λ l, Permutation_refl l;
     begin_training := λ m, Ok ((m.1, 0), ());
     batch_size := λ _, 4;
     update := λ batch m opt losses,
       Ok ((m.1, S m.2), opt, <["ner" := length batch]> losses);
     score := λ _ _, Ok (0, 1) |}.

(** The analyzers the examples run, each with an initialised pipeline:
    no morphological analyzer and the blank annotation; no morphological
    analyzer and a part-of-speech tagger; the toy morphological analyzer
    and a pipeline that tags "станок 5" as EQUIPMENT. *)
Definition plain_analyzer : IIoTAnalyzer :=
  analyzer_without_morph (initialised blank_nlp).

Definition tagging_analyzer : IIoTAnalyzer :=
  analyzer_without_morph
    (initialised (annotated_nlp [("станок вибрирует", doc_machine_vibrates)])).

(** A pipeline whose tagger finds the date "июнь 2023" in every text. *)
Definition dated_analyzer : IIoTAnalyzer :=
  analyzer_without_morph (initialised (λ text,
    {| doc_text := text; tokens := []; sents := [];
       ents := [{| ent_text := "июнь 2023"; label_ := "DATE" |}] |})).

Definition toy_analyzer : IIoTAnalyzer :=
  __init__ (Some toy_morph)
    (initialised (annotated_nlp [("станок вибрирует", doc_machine_vibrates);
                                 ("станок 5", doc_machine_5 "EQUIPMENT")])) [].

(** The analyzer as [__init__] leaves it when no model is loaded. *)
Definition fresh_analyzer : IIoTAnalyzer :=
  __init__ (Some toy_morph) uninitialised_nlp [].

(** A remote service that answers every request with a fenced JSON
    object, a [strip] for replies without surrounding blanks, and a parser
    that accepts what begins with a brace. *)
Definition fenced_post (url model prompt : string) : result Llama3.Response :=
  Ok {| Llama3.status_code := 200;
        Llama3.json := Ok {["response" := Llama3.VStr "```json{}```"]} |}.

Definition strip_nothing (s : string) : string := s.

Definition brace_loads (s : string) : result string :=
  if String.prefix "{" s then Ok s else Raise ValueError.

(** Two reports with entities, as a tagger trained on the corpus of the
    source would annotate them. *)
Definition doc_error_report : Doc :=
  {| doc_text := "Ошибка E15 на станке 5 в 10:30";
     tokens := [noun "Ошибка"; noun "E15"; noun "станке"];
     ents := [{| ent_text := "E15"; label_ := "ERROR_CODE" |};
              {| ent_text := "станке 5"; label_ := "EQUIPMENT" |};
              {| ent_text := "10:30"; label_ := "TIME" |};
              {| ent_text := "5"; label_ := "EQUIPMENT_ID" |}];
     sents := ["Ошибка E15 на станке 5 в 10:30"] |}.

Definition doc_spindle : Doc :=
  {| doc_text := "Шпиндель станка 2 шумит";
     tokens := [noun "Шпиндель"; noun "станка"];
     ents := [{| ent_text := "Шпиндель"; label_ := "COMPONENT" |}];
     sents := ["Шпиндель станка 2 шумит"] |}.

Definition report_analyzer : IIoTAnalyzer :=
  analyzer_without_morph
    (initialised (annotated_nlp [("Ошибка E15 на станке 5 в 10:30", doc_error_report);
                                 ("Шпиндель станка 2 шумит", doc_spindle)])).

(** A corpus of five examples, enough for the 80/20 split to leave
    something to train on. *)
Definition five_examples : list (string * list (nat * nat * string)) :=
  [("Почините робот KUKA-5", [(10, 17, "EQUIPMENT")]);
   ("Робот Кука-5 сломался", [(6, 12, "EQUIPMENT")]);
   ("b", []); ("c", []); ("d", [])].

(** A table for [list(s)]: the elements in the order in which they were
    first added. *)
Definition insertion_order : PySet :=
  {| set_list := remove_dups;
     set_list_elem := λ added x, elem_of_remove_dups added x;
     set_list_nodup := λ added, NoDup_remove_dups added |}.

Definition two_digits (n : nat) : string :=
  String (ascii_of_nat (48 + n / 10))
    (String (ascii_of_nat (48 + n mod 10)) EmptyString).

(** Libraries for running [analyze_text]: their state is the minute of
    the clock, every call of a library takes a minute, and they answer as
    the pipeline and the morphological analyzer of the analyzer say. *)
Definition ticking_libs : Run.Libraries nat :=
  {| Run.call_nlp := λ pipeline text minute, (pipeline text, S minute);
     Run.call_parse := λ m word minute, (parse m word, S minute);
     Run.clock := λ minute, "01.01.2025 10:" +:+ two_digits (minute mod 60) |}.

(** Libraries that keep no state: the clock stands still. *)
Definition still_libs : Run.Libraries nat :=
  {| Run.call_nlp := λ pipeline text minute, (pipeline text, minute);
     Run.call_parse := λ m word minute, (parse m word, minute);
     Run.clock := λ minute, "01.01.2025 10:" +:+ two_digits (minute mod 60) |}.

(** The analyzers of the examples with the clock at 10:00. *)
Definition plain_store : Run.Store nat :=
  {| Run.analyzer := plain_analyzer; Run.world := 0 |}.

Definition toy_store : Run.Store nat :=
  {| Run.analyzer := toy_analyzer; Run.world := 0 |}.

Definition dated_store : Run.Store nat :=
  {| Run.analyzer := dated_analyzer; Run.world := 0 |}.

(** ** Vocabulary of the statements *)

Definition value_or {A} (default : A) (m : result A) : A :=
  match m with
  | Ok v => v
  | Raise _ => default
  end.

(** The value [_normalize] returns. *)
Definition normal `{PyStr} (self : IIoTAnalyzer) (word : string) : string :=
  value_or EmptyString (_normalize self word).

(** The analysis inside [_normalize] fails: there is no analyzer, [parse]
    raises, or [parse] gives no parse so that [[0]] raises. *)
Definition analysis_fails (self : IIoTAnalyzer) (word : string) : Prop :=
  match morph self with
  | None => True
  | Some m =>
      match parse m word with
      | Raise _ => True
      | Ok [] => True
      | Ok (_ :: _) => False
      end
  end.

(** A dictionary entry matches a normalized input: by its key as it is
    written, or by a variant once lowercased and normalized. *)
Definition entry_matches `{PyStr} (self : IIoTAnalyzer) (normalized : string)
    (item : string * list string) : Prop :=
  normalized = item.1 ∨
  ∃ variant, variant ∈ item.2 ∧ normalized = normal self (lower variant).

(** A key the dictionary pass over the tokens of a document finds: what
    [_match_term] gives for the word of some token, the empty string
    apart. *)
Definition pass_hit `{PyStr} (self : IIoTAnalyzer) (dict : term_dict)
    (word_of : Token → option string) (doc : Doc) (x : string) : Prop :=
  ∃ token, token ∈ tokens doc
    ∧ _match_term self (word_of token) dict = Ok (Some x)
    ∧ truthy x = true.

(** The labels [analyze_text] files an entity under. *)
Definition recorded_labels : list string :=
  ["EQUIPMENT"; "DATE"; "ERROR_CODE"; "TIME"; "COMPONENT"; "SYMPTOM"; "ACTION"].

(** The tagger found an entity of a recorded category. *)
Definition tagger_found (doc : Doc) : bool :=
  existsb (λ ent, in_list (label_ ent) recorded_labels) (ents doc).

(** The pattern search finds a noun or proper noun carrying a digit. *)
Definition pattern_found `{PyStr} (doc : Doc) : bool :=
  existsb (λ token,
    in_list (pos_ token) ["NOUN"; "PROPN"] && has_digit (tok_text token))
    (tokens doc).

(** The dictionary pass over the tokens finds a component: one of the
    non-empty results of the rule-based extractor the spec counts. *)
Definition dictionary_found_component `{PyStr} (self : IIoTAnalyzer) (doc : Doc)
  : bool :=
  existsb (λ token,
    truthy_opt (value_or None
      (_match_term self (Some (tok_text token)) (components self))))
    (tokens doc).

(** [success] as the spec words it: some category found by the tagger or
    by the rule-based extractor. *)
Definition success_as_specified `{PyStr} (self : IIoTAnalyzer) (doc : Doc)
  : bool :=
  tagger_found doc || pattern_found doc || dictionary_found_component self doc.

Definition has_date (doc : Doc) : bool :=
  existsb (λ ent, String.eqb (label_ ent) "DATE") (ents doc).

(** A result with its timestamp blanked, to compare two runs. *)
Definition without_timestamp (r : Analysis) : Analysis :=
  {| ner := ner r;
     failure_analysis :=
       {| equipment_type := equipment_type (failure_analysis r);
          fa_components := fa_components (failure_analysis r);
          fa_symptoms := fa_symptoms (failure_analysis r);
          urgency := urgency (failure_analysis r);
          timestamp := EmptyString;
          unknown_terms := unknown_terms (failure_analysis r) |};
     raw_text := raw_text r;
     success := success r |}.

Definition map_result {A B} (f : A → B) (m : result A) : result B :=
  match m with
  | Ok v => Ok (f v)
  | Raise e => Raise e
  end.

(** The equipment mentions an identifier is drawn from: the entities the
    tagger labelled EQUIPMENT, or, when there is none, the nouns and proper
    nouns that carry a digit. *)
Definition equipment_mentions `{PyStr} (doc : Doc) : list string :=
  match ent_text <$> filter (λ ent, label_ ent = "EQUIPMENT") (ents doc) with
  | [] =>
      tok_text <$> filter (λ token,
        in_list (pos_ token) ["NOUN"; "PROPN"] && has_digit (tok_text token) = true)
        (tokens doc)
  | tagged => tagged
  end.

(** The non-empty digit strings of a list of mentions. *)
Definition ids_of `{PyStr} (mentions : list string) : list string :=
  filter (λ id, truthy id = true) (digits_of <$> mentions).

(** The keyword sets of [_detect_urgency]: of [istok_nlp.py], and the
    high-urgency set of [NLP_with_spaCy.py], whose only low-urgency
    keyword is "незначительный". *)
Definition high_words : list string := ["срочно"; "авария"; "остановка"; "критичн"].
Definition low_words : list string := ["плановый"; "не срочно"; "профилактика"].
Definition spacy_high_words : list string :=
  ["срочно"; "авария"; "остановился"; "срочный"].

Definition occurs_any (words : list string) (text_lower : string) : bool :=
  existsb (λ word, is_in word text_lower) words.

(** Actions on the store. *)

Section run_vocabulary.
Context {World : Type}.

(** An action leaves the analyzer as it found it. *)
Definition frames {A} (m : Run.Action World A) : Prop :=
  ∀ s, Run.analyzer (m s).2 = Run.analyzer s.

(** An action leaves the whole store as it found it. *)
Definition still {A} (m : Run.Action World A) : Prop := ∀ s, (m s).2 = s.

(** Two outcomes agree: values related by [R], or the same exception. *)
Definition agree {A B} (R : A → B → Prop) (r1 : result A) (r2 : result B) : Prop :=
  match r1, r2 with
  | Ok a, Ok b => R a b
  | Raise e1, Raise e2 => e1 = e2
  | _, _ => False
  end.

(** The outcome of an action is settled, up to [R], by the analyzer it
    runs on: the state of the libraries does not reach it. *)
Definition settled {A} (R : A → A → Prop) (m : Run.Action World A) : Prop :=
  ∀ s1 s2, Run.analyzer s1 = Run.analyzer s2 → agree R (m s1).1 (m s2).1.

(** Run on the analyzer [self], an action gives what the computation
    [r] on the tables of [self] gives, up to [R], whatever the state of
    the libraries. *)
Definition refines {A B} (self : IIoTAnalyzer) (R : A → B → Prop)
    (m : Run.Action World A) (r : result B) : Prop :=
  ∀ s, Run.analyzer s = self → agree R (m s).1 r.

End run_vocabulary.

(** A set under construction and the set it is. *)
Definition is_set (added : list string) (found : gset string) : Prop :=
  list_to_set added = found.

(** A returned record with its timestamp blanked, to compare two runs. *)
Definition blank_timestamp (r : Returned) : Returned :=
  {| run_ner := run_ner r;
     run_failure_analysis :=
       {| run_equipment_type := run_equipment_type (run_failure_analysis r);
          run_components := run_components (run_failure_analysis r);
          run_symptoms := run_symptoms (run_failure_analysis r);
          run_urgency := run_urgency (run_failure_analysis r);
          run_timestamp := EmptyString;
          run_unknown_terms := run_unknown_terms (run_failure_analysis r) |};
     run_raw_text := run_raw_text r;
     run_success := run_success r |}.

(** The result with its lists read as sets. *)
Definition as_sets (r : Returned) : Analysis :=
  {| ner := run_ner r;
     failure_analysis :=
       {| equipment_type := run_equipment_type (run_failure_analysis r);
          fa_components := list_to_set (run_components (run_failure_analysis r));
          fa_symptoms := list_to_set (run_symptoms (run_failure_analysis r));
          urgency := run_urgency (run_failure_analysis r);
          timestamp := run_timestamp (run_failure_analysis r);
          unknown_terms := run_unknown_terms (run_failure_analysis r) |};
     raw_text := run_raw_text r;
     success := run_success r |}.


(** * Properties *)

(** ** Normalizer *)

Section normalizer_facts.
Context `{PyStr} (self : IIoTAnalyzer).

Lemma normalize_fallback word :
  analysis_fails self word →
  _normalize self word = Ok (if truthy word then lower word else EmptyString).
Proof.
  unfold analysis_fails, _normalize, morph_parse.
  destruct (truthy word) eqn:Hw; simpl; [|done].
  destruct (morph self) as [m|]; simpl; [|done].
  destruct (parse m word) as [[|p ps]|e]; simpl; done.
Qed.

Lemma normalize_value word : _normalize self word = Ok (normal self word).
Proof.
  unfold normal, _normalize, morph_parse.
  destruct (truthy word); simpl; [|done].
  destruct (morph self) as [m|]; simpl; [|done].
  destruct (parse m word) as [[|p ps]|e]; simpl; done.
Qed.

(** C4: [_normalize] returns for every word; it returns the lowercased
    word when there is no analyzer or the analysis raises, and the empty
    string for the empty word. *)
Theorem normalize_never_raises word :
  returns (_normalize self word)
  ∧ (analysis_fails self word → truthy word = true →
     _normalize self word = Ok (lower word))
  ∧ _normalize self EmptyString = Ok EmptyString.
Proof.
  split; [eexists; apply normalize_value|]. split; [|done].
  intros Hfail Hw. rewrite (normalize_fallback _ Hfail), Hw. done.
Qed.

End normalizer_facts.

(** ** Lexical matcher *)

Section matcher_facts.
Context `{PyStr} (self : IIoTAnalyzer).

Lemma any_variant_value normalized variants :
  any_variant self normalized variants =
  Ok (existsb (λ v, String.eqb normalized (normal self (lower v))) variants).
Proof.
  induction variants as [|v vs IH]; simpl; [done|].
  rewrite normalize_value. simpl.
  destruct (String.eqb normalized (normal self (lower v))); simpl; done.
Qed.

Lemma entry_matches_decide normalized item :
  entry_matches self normalized item ↔
  String.eqb normalized item.1
  || existsb (λ v, String.eqb normalized (normal self (lower v))) item.2 = true.
Proof.
  unfold entry_matches. rewrite orb_true_iff, String.eqb_eq, existsb_exists.
  split; (intros [?|(v & Hv & Heq)]; [by left|right; exists v]).
  - by rewrite <- list_elem_of_In, String.eqb_eq.
  - by rewrite list_elem_of_In, <- String.eqb_eq.
Qed.

Lemma match_items_none normalized items :
  match_items self normalized items = Ok None ↔
  ∀ item, item ∈ items → ¬ entry_matches self normalized item.
Proof.
  induction items as [|[term variants] rest IH]; simpl.
  - split; [|done]. intros _ item Hin. by apply not_elem_of_nil in Hin.
  - rewrite any_variant_value. simpl.
    destruct (String.eqb normalized term) eqn:Hk.
    { split; [done|]. intros Hall. exfalso.
      apply (Hall (term, variants)); [left|].
      apply entry_matches_decide. simpl. by rewrite Hk. }
    destruct (existsb _ variants) eqn:Hv.
    { split; [done|]. intros Hall. exfalso.
      apply (Hall (term, variants)); [left|].
      apply entry_matches_decide. simpl. by rewrite Hk, Hv. }
    rewrite IH. split.
    + intros Hall item Hin. apply elem_of_cons in Hin as [->|Hin]; [|by apply Hall].
      rewrite entry_matches_decide. simpl. by rewrite Hk, Hv.
    + intros Hall item Hin. apply Hall. by right.
Qed.

Lemma match_items_some normalized items k :
  match_items self normalized items = Ok (Some k) ↔
  ∃ before variants after,
    items = before ++ (k, variants) :: after
    ∧ entry_matches self normalized (k, variants)
    ∧ ∀ item, item ∈ before → ¬ entry_matches self normalized item.
Proof.
  induction items as [|[term variants] rest IH]; simpl.
  - split; [done|]. intros (before & vs & after & Heq & _).
    by destruct before.
  - rewrite any_variant_value. simpl.
    destruct (String.eqb normalized term
              || existsb (λ v, String.eqb normalized (normal self (lower v)))
                   variants) eqn:Hhit.
    + assert (entry_matches self normalized (term, variants)) as Hm
        by by apply entry_matches_decide.
      assert ((if String.eqb normalized term then Ok (Some term)
               else if existsb (λ v, String.eqb normalized (normal self (lower v)))
                         variants
                    then Ok (Some term) else match_items self normalized rest)
              = Ok (Some term)) as ->.
      { destruct (String.eqb normalized term); [done|]. simpl in Hhit.
        by rewrite Hhit. }
      split.
      * intros [= <-]. exists [], variants, rest. split; [done|]. split; [done|].
        intros item Hin. by apply not_elem_of_nil in Hin.
      * intros (before & vs & after & Heq & Hk & Hfirst).
        destruct before as [|b before]; simpl in Heq.
        { by injection Heq as -> _ _. }
        injection Heq as <- _. exfalso. apply (Hfirst (term, variants)); [left|done].
    + apply orb_false_iff in Hhit as [Hk Hv]. rewrite Hk, Hv, IH.
      assert (¬ entry_matches self normalized (term, variants)) as Hno.
      { rewrite entry_matches_decide. simpl. by rewrite Hk, Hv. }
      split.
      * intros (before & vs & after & -> & Hm & Hfirst).
        exists ((term, variants) :: before), vs, after. split; [done|]. split; [done|].
        intros item Hin. apply elem_of_cons in Hin as [->|Hin]; [done|by apply Hfirst].
      * intros (before & vs & after & Heq & Hm & Hfirst).
        destruct before as [|b before]; simpl in Heq.
        { injection Heq as -> ->. done. }
        injection Heq as <- ->. exists before, vs, after. split; [done|]. split; [done|].
        intros item Hin. apply Hfirst. by right.
Qed.

Lemma match_term_some_eq text dict :
  _match_term self (Some text) dict =
  match_items self (normal self (lower text)) dict.
Proof. unfold _match_term. by rewrite normalize_value. Qed.

(** C6: for a string input, [_match_term] returns the first key, in
    definition order, whose entry matches the lowercased and normalized
    input by its key or by a lowercased and normalized variant; it returns
    [None] exactly when no entry matches. *)
Theorem match_term_first_match text dict :
  let normalized := normal self (lower text) in
  (∀ k, _match_term self (Some text) dict = Ok (Some k) ↔
        ∃ before variants after,
          dict = before ++ (k, variants) :: after
          ∧ entry_matches self normalized (k, variants)
          ∧ ∀ item, item ∈ before → ¬ entry_matches self normalized item)
  ∧ (_match_term self (Some text) dict = Ok None ↔
     ∀ item, item ∈ dict → ¬ entry_matches self normalized item).
Proof.
  intros normalized. rewrite match_term_some_eq. split.
  - intros k. apply match_items_some.
  - apply match_items_none.
Qed.

Lemma match_items_key normalized items r :
  match_items self normalized items = Ok r →
  r = None ∨ ∃ k, r = Some k ∧ k ∈ items.*1.
Proof.
  destruct r as [k|]; [|by left]. intros Hm. right. exists k. split; [done|].
  apply match_items_some in Hm as (before & vs & after & -> & _).
  rewrite fmap_app. apply elem_of_app. right. simpl. by left.
Qed.

Lemma match_items_returns normalized items :
  returns (match_items self normalized items).
Proof.
  induction items as [|[term variants] rest IH]; simpl; [by eexists|].
  rewrite any_variant_value. simpl.
  destruct (String.eqb normalized term); [by eexists|].
  destruct (existsb _ variants); [by eexists|done].
Qed.

(** C10: [_match_term] returns [None] for [None], and for every string it
    returns, without raising, a key of the dictionary or [None]; so it does
    on whatever [_convert_verb_to_noun] hands it. *)
Theorem match_term_total dict :
  _match_term self None dict = Ok None
  ∧ (∀ text : option string, ∃ r,
       _match_term self text dict = Ok r
       ∧ (r = None ∨ ∃ k, r = Some k ∧ k ∈ dict.*1))
  ∧ (∀ word, returns (_match_term self (_convert_verb_to_noun self word) dict)).
Proof.
  assert (∀ text : option string, ∃ r,
       _match_term self text dict = Ok r
       ∧ (r = None ∨ ∃ k, r = Some k ∧ k ∈ dict.*1)) as Htotal.
  { intros [text|]; [|exists None; split; [done|by left]].
    rewrite match_term_some_eq.
    destruct (match_items_returns (normal self (lower text)) dict) as [r Hr].
    exists r. split; [done|]. by eapply match_items_key. }
  split; [done|]. split; [done|].
  intros word. destruct (Htotal (_convert_verb_to_noun self word)) as (r & Hr & _).
  by exists r.
Qed.

End matcher_facts.

(** ** Urgency *)

Section urgency_facts.
Context `{PyStr}.

Lemma first_level_urgency text_lower :
  first_level text_lower urgency_words =
  if occurs_any high_words text_lower then Some "высокая"
  else if occurs_any low_words text_lower then Some "низкая"
  else None.
Proof. reflexivity. Qed.

Lemma simple_detect_urgency (doc : Doc) :
  EquipmentFailureAnalyzer._detect_urgency doc =
  if occurs_any spacy_high_words (lower (doc_text doc)) then "Высокая"
  else if is_in "незначительный" (lower (doc_text doc)) then "Низкая"
  else "Средняя".
Proof. reflexivity. Qed.

(** C3: in [istok_nlp.py] and in [NLP_with_spaCy.py] alike,
    [_detect_urgency] looks for its high-urgency words in the lowercased
    text first, then for its low-urgency words: High when a high word
    occurs, whatever else occurs; Low when a low word occurs and no high
    word; Medium when neither occurs.  A text with both "срочно" and
    "плановый" is High in both. *)
Theorem detect_urgency_priority (doc : Doc) :
  let text_lower := lower (doc_text doc) in
  (occurs_any high_words text_lower = true →
   _detect_urgency doc = capitalize "высокая")
  ∧ (occurs_any high_words text_lower = false →
     occurs_any low_words text_lower = true →
     _detect_urgency doc = capitalize "низкая")
  ∧ (occurs_any high_words text_lower = false →
     occurs_any low_words text_lower = false →
     _detect_urgency doc = "Средняя")
  ∧ (occurs_any spacy_high_words text_lower = true →
     EquipmentFailureAnalyzer._detect_urgency doc = "Высокая")
  ∧ (occurs_any spacy_high_words text_lower = false →
     is_in "незначительный" text_lower = true →
     EquipmentFailureAnalyzer._detect_urgency doc = "Низкая")
  ∧ (occurs_any spacy_high_words text_lower = false →
     is_in "незначительный" text_lower = false →
     EquipmentFailureAnalyzer._detect_urgency doc = "Средняя")
  ∧ (is_in "срочно" text_lower = true → is_in "плановый" text_lower = true →
     _detect_urgency doc = capitalize "высокая"
     ∧ EquipmentFailureAnalyzer._detect_urgency doc = "Высокая").
Proof.
  intros text_lower. rewrite simple_detect_urgency.
  unfold _detect_urgency. fold text_lower.
  rewrite first_level_urgency.
  split; [by intros ->|]. split; [by intros -> ->|]. split; [by intros -> ->|].
  split; [by intros ->|]. split; [by intros -> ->|]. split; [by intros -> ->|].
  intros Hhigh _.
  assert (occurs_any high_words text_lower = true) as ->.
  { unfold occurs_any, high_words. simpl. by rewrite Hhigh. }
  assert (occurs_any spacy_high_words text_lower = true) as ->.
  { unfold occurs_any, spacy_high_words. simpl. by rewrite Hhigh. }
  done.
Qed.

End urgency_facts.

(** ** The success flag *)

Section success_facts.
Context `{PyStr}.

Lemma nonempty_snoc v x : nonempty (v ++ [x]) = true.
Proof. by destruct v. Qed.

Lemma any_values_unfold r :
  any_values r =
  nonempty (ner_equipment r) || nonempty (ner_equipment_id r)
  || nonempty (ner_dates r) || nonempty (ner_error_codes r)
  || nonempty (ner_times r) || nonempty (ner_components r)
  || nonempty (ner_symptoms r) || nonempty (ner_actions r)
  || nonempty (ner_unknown_terms r).
Proof.
  unfold any_values. simpl. rewrite orb_false_r, !orb_assoc. done.
Qed.

Lemma any_values_append_equipment text r :
  any_values (append_equipment text r) = true.
Proof.
  rewrite any_values_unfold. simpl. by rewrite nonempty_snoc.
Qed.

Lemma any_values_record_entity r ent :
  any_values (record_entity r ent) =
  any_values r || in_list (label_ ent) recorded_labels.
Proof.
  unfold record_entity.
  repeat (match goal with
          | |- context [String.eqb (label_ ent) ?l] =>
              destruct (String.eqb_spec (label_ ent) l) as [->|?]
          end;
          [first [ rewrite any_values_append_equipment
                 | rewrite (any_values_unfold {| ner_equipment := _ |}); simpl;
                   rewrite nonempty_snoc ];
           by rewrite ?orb_true_r|]).
  assert (in_list (label_ ent) recorded_labels = false) as ->.
  { apply bool_decide_eq_false. unfold recorded_labels.
    rewrite !elem_of_cons, elem_of_nil. tauto. }
  by rewrite orb_false_r.
Qed.

Lemma any_values_entities es r :
  any_values (fold_left record_entity es r) =
  any_values r || existsb (λ ent, in_list (label_ ent) recorded_labels) es.
Proof.
  revert r. induction es as [|ent es IH]; intros r; simpl.
  - by rewrite orb_false_r.
  - by rewrite IH, any_values_record_entity, orb_assoc.
Qed.

Lemma any_values_patterns ts r :
  any_values (fold_left record_pattern ts r) =
  any_values r
  || existsb (λ token, in_list (pos_ token) ["NOUN"; "PROPN"]
                       && has_digit (tok_text token)) ts.
Proof.
  revert r. induction ts as [|token ts IH]; intros r; simpl.
  - by rewrite orb_false_r.
  - rewrite IH. unfold record_pattern.
    destruct (in_list (pos_ token) ["NOUN"; "PROPN"] && has_digit (tok_text token)).
    + by rewrite any_values_append_equipment, orb_true_r.
    + done.
Qed.

Lemma any_values_collect doc :
  any_values (collect_ner doc) = tagger_found doc || pattern_found doc.
Proof.
  unfold collect_ner, tagger_found, pattern_found.
  pose proof (any_values_entities (ents doc) empty_ner) as Hents.
  change (any_values empty_ner) with false in Hents. simpl in Hents.
  destruct (ner_equipment (fold_left record_entity (ents doc) empty_ner))
    as [|first others] eqn:Heq.
  - by rewrite any_values_patterns, Hents.
  - rewrite <- Hents, any_values_unfold, Heq. done.
Qed.

Lemma analyze_doc_success self doc text now r :
  analyze_doc self doc text now = Ok r →
  success r = any_values (collect_ner doc) ∧ ner r = collect_ner doc.
Proof.
  unfold analyze_doc. intros Hr.
  destruct (for_each (tokens doc) _ _) as [syms|]; simpl in Hr; [|done].
  destruct (_determine_equipment_type self doc _) as [et|]; simpl in Hr; [|done].
  destruct (match ner_components (collect_ner doc) with [] => _ | _ => _ end)
    as [cs|]; simpl in Hr; [|done].
  destruct (if is_empty_set syms then _ else _) as [ss|]; simpl in Hr; [|done].
  by injection Hr as <-.
Qed.

(** [analyze_text] is [analyze_doc] on the document the pipeline
    returns, and raises what the pipeline raises. *)
Lemma analyze_text_on_doc self text now doc :
  nlp self text = Ok doc →
  analyze_text self text now = analyze_doc self doc text now.
Proof. unfold analyze_text. by intros ->. Qed.

Lemma analyze_text_pipeline_raises self text now e :
  nlp self text = Raise e → analyze_text self text now = Raise e.
Proof. unfold analyze_text. by intros ->. Qed.

Lemma analyze_text_doc self text now r :
  analyze_text self text now = Ok r →
  ∃ doc, nlp self text = Ok doc ∧ analyze_doc self doc text now = Ok r.
Proof.
  unfold analyze_text. destruct (nlp self text) as [doc|e]; [|done].
  intros Hr. by exists doc.
Qed.

(** C1, as the code has it: [success] is true exactly when the tagger
    produced an entity labelled EQUIPMENT, DATE, ERROR_CODE, TIME,
    COMPONENT, SYMPTOM or ACTION, or the pattern search found a noun or
    proper noun carrying a digit.  What the dictionary passes find does
    not enter it. *)
Theorem success_iff_ner_found self text now r :
  analyze_text self text now = Ok r →
  ∃ doc, nlp self text = Ok doc ∧
  (success r = true ↔
   (∃ ent, ent ∈ ents doc ∧ label_ ent ∈ recorded_labels)
   ∨ (∃ token, token ∈ tokens doc
        ∧ pos_ token ∈ ["NOUN"; "PROPN"] ∧ has_digit (tok_text token) = true)).
Proof.
  intros (doc & Hdoc & Hr)%analyze_text_doc. exists doc. split; [done|].
  apply analyze_doc_success in Hr as [-> _].
  rewrite any_values_collect, orb_true_iff.
  unfold tagger_found, pattern_found. rewrite !existsb_exists.
  split; (intros [(x & Hin & Hx)|(x & Hin & Hx)]; [left|right]; exists x).
  - rewrite list_elem_of_In. split; [done|]. by apply bool_decide_eq_true in Hx.
  - rewrite list_elem_of_In. apply andb_true_iff in Hx as [Hp Hd].
    by apply bool_decide_eq_true in Hp.
  - rewrite <- list_elem_of_In. split; [done|]. by apply bool_decide_eq_true.
  - rewrite <- list_elem_of_In. destruct Hx as [Hp Hd]. split; [done|].
    apply andb_true_iff. split; [by apply bool_decide_eq_true|done].
Qed.

End success_facts.

(** ** Determinism and the clock *)

Section clock_facts.
Context `{PyStr} (self : IIoTAnalyzer).

Lemma get_timestamp_dated doc now1 now2 :
  has_date doc = true → _get_timestamp doc now1 = _get_timestamp doc now2.
Proof.
  unfold has_date, _get_timestamp. intros Hd.
  destruct (List.find _ (ents doc)) as [ent|] eqn:Hfind; [done|].
  apply existsb_exists in Hd as (ent & Hin & Hl).
  by rewrite (find_none _ _ Hfind ent Hin) in Hl.
Qed.

Lemma get_timestamp_undated doc now :
  has_date doc = false → _get_timestamp doc now = now.
Proof.
  unfold has_date, _get_timestamp. intros Hd.
  destruct (List.find _ (ents doc)) as [ent|] eqn:Hfind; [|done].
  apply find_some in Hfind as [Hin Hl].
  assert (existsb (λ ent, String.eqb (label_ ent) "DATE") (ents doc) = true) as Ht
    by (apply existsb_exists; eauto).
  congruence.
Qed.

(** What [analyze_doc] returns, with the timestamp taken out of the
    computation. *)
Lemma analyze_doc_timestamp doc text now :
  analyze_doc self doc text now =
  map_result (λ r,
    {| ner := ner r;
       failure_analysis :=
         {| equipment_type := equipment_type (failure_analysis r);
            fa_components := fa_components (failure_analysis r);
            fa_symptoms := fa_symptoms (failure_analysis r);
            urgency := urgency (failure_analysis r);
            timestamp := _get_timestamp doc now;
            unknown_terms := unknown_terms (failure_analysis r) |};
       raw_text := raw_text r;
       success := success r |})
    (analyze_doc self doc text EmptyString).
Proof.
  unfold analyze_doc.
  destruct (for_each (tokens doc) _ _) as [syms|]; simpl; [|done].
  destruct (_determine_equipment_type self doc _) as [et|]; simpl; [|done].
  destruct (match ner_components (collect_ner doc) with [] => _ | _ => _ end)
    as [cs|]; simpl; [|done].
  destruct (if is_empty_set syms then _ else _) as [ss|]; simpl; done.
Qed.

(** With the clock reading as an argument, the reading reaches the
    timestamp only, and only when the tagger found no DATE entity. *)
Lemma analyze_doc_clock doc text now1 now2 :
  map_result without_timestamp (analyze_doc self doc text now1)
  = map_result without_timestamp (analyze_doc self doc text now2)
  ∧ (has_date doc = true →
     analyze_doc self doc text now1 = analyze_doc self doc text now2)
  ∧ (has_date doc = false →
     ∀ r, analyze_doc self doc text now1 = Ok r →
          timestamp (failure_analysis r) = now1).
Proof.
  rewrite (analyze_doc_timestamp _ _ now1), (analyze_doc_timestamp _ _ now2).
  destruct (analyze_doc self doc text EmptyString) as [r0|e]; simpl.
  - split; [done|]. split.
    + intros Hd. by rewrite (get_timestamp_dated _ now1 now2 Hd).
    + intros Hd r [= <-]. simpl. by apply get_timestamp_undated.
  - done.
Qed.

End clock_facts.

(** ** Equipment identifiers *)

Section equipment_id_facts.
Context `{PyStr}.

Lemma digits_of_no_digit s : has_digit s = false → digits_of s = EmptyString.
Proof.
  unfold has_digit, digits_of. induction (chars s) as [|c cs IH]; simpl; [done|].
  intros [Hc Hcs]%orb_false_iff. rewrite filter_cons.
  destruct (decide (isdigit c = true)) as [Heq|_]; [congruence|]. by apply IH.
Qed.

Lemma ids_of_app xs ys : ids_of (xs ++ ys) = ids_of xs ++ ids_of ys.
Proof. unfold ids_of. by rewrite fmap_app, filter_app. Qed.

Lemma ids_of_singleton x :
  ids_of [x] = if truthy (digits_of x) then [digits_of x] else [].
Proof.
  unfold ids_of. simpl. rewrite filter_cons, filter_nil.
  destruct (truthy (digits_of x)) eqn:Ht; by case_decide.
Qed.

Lemma append_equipment_fields text r :
  ner_equipment (append_equipment text r) = ner_equipment r ++ [text]
  ∧ ner_equipment_id (append_equipment text r) = ner_equipment_id r ++ ids_of [text].
Proof.
  split; [done|]. simpl. rewrite ids_of_singleton.
  destruct (truthy (digits_of text)); [done|by rewrite app_nil_r].
Qed.

Lemma record_entity_fields r ent :
  let mention :=
    ent_text <$> filter (λ ent, label_ ent = "EQUIPMENT") [ent] in
  ner_equipment (record_entity r ent) = ner_equipment r ++ mention
  ∧ ner_equipment_id (record_entity r ent) = ner_equipment_id r ++ ids_of mention.
Proof.
  intros mention. subst mention. rewrite filter_cons, filter_nil.
  unfold record_entity.
  destruct (String.eqb_spec (label_ ent) "EQUIPMENT") as [Heq|Hne].
  { rewrite decide_True by done. apply append_equipment_fields. }
  rewrite decide_False by done. simpl.
  repeat (match goal with
          | |- context [String.eqb (label_ ent) ?l] =>
              destruct (String.eqb (label_ ent) l)
          end; simpl; [by rewrite !app_nil_r|]).
  by rewrite !app_nil_r.
Qed.

Lemma fold_entities_fields es r :
  let mentions := ent_text <$> filter (λ ent, label_ ent = "EQUIPMENT") es in
  ner_equipment (fold_left record_entity es r) = ner_equipment r ++ mentions
  ∧ ner_equipment_id (fold_left record_entity es r)
    = ner_equipment_id r ++ ids_of mentions.
Proof.
  revert r. induction es as [|ent es IH]; intros r; simpl.
  - by rewrite !app_nil_r.
  - destruct (IH (record_entity r ent)) as [-> ->].
    destruct (record_entity_fields r ent) as [-> ->].
    change (ent :: es) with ([ent] ++ es).
    by rewrite filter_app, fmap_app, ids_of_app, !app_assoc.
Qed.

Lemma fold_patterns_fields ts r :
  let mentions :=
    tok_text <$> filter (λ token,
      in_list (pos_ token) ["NOUN"; "PROPN"] && has_digit (tok_text token) = true)
      ts in
  ner_equipment (fold_left record_pattern ts r) = ner_equipment r ++ mentions
  ∧ ner_equipment_id (fold_left record_pattern ts r)
    = ner_equipment_id r ++ ids_of mentions.
Proof.
  revert r. induction ts as [|token ts IH]; intros r; simpl.
  - by rewrite !app_nil_r.
  - destruct (IH (record_pattern r token)) as [-> ->].
    rewrite (filter_cons _ token ts). unfold record_pattern.
    destruct (in_list (pos_ token) ["NOUN"; "PROPN"] && has_digit (tok_text token))
      eqn:Hp.
    + rewrite decide_True by done.
      destruct (append_equipment_fields (tok_text token) r) as [-> ->].
      by rewrite <- !app_assoc, <- ids_of_app.
    + by rewrite decide_False by done.
Qed.

Lemma collect_ner_equipment doc :
  ner_equipment (collect_ner doc) = equipment_mentions doc
  ∧ ner_equipment_id (collect_ner doc) = ids_of (equipment_mentions doc).
Proof.
  unfold collect_ner, equipment_mentions.
  destruct (fold_entities_fields (ents doc) empty_ner) as [He Hi].
  simpl in He, Hi.
  destruct (ent_text <$> filter (λ ent, label_ ent = "EQUIPMENT") (ents doc))
    as [|m ms] eqn:Hm.
  - rewrite He.
    destruct (fold_patterns_fields (tokens doc)
                (fold_left record_entity (ents doc) empty_ner)) as [-> ->].
    by rewrite He, Hi.
  - rewrite He. by rewrite He, Hi.
Qed.

Lemma ids_of_no_digit mentions :
  Forall (λ m, has_digit m = false) mentions → ids_of mentions = [].
Proof.
  induction 1 as [|m ms Hm _ IH]; [done|].
  change (m :: ms) with ([m] ++ ms). rewrite ids_of_app, IH, ids_of_singleton.
  by rewrite (digits_of_no_digit _ Hm).
Qed.

Lemma collect_ner_tagged doc :
  let tagged := ent_text <$> filter (λ ent, label_ ent = "EQUIPMENT") (ents doc) in
  tagged ≠ [] → ner_equipment (collect_ner doc) = tagged.
Proof.
  intros tagged Htagged. destruct (collect_ner_equipment doc) as [-> _].
  unfold equipment_mentions. fold tagged. by destruct tagged.
Qed.

(** Every mention is the text of an entity or of a token. *)
Lemma equipment_mentions_no_digit doc :
  Forall (λ ent, has_digit (ent_text ent) = false) (ents doc) →
  Forall (λ token, has_digit (tok_text token) = false) (tokens doc) →
  Forall (λ m, has_digit m = false) (equipment_mentions doc).
Proof.
  intros Hents Htokens. unfold equipment_mentions.
  rewrite Forall_forall in Hents. rewrite Forall_forall in Htokens.
  assert (Forall (λ m, has_digit m = false)
            (ent_text <$> filter (λ ent, label_ ent = "EQUIPMENT") (ents doc)))
    as Htagged.
  { apply Forall_fmap, Forall_forall.
    intros ent [_ Hin]%list_elem_of_filter. by apply Hents. }
  destruct (ent_text <$> filter _ (ents doc)) as [|m ms]; [|done].
  apply Forall_fmap, Forall_forall.
  intros token [_ Hin]%list_elem_of_filter. by apply Htokens.
Qed.

(** The first entity that qualifies decides [_get_equipment_id]. *)
Lemma get_equipment_id_first doc before ent after :
  ents doc = before ++ ent :: after →
  Forall (λ e, (label_ e ∉ ["ORG"; "PER"]) ∧ has_digit (ent_text e) = false) before →
  (label_ ent ∈ ["ORG"; "PER"] ∨ has_digit (ent_text ent) = true) →
  EquipmentFailureAnalyzer._get_equipment_id doc = ent_text ent.
Proof.
  intros Hents Hbefore Hent. unfold EquipmentFailureAnalyzer._get_equipment_id.
  rewrite Hents. clear Hents.
  induction Hbefore as [|e before [Hl Hd] _ IH]; cbn [List.find app].
  - assert (in_list (label_ ent) ["ORG"; "PER"] || has_digit (ent_text ent) = true)
      as ->; [|done].
    apply orb_true_iff. destruct Hent as [Hl|Hd]; [left|by right].
    by apply bool_decide_eq_true.
  - assert (in_list (label_ e) ["ORG"; "PER"] || has_digit (ent_text e) = false)
      as ->; [|done].
    apply orb_false_iff. split; [|done]. by apply bool_decide_eq_false.
Qed.

Lemma get_equipment_id_none doc :
  Forall (λ e, (label_ e ∉ ["ORG"; "PER"]) ∧ has_digit (ent_text e) = false)
    (ents doc) →
  EquipmentFailureAnalyzer._get_equipment_id doc = "Не указан".
Proof.
  intros Hall. unfold EquipmentFailureAnalyzer._get_equipment_id.
  destruct (List.find _ (ents doc)) as [ent|] eqn:Hfind; [|done].
  apply find_some in Hfind as [Hin Hq].
  rewrite Forall_forall in Hall. apply list_elem_of_In, Hall in Hin as [Hl Hd].
  rewrite Hd, orb_false_r in Hq. by apply bool_decide_eq_true in Hq.
Qed.

(** C8, as the code has it.  In [analyze_text] the identifiers are a
    list, the non-empty digit strings of the equipment mentions of the
    result; when the tagger labelled entities EQUIPMENT the mentions are
    those entities, in order; the list is empty, with no sentinel, when no
    mention has a digit, and so when no entity and no token has one.  In [EquipmentFailureAnalyzer] the identifier is
    the whole text of the first entity that is labelled ORG or PER or has a
    digit, the entities before it that are neither being passed over, and
    "Не указан" when there is no such entity. *)
Theorem equipment_id_from_mentions :
  (∀ self text now r,
     analyze_text self text now = Ok r →
     ∃ doc, nlp self text = Ok doc ∧
       let tagged :=
         ent_text <$> filter (λ ent, label_ ent = "EQUIPMENT") (ents doc) in
       (tagged ≠ [] →
        ner_equipment (ner r) = tagged ∧ ner_equipment_id (ner r) = ids_of tagged)
       ∧ ner_equipment_id (ner r) = ids_of (ner_equipment (ner r))
       ∧ (Forall (λ m, has_digit m = false) (ner_equipment (ner r)) →
          ner_equipment_id (ner r) = [])
       ∧ (Forall (λ ent, has_digit (ent_text ent) = false) (ents doc) →
          Forall (λ token, has_digit (tok_text token) = false) (tokens doc) →
          ner_equipment_id (ner r) = []))
  ∧ (∀ doc,
       (∀ before ent after,
          ents doc = before ++ ent :: after →
          Forall (λ e, (label_ e ∉ ["ORG"; "PER"]) ∧ has_digit (ent_text e) = false)
            before →
          (label_ ent ∈ ["ORG"; "PER"] ∨ has_digit (ent_text ent) = true) →
          EquipmentFailureAnalyzer._get_equipment_id doc = ent_text ent)
       ∧ (Forall (λ e, (label_ e ∉ ["ORG"; "PER"]) ∧ has_digit (ent_text e) = false)
            (ents doc) →
          EquipmentFailureAnalyzer._get_equipment_id doc = "Не указан")).
Proof.
  split.
  - intros self text now r (doc & Hdoc & Hr)%analyze_text_doc.
    exists doc. split; [done|].
    apply analyze_doc_success in Hr as [_ ->].
    destruct (collect_ner_equipment doc) as [Hmentions Hid].
    assert (ner_equipment_id (collect_ner doc)
            = ids_of (ner_equipment (collect_ner doc))) as Hids
      by (by rewrite Hmentions).
    split; [|split; [done|split]].
    + intros Htagged. rewrite Hids.
      by rewrite (collect_ner_tagged doc Htagged).
    + intros Hno. rewrite Hids. by apply ids_of_no_digit.
    + intros Hents Htokens. rewrite Hid. apply ids_of_no_digit.
      by apply equipment_mentions_no_digit.
  - intros doc. split.
    + apply get_equipment_id_first.
    + apply get_equipment_id_none.
Qed.

End equipment_id_facts.

(** ** Sentinels and exceptions in [analyze_text] *)

Section sentinel_facts.
Context `{PyStr} (self : IIoTAnalyzer).

#[local] Arguments _match_term : simpl never.
#[local] Arguments _verb_to_symptom_noun : simpl never.

Lemma for_each_returns {A S} (xs : list A) (body : A → S → result S) (s : S) :
  (∀ x s', x ∈ xs → returns (body x s')) → returns (for_each xs body s).
Proof.
  revert s. induction xs as [|x xs IH]; intros s Hbody; simpl; [by eexists|].
  destruct (Hbody x s) as [s' ->]; [by left|]. simpl.
  apply IH. intros y s'' Hy. apply Hbody. by right.
Qed.

Lemma result_bind_ok {A B} (v : A) (f : A → result B) : Ok v ≫= f = f v.
Proof. reflexivity. Qed.

Lemma match_term_returns text dict : returns (_match_term self text dict).
Proof.
  destruct text as [text|]; [|by eexists].
  rewrite match_term_some_eq. apply match_items_returns.
Qed.

Lemma with_sentinel_nonempty (found : gset string) sentinel :
  (if is_empty_set found then {[sentinel]} else found) ≠ (∅ : gset string).
Proof.
  unfold is_empty_set. case_bool_decide as Hempty; [|done].
  apply non_empty_singleton_L.
Qed.

Lemma get_components_from_dict_nonempty doc :
  ∃ found, _get_components_from_dict self doc = Ok found ∧ found ≠ ∅.
Proof.
  unfold _get_components_from_dict.
  destruct (for_each_returns (tokens doc)
    (λ token found,
       component ← _match_term self (Some (tok_text token)) (components self);
       Ok (add_if_truthy component found)) ∅) as [found ->].
  { intros token s _. destruct (match_term_returns (Some (tok_text token))
      (components self)) as [c ->]. by eexists. }
  simpl. eexists. split; [done|]. apply with_sentinel_nonempty.
Qed.

Lemma get_symptoms_from_dict_nonempty doc :
  ∃ found, _get_symptoms_from_dict self doc = Ok found ∧ found ≠ ∅.
Proof.
  unfold _get_symptoms_from_dict.
  destruct (for_each_returns (tokens doc)
    (λ token found,
       symptom ← _match_term self (Some (tok_text token)) (symptoms self);
       Ok (add_if_truthy symptom found)) ∅) as [found ->].
  { intros token s _. destruct (match_term_returns (Some (tok_text token))
      (symptoms self)) as [c ->]. by eexists. }
  simpl. eexists. split; [done|]. apply with_sentinel_nonempty.
Qed.

(** [_get_components] and [_get_symptoms] return for every document, and
    what they return is never empty. *)
Lemma get_components_nonempty doc :
  ∃ found, _get_components self doc = Ok found ∧ found ≠ ∅.
Proof.
  unfold _get_components.
  destruct (for_each_returns (tokens doc)
    (λ token found,
       component ← _match_term self (_convert_verb_to_noun self (tok_text token))
                     (components self);
       Ok (add_if_truthy component found)) ∅) as [found ->].
  { intros token s _. destruct (match_term_returns
      (_convert_verb_to_noun self (tok_text token)) (components self)) as [c ->].
    by eexists. }
  simpl. eexists. split; [done|]. apply with_sentinel_nonempty.
Qed.

Lemma get_symptoms_nonempty doc :
  ∃ found, _get_symptoms self doc = Ok found ∧ found ≠ ∅.
Proof.
  unfold _get_symptoms.
  match goal with |- context [for_each (tokens doc) ?body ?s] =>
    destruct (for_each_returns (tokens doc) body s) as [s2 ->] end.
  { intros token s _.
    destruct (match_term_returns (Some (tok_text token)) (symptoms self)) as [c ->].
    rewrite result_bind_ok.
    destruct (match_term_returns (Some (lemma_ token)) (symptoms self)) as [c' ->].
    by eexists. }
  simpl.
  match goal with |- context [for_each (tokens doc) ?body ?s] =>
    destruct (for_each_returns (tokens doc) body s) as [s3 ->] end.
  { intros token s _. destruct (in_list (pos_ token) _); [|by eexists].
    destruct (truthy_opt _); [|by eexists].
    destruct (match_term_returns (_convert_verb_to_noun self (tok_text token))
                (symptoms self)) as [c ->]. by eexists. }
  simpl.
  match goal with |- context [for_each (adjacent (tokens doc)) ?body ?s] =>
    destruct (for_each_returns (adjacent (tokens doc)) body s) as [s4 ->] end.
  { intros pair s _.
    destruct (match_term_returns
      (Some (tok_text pair.1 +:+ " " +:+ tok_text pair.2)) (symptoms self))
      as [c ->]. by eexists. }
  simpl. eexists. split; [done|]. apply with_sentinel_nonempty.
Qed.

Lemma first_dictionary_type_returns ts : returns (first_dictionary_type self ts).
Proof.
  induction ts as [|token ts IH]; simpl; [by eexists|].
  destruct (match_term_returns (Some (tok_text token)) (equipment_types self))
    as [eq_type ->]. simpl.
  destruct (truthy_opt eq_type); [by eexists|done].
Qed.

Lemma determine_equipment_type_returns doc found_equipment :
  returns (_determine_equipment_type self doc found_equipment).
Proof.
  unfold _determine_equipment_type.
  destruct found_equipment as [|first others].
  - destruct (first_dictionary_type_returns (tokens doc)) as [eq_type ->]. simpl.
    destruct eq_type; [by eexists|]. destruct (first_context_noun doc); by eexists.
  - destruct (first_named_type _); by eexists.
Qed.

(** Once the verbs of the text have been looked up, nothing in
    [analyze_doc] raises, and the sets of the result are not empty. *)
Lemma analyze_doc_after_verbs doc text now :
  match for_each (tokens doc) (λ token acc,
          if String.eqb (pos_ token) "VERB" then
            noun_form ← _verb_to_symptom_noun self (tok_text token);
            Ok (add_if_truthy noun_form acc)
          else Ok acc)
          (list_to_set (ner_symptoms (collect_ner doc)) : gset string) with
  | Ok _ =>
      ∃ r, analyze_doc self doc text now = Ok r
           ∧ fa_components (failure_analysis r) ≠ ∅
           ∧ fa_symptoms (failure_analysis r) ≠ ∅
  | Raise e => analyze_doc self doc text now = Raise e
  end.
Proof.
  unfold analyze_doc.
  destruct (for_each (tokens doc) _ _) as [syms|e]; cbv beta iota; [|done].
  rewrite result_bind_ok.
  destruct (determine_equipment_type_returns doc (ner_equipment (collect_ner doc)))
    as [et ->]. rewrite result_bind_ok.
  assert (∃ cs, match ner_components (collect_ner doc) with
                | [] => _get_components_from_dict self doc
                | c :: l => Ok (list_to_set (c :: l))
                end = Ok cs ∧ cs ≠ ∅) as (cs & -> & Hcs).
  { destruct (ner_components (collect_ner doc)) as [|c l].
    - apply get_components_from_dict_nonempty.
    - eexists. split; [done|]. set_solver. }
  rewrite result_bind_ok.
  assert (∃ ss, (if is_empty_set syms then _get_symptoms_from_dict self doc
                 else Ok syms) = Ok ss ∧ ss ≠ ∅) as (ss & -> & Hss).
  { unfold is_empty_set. case_bool_decide as Hempty.
    - apply get_symptoms_from_dict_nonempty.
    - by eexists. }
  rewrite result_bind_ok. eexists. split; [done|]. done.
Qed.

(** Once the pipeline has returned a document, [analyze_text] returns
    when no token is tagged as a verb, or when the morphological analyzer
    gives a parse for every verb; the sets of the result are never empty. *)
Lemma analyze_text_returns text now doc :
  nlp self text = Ok doc →
  (∀ token, token ∈ tokens doc → pos_ token = "VERB" →
     ∃ m p ps, morph self = Some m ∧ parse m (tok_text token) = Ok (p :: ps)) →
  ∃ r, analyze_text self text now = Ok r
       ∧ fa_components (failure_analysis r) ≠ ∅
       ∧ fa_symptoms (failure_analysis r) ≠ ∅.
Proof.
  intros Hnlp Hverbs. rewrite (analyze_text_on_doc _ _ _ _ Hnlp).
  pose proof (analyze_doc_after_verbs doc text now) as Hdoc.
  match type of Hdoc with context [for_each ?xs ?body ?s] =>
    destruct (for_each_returns xs body s) as [syms Hsyms] end.
  { intros token s Hin. destruct (String.eqb_spec (pos_ token) "VERB") as [Hv|_];
      [|by eexists].
    destruct (Hverbs token Hin Hv) as (m & p & ps & Hm & Hp).
    unfold _verb_to_symptom_noun, morph_parse. rewrite Hm, Hp. simpl. by eexists. }
  by rewrite Hsyms in Hdoc.
Qed.

Lemma verb_loop_raises ts (acc : gset string) token :
  morph self = None → token ∈ ts → pos_ token = "VERB" →
  for_each ts (λ token acc,
    if String.eqb (pos_ token) "VERB" then
      noun_form ← _verb_to_symptom_noun self (tok_text token);
      Ok (add_if_truthy noun_form acc)
    else Ok acc) acc = Raise AttributeError.
Proof.
  intros Hmorph Hin Hverb. revert acc.
  induction ts as [|t ts IH]; intros acc; [by apply not_elem_of_nil in Hin|].
  cbn [for_each].
  destruct (String.eqb_spec (pos_ t) "VERB") as [Hv|Hnv].
  - unfold _verb_to_symptom_noun, morph_parse. by rewrite Hmorph.
  - rewrite result_bind_ok. apply IH.
    apply elem_of_cons in Hin as [->|Hin]; done.
Qed.

(** Without a morphological analyzer, a token tagged as a verb makes
    [analyze_text] raise: [_verb_to_symptom_noun] calls [self.morph.parse]
    with no guard. *)
Lemma analyze_text_raises_on_verb text now doc token :
  nlp self text = Ok doc →
  morph self = None →
  token ∈ tokens doc → pos_ token = "VERB" →
  analyze_text self text now = Raise AttributeError.
Proof.
  intros Hnlp Hmorph Hin Hverb. rewrite (analyze_text_on_doc _ _ _ _ Hnlp).
  pose proof (analyze_doc_after_verbs doc text now) as Hdoc.
  by rewrite (verb_loop_raises _ _ token Hmorph Hin Hverb) in Hdoc.
Qed.

(** The empty text, annotated with no token and no entity, gives the
    sentinel in every field. *)
Lemma analyze_doc_empty text now sentences :
  let doc := {| doc_text := text; tokens := []; ents := []; sents := sentences |} in
  ∃ r, analyze_doc self doc text now = Ok r
       ∧ equipment_type (failure_analysis r) = "Неизвестное оборудование"
       ∧ fa_components (failure_analysis r) = {["Не указаны"]}
       ∧ fa_symptoms (failure_analysis r) = {["Симптомы не описаны"]}
       ∧ ner_equipment_id (ner r) = []
       ∧ success r = false.
Proof. intros doc. eexists. split; [reflexivity|]. done. Qed.

End sentinel_facts.

(** ** Training *)

Section training_facts.
Context {Model Example Optimizer Loss : Type}.
Context `{!Spacy Model Example Optimizer Loss}.

Lemma shuffle_nil : shuffle ([] : list Example) = [].
Proof. apply Permutation_nil_r. apply shuffle_perm. Qed.

(** With nothing to train on, the first iteration raises [KeyError]:
    no batch, so [update] never runs and [losses] has no key ['ner']. *)
Lemma iteration_without_training itn eval_examples optimizer (m : Model) :
  (∃ e, iteration itn [] eval_examples optimizer m = (m, Raise e)).
Proof.
  unfold iteration. simpl.
  destruct (for_each eval_examples _ _) as [[correct total]|e]; [|by eexists].
  rewrite lookup_empty. by eexists.
Qed.

(** A failed training never writes the model directory. *)
Lemma train_failure_keeps_disk train_data n_iter (p p' : Pipeline) e :
  train_ner_model train_data n_iter p = (p', Raise e) → on_disk p' = on_disk p.
Proof.
  unfold train_ner_model.
  destruct (for_each train_data _ _) as [examples|e1]; [|by intros [= <- _]].
  destruct (begin_training _) as [[m2 optimizer]|e2]; [|by intros [= <- _]].
  destruct (iterations _ _ _ _ _ _ _) as [m3 [out|e3]]; [done|by intros [= <- _]].
Qed.

(** C9 at the empty corpus: [train_ner_model] raises.  When
    [begin_training] succeeds the exception is the [KeyError] of
    [losses['ner']], and the in-memory model is the one [begin_training]
    re-initialised; the model directory is untouched. *)
Theorem train_empty_corpus_raises (n : nat) (p : Pipeline) :
  train_ner_model [] (S n) p =
  match begin_training (in_memory p) with
  | Ok (m, _) => ({| in_memory := m; on_disk := on_disk p |}, Raise KeyError)
  | Raise e => ({| in_memory := in_memory p; on_disk := on_disk p |}, Raise e)
  end.
Proof.
  unfold train_ner_model, corpus_labels. simpl.
  rewrite elements_empty. simpl. rewrite shuffle_nil. simpl.
  destruct (begin_training (in_memory p)) as [[m optimizer]|e]; [|done].
  unfold iteration. simpl. by rewrite lookup_empty.
Qed.

End training_facts.

(** ** Idempotence of the fallback *)

Section idempotence_facts.
Context `{PyStr} (self : IIoTAnalyzer).

(** Without a morphological analyzer normalization is lowercasing, and
    is idempotent wherever [str.lower] is. *)
Lemma normalize_idempotent_without_morph word :
  morph self = None → lower (lower word) = lower word →
  _normalize self (normal self word) = _normalize self word.
Proof.
  intros Hmorph Hlower. unfold normal.
  assert (∀ w, _normalize self w = Ok (if truthy w then lower w else EmptyString))
    as Hn.
  { intros w. apply normalize_fallback. unfold analysis_fails. by rewrite Hmorph. }
  rewrite (Hn word). simpl. rewrite Hn.
  destruct (truthy word); [|done].
  destruct (truthy (lower word)) eqn:Hl; [by rewrite Hlower|].
  by destruct (lower word).
Qed.

End idempotence_facts.

(** * The analyzer on concrete reports *)

Section examples.
#[local] Existing Instance utf8_str.
#[local] Existing Instance toy_spacy.

(** Witness of C4: without an analyzer "Станка" is lowercased. *)
Lemma normalize_never_raises_witness :
  _normalize plain_analyzer "Станка" = Ok "станка".
Proof.
  destruct (normalize_never_raises plain_analyzer "Станка") as (_ & Hfall & _).
  apply Hfall; [exact I|reflexivity].
Defined.

(** Witness of C6: "Станка" reaches the key "станок" through the variant
    "станка", the key itself being different from the normalized input. *)
Lemma match_term_first_match_witness :
  _match_term plain_analyzer (Some "Станка") equipment_types_dict
  = Ok (Some "станок").
Proof.
  destruct (match_term_first_match plain_analyzer "Станка" equipment_types_dict)
    as [Hsome _].
  apply Hsome.
  eexists [], _, _.
  split; [reflexivity|]. split.
  - right. exists "станка". split; [|reflexivity].
    apply elem_of_cons. right. apply elem_of_cons. by left.
  - intros item Hin. by apply not_elem_of_nil in Hin.
Defined.

(** Witness of C3: high before low, low alone, neither, for both
    analyzers; "плановый" is a low-urgency word of [istok_nlp.py] only. *)
Lemma detect_urgency_priority_witness :
  _detect_urgency (blank_nlp "Срочно нужен плановый ремонт") = "Высокая"
  ∧ EquipmentFailureAnalyzer._detect_urgency
      (blank_nlp "Срочно нужен плановый ремонт") = "Высокая"
  ∧ _detect_urgency (blank_nlp "Плановый осмотр пресса") = "Низкая"
  ∧ _detect_urgency (blank_nlp "Шпиндель станка 2 вибрирует") = "Средняя"
  ∧ EquipmentFailureAnalyzer._detect_urgency
      (blank_nlp "Пресс остановился, незначительный шум") = "Высокая"
  ∧ EquipmentFailureAnalyzer._detect_urgency
      (blank_nlp "Незначительный шум в прессе") = "Низкая"
  ∧ EquipmentFailureAnalyzer._detect_urgency
      (blank_nlp "Плановый осмотр пресса") = "Средняя".
Proof.
  destruct (detect_urgency_priority (blank_nlp "Срочно нужен плановый ремонт"))
    as (_ & _ & _ & _ & _ & _ & Hboth).
  destruct (detect_urgency_priority (blank_nlp "Плановый осмотр пресса"))
    as (_ & Hlow & _ & _ & _ & Hsimple_medium & _).
  destruct (detect_urgency_priority (blank_nlp "Шпиндель станка 2 вибрирует"))
    as (_ & _ & Hmedium & _).
  destruct (detect_urgency_priority
              (blank_nlp "Пресс остановился, незначительный шум"))
    as (_ & _ & _ & Hsimple_high & _).
  destruct (detect_urgency_priority (blank_nlp "Незначительный шум в прессе"))
    as (_ & _ & _ & _ & Hsimple_low & _).
  split; [apply Hboth; reflexivity|]. split; [apply Hboth; reflexivity|].
  split; [apply Hlow; reflexivity|]. split; [apply Hmedium; reflexivity|].
  split; [apply Hsimple_high; reflexivity|].
  split; [apply Hsimple_low; reflexivity|apply Hsimple_medium; reflexivity].
Defined.

(** Counterexample to C1: the dictionary pass finds the component
    "шпиндель", so that a category produced a result, and [success] is
    false. *)
Lemma success_misses_dictionary_match :
  ∃ r doc, nlp plain_analyzer "шпиндель" = Ok doc
       ∧ analyze_text plain_analyzer "шпиндель" "01.01.2025 10:00" = Ok r
       ∧ fa_components (failure_analysis r) = {["шпиндель"]}
       ∧ success_as_specified plain_analyzer doc = true
       ∧ success r = false.
Proof. eexists _, _. split; [reflexivity|]. split; [reflexivity|]. by vm_compute. Qed.

(** Witness of C1: the tagger found "станок 5", [success] is true. *)
Lemma success_iff_ner_found_witness :
  match analyze_text toy_analyzer "станок 5" "01.01.2025 10:00" with
  | Ok r =>
      ∃ doc, nlp toy_analyzer "станок 5" = Ok doc ∧
      (success r = true ↔
       (∃ ent, ent ∈ ents doc ∧ label_ ent ∈ recorded_labels)
       ∨ (∃ token, token ∈ tokens doc
            ∧ pos_ token ∈ ["NOUN"; "PROPN"] ∧ has_digit (tok_text token) = true))
  | Raise _ => False
  end.
Proof.
  destruct (analyze_text toy_analyzer "станок 5" "01.01.2025 10:00")
    as [r|e] eqn:Hr.
  - exact (success_iff_ner_found toy_analyzer _ _ r Hr).
  - vm_compute in Hr. discriminate Hr.
Defined.

(** C2 at a failing input: the part-of-speech tagger marks "вибрирует"
    as a verb, the morphological analyzer is [None], and [analyze_text]
    raises instead of returning. *)
Theorem analyze_text_raises_without_morph :
  analyze_text tagging_analyzer "станок вибрирует" "01.01.2025 10:00"
  = Raise AttributeError.
Proof. by vm_compute. Qed.

(** Counterexample to C8: for "станок" [analyze_text] gives the empty
    list of identifiers, not a sentinel; for "станок 5"
    [EquipmentFailureAnalyzer] gives the sentinel when nothing is tagged
    and the whole entity text when the span is tagged, never "5". *)
Lemma equipment_id_not_as_specified :
  (∃ r, analyze_text plain_analyzer "станок" "01.01.2025 10:00" = Ok r
        ∧ ner_equipment_id (ner r) = [])
  ∧ EquipmentFailureAnalyzer._get_equipment_id (blank_nlp "станок 5") = "Не указан"
  ∧ EquipmentFailureAnalyzer._get_equipment_id (doc_machine_5 "ORG") = "станок 5".
Proof.
  split; [eexists; split; reflexivity|].
  by vm_compute.
Qed.

(** Witness of C8: the span "станок 5" tagged EQUIPMENT gives ["5"];
    in [EquipmentFailureAnalyzer] the entity "Сименс", labelled ORG, is the
    identifier, the entity "цех" before it being passed over. *)
Lemma equipment_id_from_mentions_witness :
  match analyze_text toy_analyzer "станок 5" "01.01.2025 10:00" with
  | Ok r => ner_equipment_id (ner r) = ["5"]
  | Raise _ => False
  end
  ∧ EquipmentFailureAnalyzer._get_equipment_id
      {| doc_text := "цех, пресс Сименс"; tokens := []; sents := [];
         ents := [{| ent_text := "цех"; label_ := "LOC" |};
                  {| ent_text := "Сименс"; label_ := "ORG" |}] |}
    = "Сименс".
Proof.
  destruct equipment_id_from_mentions as [Histok Hsimple]. split.
  - destruct (analyze_text toy_analyzer "станок 5" "01.01.2025 10:00")
      as [r|e] eqn:Hr.
    + destruct (Histok toy_analyzer _ _ r Hr) as (doc & [= <-] & Htagged & _).
      destruct Htagged as [_ Hid]; [discriminate|].
      rewrite Hid. reflexivity.
    + vm_compute in Hr. discriminate Hr.
  - apply (proj1 (Hsimple _) [{| ent_text := "цех"; label_ := "LOC" |}]
             {| ent_text := "Сименс"; label_ := "ORG" |} []); [reflexivity| |].
    + constructor; [|constructor]. split; [|reflexivity].
      intros Hin. apply list_elem_of_In in Hin. simpl in Hin.
      destruct Hin as [Heq|[Heq|[]]]; discriminate Heq.
    + left. apply list_elem_of_In. simpl. tauto.
Defined.

(** [train_ner_model] on the empty corpus with the default 150
    iterations: [KeyError], nothing written. *)
Example train_empty_corpus_run :
  train_ner_model [] 150
    {| in_memory := (["EQUIPMENT"], 7); on_disk := None |}
  = ({| in_memory := (["EQUIPMENT"], 0); on_disk := None |}, Raise KeyError).
Proof. reflexivity. Qed.

(** Without a morphological analyzer every word of the four dictionaries
    is a fixed point of normalization after one pass. *)
Example dictionary_words_idempotent_without_morph :
  forallb (λ w,
    String.eqb (normal plain_analyzer (normal plain_analyzer w))
               (normal plain_analyzer w))
    (dictionary_words equipment_types_dict ++ dictionary_words components_dict
     ++ dictionary_words symptoms_dict ++ dictionary_words actions_dict)
  = true.
Proof. by vm_compute. Qed.

(** The end-to-end scenario of the spec, with the toy analyzer. *)
Example spindle_vibrates :
  map_result (λ r, (equipment_type (failure_analysis r),
                    elements (fa_symptoms (failure_analysis r)),
                    urgency (failure_analysis r)))
    (analyze_text toy_analyzer "станок вибрирует" "01.01.2025 10:00")
  = Ok ("Станок", ["вибрация"], "Средняя").
Proof. by vm_compute. Qed.

End examples.

(** * More properties of the code *)

(** ** Substrings *)

Lemma append_nil (b : string) : EmptyString +:+ b = b.
Proof. reflexivity. Qed.

Lemma append_cons x (a b : string) : String x a +:+ b = String x (a +:+ b).
Proof. reflexivity. Qed.

Lemma append_assoc (a b c : string) : (a +:+ b) +:+ c = a +:+ (b +:+ c).
Proof.
  induction a as [|x a IH]; [done|]. by rewrite !append_cons, IH.
Qed.

Lemma prefix_app needle haystack :
  String.prefix needle haystack = true ↔ ∃ post, haystack = needle +:+ post.
Proof.
  revert needle. induction haystack as [|d haystack IH]; intros [|c needle]; simpl.
  - split; [by exists EmptyString|done].
  - split; [done|]. intros [post Hpost]. by rewrite append_cons in Hpost.
  - split; [by exists (String d haystack)|done].
  - destruct (ascii_dec c d) as [->|Hne].
    + rewrite IH. split; intros [post Hpost]; exists post.
      * by rewrite append_cons, <- Hpost.
      * rewrite append_cons in Hpost. congruence.
    + split; [done|]. intros [post Hpost]. rewrite append_cons in Hpost.
      congruence.
Qed.

Lemma is_in_cons needle c haystack :
  is_in needle (String c haystack) =
  String.prefix needle (String c haystack) || is_in needle haystack.
Proof. reflexivity. Qed.

Lemma is_in_empty needle :
  is_in needle EmptyString = String.prefix needle EmptyString.
Proof. apply orb_false_r. Qed.

Lemma is_in_spec needle haystack :
  is_in needle haystack = true ↔
  ∃ pre post, haystack = pre +:+ needle +:+ post.
Proof.
  induction haystack as [|c haystack IH].
  - rewrite is_in_empty, prefix_app. split.
    + intros [post Hpost]. by exists EmptyString, post.
    + intros (pre & post & Heq). destruct pre; [by exists post|done].
  - rewrite is_in_cons, orb_true_iff, prefix_app, IH. split.
    + intros [[post Hpost]|(pre & post & ->)].
      * by exists EmptyString, post.
      * by exists (String c pre), post.
    + intros (pre & post & Heq). destruct pre as [|d pre].
      * left. by exists post.
      * right. rewrite append_cons in Heq. injection Heq as _ ->.
        by exists pre, post.
Qed.

Lemma is_in_trans a b c :
  is_in a b = true → is_in b c = true → is_in a c = true.
Proof.
  rewrite !is_in_spec. intros (p1 & q1 & ->) (p2 & q2 & ->).
  exists (p2 +:+ p1), (q1 +:+ q2). by rewrite !append_assoc.
Qed.

(** ** More on the matcher and the normalizer *)

Section matcher_more.
Context `{PyStr} (self : IIoTAnalyzer).

Lemma match_items_hit normalized term variants rest :
  entry_matches self normalized (term, variants) →
  match_items self normalized ((term, variants) :: rest) = Ok (Some term).
Proof.
  intros Hm%entry_matches_decide. simpl in *. rewrite any_variant_value. simpl.
  destruct (String.eqb normalized term); [done|]. simpl in Hm. by rewrite Hm.
Qed.

(** X1: a variant listed under an entry is resolved by that entry or an
    earlier one, never by a later entry that lists it too, whatever the
    morphological analyzer does. *)
Theorem match_term_earliest_entry_wins text dict before k1 vs1 after variant :
  dict = before ++ (k1, vs1) :: after →
  variant ∈ vs1 →
  lower text = lower variant →
  ∃ k, _match_term self (Some text) dict = Ok (Some k)
       ∧ k ∈ (before ++ [(k1, vs1)]).*1.
Proof.
  intros -> Hin Hlow. rewrite match_term_some_eq, Hlow.
  assert (entry_matches self (normal self (lower variant)) (k1, vs1)) as Hm.
  { right. by exists variant. }
  induction before as [|[k0 vs0] before IH]; simpl.
  - exists k1. split; [by apply match_items_hit|]. by left.
  - rewrite any_variant_value. simpl.
    destruct (String.eqb _ k0); [exists k0; split; [done|by left]|].
    destruct (existsb _ vs0); [exists k0; split; [done|by left]|].
    destruct IH as (k & Hk & Hkin). exists k. split; [done|]. by right.
Qed.

(** X2: [_convert_verb_to_noun] gives [None] only for the empty word or
    an empty list of parses; what it gives is the word itself, untouched,
    or a noun of the first parse's lexeme; and the word itself whenever
    the analyzer is missing or raises. *)
Theorem convert_verb_to_noun_cases word :
  (_convert_verb_to_noun self word = None ↔
   word = EmptyString ∨ ∃ m, morph self = Some m ∧ parse m word = Ok [])
  ∧ (∀ w, _convert_verb_to_noun self word = Some w →
       w = word ∨
       ∃ m p ps form, morph self = Some m ∧ parse m word = Ok (p :: ps)
         ∧ form ∈ lexeme p ∧ "NOUN" ∈ form_tag form ∧ w = form_word form)
  ∧ (word ≠ EmptyString →
     morph self = None ∨ (∃ m e, morph self = Some m ∧ parse m word = Raise e) →
     _convert_verb_to_noun self word = Some word).
Proof.
  assert (∀ p w, first_noun p = Some w →
            ∃ form, form ∈ lexeme p ∧ "NOUN" ∈ form_tag form ∧ w = form_word form)
    as Hnoun.
  { unfold first_noun. intros p w Hw.
    destruct (List.find _ (lexeme p)) as [form|] eqn:Hfind; [|done].
    injection Hw as <-. apply find_some in Hfind as [Hin Htag].
    exists form. split; [by apply list_elem_of_In|]. split; [|done].
    by apply bool_decide_eq_true in Htag. }
  unfold _convert_verb_to_noun, morph_parse.
  destruct word as [|c word']; [simpl; split; [|split]; [naive_solver|done|done]|].
  set (word := String c word'). simpl truthy. cbn [negb].
  destruct (morph self) as [m|] eqn:Hmorph; simpl.
  2:{ split; [|split]; [|naive_solver|done].
      split; [done|]. intros [?|(m & ? & _)]; done. }
  destruct (parse m word) as [[|p ps]|e] eqn:Hparse; simpl.
  - split; [|split]; [|done|].
    + split; [|done]. intros _. right. by exists m.
    + intros _ [?|(m' & e & [= <-] & ?)]; [done|congruence].
  - split; [|split].
    + split.
      * destruct (if in_list "VERB" (tag p) || in_list "PRTS" (tag p)
                  then first_noun p else None); [done|].
        destruct (if in_list "ADJF" (tag p) || in_list "ADJS" (tag p)
                  then first_noun p else None); done.
      * intros [?|(m' & [= <-] & ?)]; [done|congruence].
    + intros w.
      destruct (if in_list "VERB" (tag p) || in_list "PRTS" (tag p)
                then first_noun p else None) as [w1|] eqn:H1.
      { intros [= <-]. right. destruct (_ || _); [|done].
        destruct (Hnoun p w1 H1) as (form & ? & ? & ?).
        by exists m, p, ps, form. }
      destruct (if in_list "ADJF" (tag p) || in_list "ADJS" (tag p)
                then first_noun p else None) as [w2|] eqn:H2.
      { intros [= <-]. right. destruct (in_list "ADJF" _ || _); [|done].
        destruct (Hnoun p w2 H2) as (form & ? & ? & ?).
        by exists m, p, ps, form. }
      intros [= <-]. by left.
    + intros _ [?|(m' & e & [= <-] & ?)]; [done|congruence].
  - split; [|split]; [|naive_solver|done].
    split; [done|]. intros [?|(m' & [= <-] & ?)]; [done|congruence].
Qed.

End matcher_more.

(** ** More on urgency *)

Section urgency_more.
Context `{PyStr}.

(** X3: the low-urgency keyword "не срочно" never gives Low: it contains
    the high-urgency keyword "срочно", which is looked for first.  So in
    [istok_nlp.py] and in [istok_nlp_learn.py] a text with "не срочно" is
    High. *)
Theorem not_urgent_reads_as_high (doc : Doc) :
  is_in "не срочно" (lower (doc_text doc)) = true →
  _detect_urgency doc = capitalize "высокая"
  ∧ Learn._detect_urgency doc = capitalize "высокая".
Proof.
  intros Hlow.
  assert (is_in "срочно" (lower (doc_text doc)) = true) as Hhigh.
  { by apply (is_in_trans _ "не срочно"). }
  unfold _detect_urgency, Learn._detect_urgency. simpl. by rewrite Hhigh.
Qed.

End urgency_more.

(** ** The analyzer of [NLP_with_spaCy.py] *)

Section simple_analyzer_facts.
Context `{PyStr}.

Import EquipmentFailureAnalyzer.

Lemma all_known_elem d ts name :
  name ∈ all_known d ts ↔ ∃ token, token ∈ ts ∧ d !! lemma_ token = Some name.
Proof.
  induction ts as [|token ts IH]; simpl.
  - split; [by intros ?%not_elem_of_nil|]. by intros (? & ?%not_elem_of_nil & _).
  - destruct (d !! lemma_ token) as [known|] eqn:Hk.
    + rewrite elem_of_cons, IH. split.
      * intros [->|(t & Hin & Ht)]; [exists token|exists t];
          (split; [|done]); [by left|by right].
      * intros (t & [->|Hin]%elem_of_cons & Ht); [left; congruence|right; eauto].
    + rewrite IH. split.
      * intros (t & Hin & Ht). exists t. split; [by right|done].
      * intros (t & [->|Hin]%elem_of_cons & Ht); [congruence|eauto].
Qed.

Lemma all_known_nil d ts :
  all_known d ts = [] ↔ Forall (λ token, d !! lemma_ token = None) ts.
Proof.
  induction ts as [|token ts IH]; simpl; [by split|].
  destruct (d !! lemma_ token) eqn:Hk.
  - split; [done|]. intros [Ht _]%Forall_cons. congruence.
  - rewrite IH, Forall_cons. split; [by intros ?|by intros [_ ?]].
Qed.

Lemma all_known_length d ts :
  length (all_known d ts)
  = length (filter (λ token, is_Some (d !! lemma_ token)) ts).
Proof.
  induction ts as [|token ts IH]; simpl; [done|]. rewrite filter_cons.
  destruct (d !! lemma_ token) eqn:Hk.
  - rewrite decide_True by done. simpl. by rewrite IH.
  - rewrite decide_False by (by intros [? ?]). done.
Qed.

(** X4: [_get_components] is never empty; it is the sentinel list exactly
    when no token has a known lemma; otherwise it holds one display name
    per token with a known lemma, repeats included. *)
Theorem simple_components_sentinel (doc : Doc) :
  _get_components doc ≠ []
  ∧ (_get_components doc = ["Не указан"] ↔
     Forall (λ token, components !! lemma_ token = None) (tokens doc))
  ∧ (¬ Forall (λ token, components !! lemma_ token = None) (tokens doc) →
     length (_get_components doc)
     = length (filter (λ token, is_Some (components !! lemma_ token)) (tokens doc))
     ∧ ∀ name, name ∈ _get_components doc ↔
         ∃ token, token ∈ tokens doc ∧ components !! lemma_ token = Some name).
Proof.
  unfold _get_components, or_list.
  destruct (all_known components (tokens doc)) as [|name names] eqn:Hall.
  - split; [done|]. split.
    + split; [|done]. intros _. by apply all_known_nil.
    + intros Hno. exfalso. apply Hno. by apply all_known_nil.
  - split; [done|]. split.
    + split.
      * intros [= -> ->].
        assert ("Не указан" ∈ all_known components (tokens doc)) as Hin
          by (rewrite Hall; by left).
        apply all_known_elem in Hin as (token & _ & Hlook).
        apply elem_of_list_to_map_2 in Hlook.
        exfalso. revert Hlook. rewrite !elem_of_cons, elem_of_nil.
        intros Hor. repeat destruct Hor as [[= _ ?]|Hor]; done.
      * intros Hno%all_known_nil. congruence.
    + intros _. rewrite <- Hall. split; [apply all_known_length|].
      intros x. apply all_known_elem.
Qed.

(** X5: [_get_equipment] gives the display name of the first token whose
    lemma is an equipment type, whatever follows it, and the sentinel when
    there is none. *)
Theorem simple_equipment_first_known (doc : Doc) :
  (∀ before token after name,
     tokens doc = before ++ token :: after →
     Forall (λ t, equipment_types !! lemma_ t = None) before →
     equipment_types !! lemma_ token = Some name →
     _get_equipment doc = name)
  ∧ (Forall (λ t, equipment_types !! lemma_ t = None) (tokens doc) →
     _get_equipment doc = "Неизвестное оборудование").
Proof.
  unfold _get_equipment. split.
  - intros before token after name -> Hbefore Hname.
    induction Hbefore as [|t before Ht _ IH]; simpl; [by rewrite Hname|].
    by rewrite Ht.
  - induction 1 as [|t ts Ht _ IH]; simpl; [done|]. by rewrite Ht.
Qed.

(** X6: a text with "срочный ремонт" gets the symptom "Требуется срочный
    ремонт" and, since "срочный" alone is a high-urgency word, the urgency
    "Высокая"; [_get_symptoms] is never empty. *)
Theorem simple_urgent_repair (doc : Doc) :
  _get_symptoms doc ≠ []
  ∧ (is_in "срочный ремонт" (lower (doc_text doc)) = true →
     "Требуется срочный ремонт" ∈ _get_symptoms doc
     ∧ EquipmentFailureAnalyzer._detect_urgency doc = "Высокая").
Proof.
  split.
  - unfold _get_symptoms, or_list.
    destruct (if is_in "срочный ремонт" _ then _ else _); done.
  - intros Hrepair. split.
    + unfold _get_symptoms. rewrite Hrepair.
      destruct (is_in "не включается" _ || is_in "не запускается" _);
        destruct (all_known symptoms (tokens doc)); simpl; set_solver.
    + assert (is_in "срочный" (lower (doc_text doc)) = true) as Hurgent
        by by apply (is_in_trans _ "срочный ремонт").
      unfold EquipmentFailureAnalyzer._detect_urgency. simpl.
      by rewrite Hurgent, !orb_true_r.
Qed.

End simple_analyzer_facts.

(** ** More on the entities and the tokens *)

Section entity_facts.
Context `{PyStr}.

(** The texts of the entities with a given label, in order. *)
Lemma record_entity_lists r ent :
  let by_label label :=
    ent_text <$> filter (λ ent, label_ ent = label) [ent] in
  ner_dates (record_entity r ent) = ner_dates r ++ by_label "DATE"
  ∧ ner_error_codes (record_entity r ent) = ner_error_codes r ++ by_label "ERROR_CODE"
  ∧ ner_times (record_entity r ent) = ner_times r ++ by_label "TIME"
  ∧ ner_components (record_entity r ent) = ner_components r ++ by_label "COMPONENT"
  ∧ ner_symptoms (record_entity r ent) = ner_symptoms r ++ by_label "SYMPTOM"
  ∧ ner_actions (record_entity r ent) = ner_actions r ++ by_label "ACTION"
  ∧ ner_unknown_terms (record_entity r ent) = ner_unknown_terms r.
Proof.
  intros by_label. subst by_label. cbv beta.
  rewrite !filter_cons, !filter_nil. unfold record_entity.
  repeat (match goal with
          | |- context [String.eqb (label_ ent) ?l] =>
              destruct (String.eqb_spec (label_ ent) l) as [Heq|?];
              [rewrite Heq; simpl; by rewrite ?app_nil_r|]
          end).
  rewrite !decide_False by done. simpl. by rewrite !app_nil_r.
Qed.

Lemma fold_entities_lists es r :
  let by_label label := ent_text <$> filter (λ ent, label_ ent = label) es in
  let r' := fold_left record_entity es r in
  ner_dates r' = ner_dates r ++ by_label "DATE"
  ∧ ner_error_codes r' = ner_error_codes r ++ by_label "ERROR_CODE"
  ∧ ner_times r' = ner_times r ++ by_label "TIME"
  ∧ ner_components r' = ner_components r ++ by_label "COMPONENT"
  ∧ ner_symptoms r' = ner_symptoms r ++ by_label "SYMPTOM"
  ∧ ner_actions r' = ner_actions r ++ by_label "ACTION"
  ∧ ner_unknown_terms r' = ner_unknown_terms r.
Proof.
  cbv zeta. revert r. induction es as [|ent es IH]; intros r; simpl.
  - by rewrite !app_nil_r.
  - destruct (IH (record_entity r ent)) as (-> & -> & -> & -> & -> & -> & ->).
    destruct (record_entity_lists r ent) as (-> & -> & -> & -> & -> & -> & ->).
    change (ent :: es) with ([ent] ++ es).
    by rewrite !filter_app, !fmap_app, !app_assoc.
Qed.

Lemma record_pattern_lists r token :
  let r' := record_pattern r token in
  ner_dates r' = ner_dates r ∧ ner_error_codes r' = ner_error_codes r
  ∧ ner_times r' = ner_times r ∧ ner_components r' = ner_components r
  ∧ ner_symptoms r' = ner_symptoms r ∧ ner_actions r' = ner_actions r
  ∧ ner_unknown_terms r' = ner_unknown_terms r.
Proof. cbv zeta. unfold record_pattern. by destruct (_ && _). Qed.

Lemma fold_patterns_lists ts r :
  let r' := fold_left record_pattern ts r in
  ner_dates r' = ner_dates r ∧ ner_error_codes r' = ner_error_codes r
  ∧ ner_times r' = ner_times r ∧ ner_components r' = ner_components r
  ∧ ner_symptoms r' = ner_symptoms r ∧ ner_actions r' = ner_actions r
  ∧ ner_unknown_terms r' = ner_unknown_terms r.
Proof.
  cbv zeta. revert r. induction ts as [|token ts IH]; intros r; simpl; [done|].
  destruct (IH (record_pattern r token)) as (-> & -> & -> & -> & -> & -> & ->).
  apply record_pattern_lists.
Qed.

Lemma collect_ner_lists doc :
  let by_label label :=
    ent_text <$> filter (λ ent, label_ ent = label) (ents doc) in
  ner_dates (collect_ner doc) = by_label "DATE"
  ∧ ner_error_codes (collect_ner doc) = by_label "ERROR_CODE"
  ∧ ner_times (collect_ner doc) = by_label "TIME"
  ∧ ner_components (collect_ner doc) = by_label "COMPONENT"
  ∧ ner_symptoms (collect_ner doc) = by_label "SYMPTOM"
  ∧ ner_actions (collect_ner doc) = by_label "ACTION"
  ∧ ner_unknown_terms (collect_ner doc) = [].
Proof.
  cbv zeta. unfold collect_ner.
  pose proof (fold_entities_lists (ents doc) empty_ner) as Hents.
  cbv zeta in Hents. simpl in Hents.
  destruct (ner_equipment _); [|done].
  pose proof (fold_patterns_lists (tokens doc)
                (fold_left record_entity (ents doc) empty_ner)) as Hpat.
  cbv zeta in Hpat.
  destruct Hpat as (-> & -> & -> & -> & -> & -> & ->). done.
Qed.

(** X7: the lists of the ["ner"] entry are the texts of the tagger's
    entities, label by label and in the tagger's order; the pattern search
    touches none of them, and an entity with any other label
    (EQUIPMENT_ID and URGENCY among them) reaches no list. *)
Theorem ner_lists_by_label self text now r :
  analyze_text self text now = Ok r →
  ∃ doc, nlp self text = Ok doc ∧
  let by_label label :=
    ent_text <$> filter (λ ent, label_ ent = label) (ents doc) in
  ner_dates (ner r) = by_label "DATE"
  ∧ ner_error_codes (ner r) = by_label "ERROR_CODE"
  ∧ ner_times (ner r) = by_label "TIME"
  ∧ ner_components (ner r) = by_label "COMPONENT"
  ∧ ner_symptoms (ner r) = by_label "SYMPTOM"
  ∧ ner_actions (ner r) = by_label "ACTION"
  ∧ ner_unknown_terms (ner r) = [].
Proof.
  intros (doc & Hdoc & Hr)%analyze_text_doc. exists doc. split; [done|].
  apply analyze_doc_success in Hr as [_ ->]. apply collect_ner_lists.
Qed.

(** X8: [_find_unknown_terms] reports exactly the texts of the nouns
    and proper nouns that are not, as a whole, the text of an entity; so
    no entity text is ever reported, and the report is a sublist of the
    token texts. *)
Theorem unknown_terms_are_untagged_nouns (doc : Doc) :
  (∀ x, x ∈ _find_unknown_terms doc ↔
        ∃ token, token ∈ tokens doc ∧ tok_text token = x
          ∧ pos_ token ∈ ["NOUN"; "PROPN"]
          ∧ ∀ ent, ent ∈ ents doc → ent_text ent ≠ x)
  ∧ (∀ ent, ent ∈ ents doc → ent_text ent ∉ _find_unknown_terms doc)
  ∧ sublist (_find_unknown_terms doc) (tok_text <$> tokens doc).
Proof.
  assert (∀ x, x ∈ _find_unknown_terms doc ↔
        ∃ token, token ∈ tokens doc ∧ tok_text token = x
          ∧ pos_ token ∈ ["NOUN"; "PROPN"]
          ∧ ∀ ent, ent ∈ ents doc → ent_text ent ≠ x) as Hiff.
  { intros x. unfold _find_unknown_terms. rewrite list_elem_of_fmap. split.
    - intros (token & -> & Hin). apply list_elem_of_In, filter_In in Hin as [Hin Hq].
      apply andb_true_iff in Hq as [Hpos Hents]. exists token.
      split; [by apply list_elem_of_In|]. split; [done|].
      split; [by apply bool_decide_eq_true in Hpos|].
      intros ent Hent Heq. apply negb_true_iff in Hents.
      assert (existsb (λ ent, String.eqb (ent_text ent) (tok_text token)) (ents doc)
              = true) as Ht; [|congruence].
      apply existsb_exists. exists ent. split; [by apply list_elem_of_In|].
      by apply String.eqb_eq.
    - intros (token & Hin & <- & Hpos & Hents). exists token. split; [done|].
      apply list_elem_of_In, filter_In. split; [by apply list_elem_of_In|].
      apply andb_true_iff. split; [by apply bool_decide_eq_true|].
      apply negb_true_iff, not_true_iff_false. intros Hex.
      apply existsb_exists in Hex as (ent & Hent & Heq).
      apply String.eqb_eq in Heq. by apply (Hents ent); [apply list_elem_of_In|]. }
  split; [done|]. split.
  - intros ent Hent Hin. apply Hiff in Hin as (token & _ & Heq & _ & Hno).
    by apply (Hno ent).
  - clear Hiff. unfold _find_unknown_terms. apply fmap_sublist.
    induction (tokens doc) as [|t ts IH]; cbn [List.filter]; [done|].
    destruct (_ && _); [by apply sublist_skip|by apply sublist_cons].
Qed.

End entity_facts.

(** ** More on the dictionary passes *)

Section pass_facts.
Context `{PyStr} (self : IIoTAnalyzer).

#[local] Arguments _match_term : simpl never.
#[local] Arguments _verb_to_symptom_noun : simpl never.
#[local] Arguments _convert_verb_to_noun : simpl never.

Lemma for_each_ind {A S} (I : S → Prop) (xs : list A) body (s s' : S) :
  I s →
  (∀ x t t', x ∈ xs → I t → body x t = Ok t' → I t') →
  for_each xs body s = Ok s' → I s'.
Proof.
  revert s. induction xs as [|x xs IH]; intros s Hs Hstep; simpl.
  - by intros [= <-].
  - destruct (body x s) as [t|e] eqn:Hbody; [|done]. rewrite result_bind_ok.
    apply IH.
    + apply (Hstep x s t); [by left|done|done].
    + intros y u u' Hy. apply Hstep. by right.
Qed.

Lemma for_each_elem {A} (xs : list A)
    (body : A → gset string → result (gset string)) s s' x k :
  (∀ y t t', body y t = Ok t' → t ⊆ t') →
  x ∈ xs →
  (∀ t t', body x t = Ok t' → k ∈ t') →
  for_each xs body s = Ok s' → k ∈ s'.
Proof.
  intros Hmono Hin Hadd. revert s.
  induction Hin as [x xs|x y xs _ IH]; intros s; simpl.
  - destruct (body x s) as [t|e] eqn:Hbody; [|done]. rewrite result_bind_ok.
    intros Hrest. apply Hadd in Hbody.
    apply (for_each_ind (λ u, k ∈ u) xs body t s'); [done| |done].
    intros z u u' _ Hu Hz. apply Hmono in Hz. set_solver.
  - destruct (body y s) as [t|e]; [|done]. rewrite result_bind_ok.
    intros Hrest. by apply (IH Hadd t).
Qed.

Lemma add_if_truthy_subseteq o (s : gset string) : s ⊆ add_if_truthy o s.
Proof. destruct o as [x|]; simpl; [|done]. destruct (truthy x); set_solver. Qed.

Lemma elem_of_add_if_truthy x o (s : gset string) :
  x ∈ add_if_truthy o s ↔ x ∈ s ∨ (o = Some x ∧ truthy x = true).
Proof.
  destruct o as [y|]; simpl.
  - destruct (truthy y) eqn:Hy.
    + rewrite elem_of_union, elem_of_singleton. split.
      * intros [->|?]; [by right|by left].
      * intros [?|[[= ->] _]]; [by right|by left].
    + split; [by left|]. intros [?|[[= ->] Hx]]; [done|congruence].
  - split; [by left|]. by intros [?|[? _]].
Qed.

Lemma match_term_key text dict k :
  _match_term self text dict = Ok (Some k) → k ∈ dict.*1.
Proof.
  destruct text as [text|]; [|done]. rewrite match_term_some_eq.
  intros Hk%match_items_key. by destruct Hk as [?|(k' & [= <-] & ?)].
Qed.

(** The shape shared by the component and symptom passes: a loop that
    adds what [_match_term] finds for each token, then the sentinel when
    nothing was found. *)
Lemma dictionary_pass (word_of : Token → option string) dict sentinel doc :
  ∃ found,
    for_each (tokens doc) (λ token found,
      hit ← _match_term self (word_of token) dict;
      Ok (add_if_truthy hit found)) ∅ = Ok found
    ∧ (∀ x, x ∈ found ↔ pass_hit self dict word_of doc x)
    ∧ ((∀ x, ¬ pass_hit self dict word_of doc x) →
       (if is_empty_set found then {[sentinel]} else found) = {[sentinel]})
    ∧ ((∃ x, pass_hit self dict word_of doc x) →
       (if is_empty_set found then {[sentinel]} else found) = found
       ∧ found ≠ ∅ ∧ ∀ x, x ∈ found → x ∈ dict.*1).
Proof.
  unfold pass_hit.
  assert (∀ ts acc, ∃ found,
            for_each ts (λ token found,
              hit ← _match_term self (word_of token) dict;
              Ok (add_if_truthy hit found)) acc = Ok found
            ∧ ∀ x, x ∈ found ↔ x ∈ acc ∨
                 ∃ token, token ∈ ts
                   ∧ _match_term self (word_of token) dict = Ok (Some x)
                   ∧ truthy x = true) as Hloop.
  { induction ts as [|token ts IH]; intros acc; cbn [for_each].
    - exists acc. split; [done|]. intros x. split; [by left|].
      intros [?|(? & ?%not_elem_of_nil & _)]; done.
    - destruct (match_term_returns self (word_of token) dict) as [hit Hhit].
      rewrite Hhit, !result_bind_ok.
      destruct (IH (add_if_truthy hit acc)) as (found & -> & Hfound).
      exists found. split; [done|]. intros x.
      rewrite Hfound, elem_of_add_if_truthy. split.
      + intros [[?|[-> Hx]]|(t & Hin & Ht)]; [by left| |].
        * right. exists token. split; [by left|done].
        * right. exists t. split; [by right|done].
      + intros [?|(t & [->|Hin]%elem_of_cons & Ht & Hx)]; [by left; left| |].
        * left. right. split; [congruence|done].
        * right. by exists t. }
  destruct (Hloop (tokens doc) ∅) as (found & Hfor & Hfound). exists found.
  assert (∀ x, x ∈ found ↔
            ∃ token, token ∈ tokens doc
              ∧ _match_term self (word_of token) dict = Ok (Some x)
              ∧ truthy x = true) as Hiff.
  { intros x. rewrite Hfound. split; [|by right].
    by intros [?%not_elem_of_empty|?]. }
  split; [done|]. split; [done|]. unfold is_empty_set. split.
  - intros Hnone. case_bool_decide as Hempty; [done|].
    apply set_choose_L in Hempty as [x Hx]. apply Hiff in Hx.
    by destruct (Hnone x).
  - intros [x Hx]. apply Hiff in Hx.
    assert (found ≠ ∅) as Hne by (intros ->; by apply not_elem_of_empty in Hx).
    rewrite bool_decide_eq_false_2 by done.
    split; [done|]. split; [done|].
    intros y (t & _ & Ht & _)%Hiff. by eapply match_term_key.
Qed.

(** X9: [_get_components_from_dict] and [_get_components] return for
    every document.  The result is the sentinel alone exactly when
    [_match_term] gives a key for no token; otherwise it is the set of the
    keys [_match_term] gives for the tokens, which is not empty and holds
    keys of the component dictionary only.  [_get_components] looks each
    token up after [_convert_verb_to_noun]. *)
Theorem components_sentinel_or_keys (doc : Doc) :
  (∃ found, _get_components_from_dict self doc = Ok found
     ∧ let hit := pass_hit self (components self)
                    (λ token, Some (tok_text token)) doc in
       ((∀ x, ¬ hit x) → found = {["Не указаны"]})
       ∧ ((∃ x, hit x) →
          found ≠ ∅ ∧ (∀ x, x ∈ found ↔ hit x)
          ∧ ∀ x, x ∈ found → x ∈ (components self).*1))
  ∧ (∃ found, _get_components self doc = Ok found
       ∧ let hit := pass_hit self (components self)
                      (λ token, _convert_verb_to_noun self (tok_text token)) doc in
         ((∀ x, ¬ hit x) → found = {["Не указаны"]})
         ∧ ((∃ x, hit x) →
            found ≠ ∅ ∧ (∀ x, x ∈ found ↔ hit x)
            ∧ ∀ x, x ∈ found → x ∈ (components self).*1)).
Proof.
  split.
  - unfold _get_components_from_dict.
    destruct (dictionary_pass (λ token, Some (tok_text token)) (components self)
                "Не указаны" doc) as (found & -> & Hfound & Hnone & Hsome).
    rewrite result_bind_ok. eexists. split; [done|]. cbv zeta. split; [done|].
    intros Hhit. destruct (Hsome Hhit) as (-> & Hne & Hkeys). done.
  - unfold _get_components.
    destruct (dictionary_pass (λ token, _convert_verb_to_noun self (tok_text token))
                (components self) "Не указаны" doc)
      as (found & -> & Hfound & Hnone & Hsome).
    rewrite result_bind_ok. eexists. split; [done|]. cbv zeta. split; [done|].
    intros Hhit. destruct (Hsome Hhit) as (-> & Hne & Hkeys). done.
Qed.

End pass_facts.

(** ** The layers of [_get_symptoms] *)

Section symptom_facts.
Context `{PyStr} (self : IIoTAnalyzer).

#[local] Arguments _match_term : simpl never.
#[local] Arguments _convert_verb_to_noun : simpl never.

Lemma fold_left_subseteq {A} (f : gset string → A → gset string) xs acc :
  (∀ acc x, acc ⊆ f acc x) → acc ⊆ fold_left f xs acc.
Proof.
  intros Hmono. revert acc. induction xs as [|x xs IH]; intros acc; simpl; [done|].
  etrans; [apply (Hmono acc x)|apply IH].
Qed.

Lemma fold_left_elem {A} (f : gset string → A → gset string) xs acc x k :
  (∀ acc x, acc ⊆ f acc x) → x ∈ xs → (∀ acc, k ∈ f acc x) →
  k ∈ fold_left f xs acc.
Proof.
  intros Hmono Hin Hadd. revert acc.
  induction Hin as [x xs|x y xs _ IH]; intros acc; simpl.
  - apply (fold_left_subseteq f xs (f acc x) Hmono), Hadd.
  - by apply IH.
Qed.

Lemma for_each_subseteq {A} (xs : list A)
    (body : A → gset string → result (gset string)) s s' :
  (∀ y t t', body y t = Ok t' → t ⊆ t') →
  for_each xs body s = Ok s' → s ⊆ s'.
Proof.
  intros Hmono. apply (for_each_ind (λ u, s ⊆ u)); [done|].
  intros y t t' _ Ht Hbody%Hmono. by etrans.
Qed.

(** X10: the layers of [_get_symptoms] add up.  It returns for every
    document, and the result holds the lowercased text of each entity
    tagged SYMPTOM, each key the dictionary gives for a token, the symptom
    of each hard-wired trigger found in the text and, with a sentencizer
    in the pipeline, each key one of whose variants occurs in a
    sentence. *)
Theorem symptoms_layers_add_up (doc : Doc) :
  ∃ found, _get_symptoms self doc = Ok found
    ∧ (∀ ent, ent ∈ ents doc → label_ ent = "SYMPTOM" →
         lower (ent_text ent) ∈ found)
    ∧ (∀ token k, token ∈ tokens doc →
         _match_term self (Some (tok_text token)) (symptoms self) = Ok (Some k) →
         truthy k = true → k ∈ found)
    ∧ (∀ rule, rule ∈ extra_rules →
         occurs_any rule.2 (lower (doc_text doc)) = true → rule.1 ∈ found)
    ∧ (in_list "sentencizer" (pipe_names self) = true →
       ∀ sent item, sent ∈ sents doc → item ∈ symptoms self →
         occurs_any item.2 (lower sent) = true → item.1 ∈ found).
Proof.
  unfold _get_symptoms.
  set (f1 := λ (acc : gset string) ent,
         if String.eqb (label_ ent) "SYMPTOM" then {[lower (ent_text ent)]} ∪ acc
         else acc).
  set (s1 := fold_left f1 (ents doc) ∅).
  set (body2 := λ token (acc : gset string),
         symptom ← _match_term self (Some (tok_text token)) (symptoms self);
         let acc := add_if_truthy symptom acc in
         symptom ← _match_term self (Some (lemma_ token)) (symptoms self);
         Ok (add_if_truthy symptom acc)).
  assert (∀ y t t', body2 y t = Ok t' → t ⊆ t') as Hmono2.
  { intros y t t'. unfold body2.
    destruct (match_term_returns self (Some (tok_text y)) (symptoms self)) as [c ->].
    rewrite result_bind_ok. cbv zeta.
    destruct (match_term_returns self (Some (lemma_ y)) (symptoms self)) as [c' ->].
    rewrite result_bind_ok. intros [= <-].
    etrans; apply add_if_truthy_subseteq. }
  destruct (for_each_returns (tokens doc) body2 s1) as [s2 H2].
  { intros y t _. unfold body2.
    destruct (match_term_returns self (Some (tok_text y)) (symptoms self)) as [c ->].
    rewrite result_bind_ok. cbv zeta.
    destruct (match_term_returns self (Some (lemma_ y)) (symptoms self)) as [c' ->].
    by eexists. }
  rewrite H2, result_bind_ok.
  set (body3 := λ token (acc : gset string),
         if in_list (pos_ token) ["VERB"; "ADJ"] then
           let noun_form := _convert_verb_to_noun self (tok_text token) in
           if truthy_opt noun_form then
             symptom ← _match_term self noun_form (symptoms self);
             Ok (add_if_truthy symptom acc)
           else Ok acc
         else Ok acc).
  assert (∀ y t t', body3 y t = Ok t' → t ⊆ t') as Hmono3.
  { intros y t t'. unfold body3. destruct (in_list _ _); [|by intros [= <-]].
    cbv zeta. destruct (truthy_opt _); [|by intros [= <-]].
    destruct (match_term_returns self (_convert_verb_to_noun self (tok_text y))
                (symptoms self)) as [c ->].
    rewrite result_bind_ok. intros [= <-]. apply add_if_truthy_subseteq. }
  destruct (for_each_returns (tokens doc) body3 s2) as [s3 H3].
  { intros y t _. unfold body3. destruct (in_list _ _); [|by eexists].
    cbv zeta. destruct (truthy_opt _); [|by eexists].
    destruct (match_term_returns self (_convert_verb_to_noun self (tok_text y))
                (symptoms self)) as [c ->]. by eexists. }
  rewrite H3, result_bind_ok.
  set (body4 := λ (pair : Token * Token) (acc : gset string),
         let phrase := tok_text pair.1 +:+ " " +:+ tok_text pair.2 in
         symptom ← _match_term self (Some phrase) (symptoms self);
         Ok (add_if_truthy symptom acc)).
  assert (∀ y t t', body4 y t = Ok t' → t ⊆ t') as Hmono4.
  { intros y t t'. unfold body4. cbv zeta.
    destruct (match_term_returns self
                (Some (tok_text y.1 +:+ " " +:+ tok_text y.2)) (symptoms self))
      as [c ->].
    rewrite result_bind_ok. intros [= <-]. apply add_if_truthy_subseteq. }
  destruct (for_each_returns (adjacent (tokens doc)) body4 s3) as [s4 H4].
  { intros y t _. unfold body4. cbv zeta.
    destruct (match_term_returns self
                (Some (tok_text y.1 +:+ " " +:+ tok_text y.2)) (symptoms self))
      as [c ->]. by eexists. }
  rewrite H4, result_bind_ok.
  set (g := λ (sent_text : string) (acc : gset string) (item : string * list string),
         if existsb (λ variant, is_in variant sent_text) item.2
         then {[item.1]} ∪ acc else acc).
  set (f5 := λ (acc : gset string) (sent : string),
         let sent_text := lower sent in
         fold_left (g sent_text) (symptoms self) acc).
  set (s5 := if in_list "sentencizer" (pipe_names self)
             then fold_left f5 (sents doc) s4 else s4).
  set (f6 := λ (acc : gset string) (rule : string * list string),
         if existsb (λ word, is_in word (lower (doc_text doc))) rule.2
         then {[rule.1]} ∪ acc else acc).
  set (s6 := fold_left f6 extra_rules s5).
  assert (∀ acc x, acc ⊆ f1 acc x) as Hmono1.
  { intros acc x. unfold f1. destruct (String.eqb _ _); set_solver. }
  assert (∀ t acc x, acc ⊆ g t acc x) as Hmonog.
  { intros t acc x. unfold g. destruct (existsb _ _); set_solver. }
  assert (∀ acc x, acc ⊆ f5 acc x) as Hmono5.
  { intros acc x. unfold f5. cbv zeta. apply fold_left_subseteq, Hmonog. }
  assert (∀ acc x, acc ⊆ f6 acc x) as Hmono6.
  { intros acc x. unfold f6. destruct (existsb _ _); set_solver. }
  pose proof (for_each_subseteq _ _ _ _ Hmono2 H2) as H12.
  pose proof (for_each_subseteq _ _ _ _ Hmono3 H3) as H23.
  pose proof (for_each_subseteq _ _ _ _ Hmono4 H4) as H34.
  assert (s4 ⊆ s5) as H45.
  { unfold s5. destruct (in_list _ _); [|done]. by apply fold_left_subseteq. }
  assert (s5 ⊆ s6) as H56 by by apply fold_left_subseteq.
  assert (∀ x, x ∈ s6 →
            x ∈ (if is_empty_set s6 then {["Симптомы не описаны"]} else s6))
    as Hfinal.
  { intros x Hx. unfold is_empty_set. case_bool_decide as Hempty; [|done].
    rewrite Hempty in Hx. by apply not_elem_of_empty in Hx. }
  eexists. split; [done|]. split; [|split; [|split]].
  - intros ent Hent Hlabel. apply Hfinal, H56, H45, H34, H23, H12.
    apply (fold_left_elem f1 _ _ ent); [done|done|].
    intros acc. unfold f1. rewrite Hlabel. simpl.
    apply elem_of_union_l. by apply elem_of_singleton.
  - intros token k Htoken Hk Htruthy. apply Hfinal, H56, H45, H34, H23.
    apply (for_each_elem (tokens doc) body2 s1 s2 token k); [done|done| |done].
    intros t t'. unfold body2. rewrite Hk, result_bind_ok. cbv zeta.
    destruct (match_term_returns self (Some (lemma_ token)) (symptoms self))
      as [c' ->].
    rewrite result_bind_ok. intros [= <-].
    eapply elem_of_weaken; [|apply add_if_truthy_subseteq].
    simpl. rewrite Htruthy. apply elem_of_union_l. by apply elem_of_singleton.
  - intros rule Hrule Hocc. apply Hfinal.
    apply (fold_left_elem f6 _ _ rule); [done|done|].
    intros acc. unfold f6. unfold occurs_any in Hocc. rewrite Hocc.
    apply elem_of_union_l. by apply elem_of_singleton.
  - intros Hsent sent item Hin Hitem Hocc. apply Hfinal, H56.
    unfold s5. rewrite Hsent.
    apply (fold_left_elem f5 _ _ sent); [done|done|].
    intros acc. unfold f5. cbv zeta.
    apply (fold_left_elem (g (lower sent)) _ _ item); [apply Hmonog|done|].
    intros acc'. unfold g. unfold occurs_any in Hocc. rewrite Hocc.
    apply elem_of_union_l. by apply elem_of_singleton.
Qed.

End symptom_facts.

(** ** The equipment type *)

Section equipment_type_facts.
Context `{PyStr} (self : IIoTAnalyzer).

#[local] Arguments _match_term : simpl never.
#[local] Arguments _convert_verb_to_noun : simpl never.
#[local] Arguments _verb_to_symptom_noun : simpl never.

Lemma first_dictionary_type_hit before token after k :
  Forall (λ t, ∃ o, _match_term self (Some (tok_text t)) (equipment_types self)
                    = Ok o ∧ truthy_opt o = false) before →
  _match_term self (Some (tok_text token)) (equipment_types self) = Ok (Some k) →
  truthy k = true →
  first_dictionary_type self (before ++ token :: after) = Ok (Some k).
Proof.
  intros Hbefore Hk Htruthy.
  induction Hbefore as [|t before (o & Ho & Hfalse) _ IH]; simpl.
  - rewrite Hk, result_bind_ok. simpl. by rewrite Htruthy.
  - rewrite Ho, result_bind_ok, Hfalse. done.
Qed.

Lemma first_dictionary_type_miss ts :
  Forall (λ t, ∃ o, _match_term self (Some (tok_text t)) (equipment_types self)
                    = Ok o ∧ truthy_opt o = false) ts →
  first_dictionary_type self ts = Ok None.
Proof.
  induction 1 as [|t ts (o & Ho & Hfalse) _ IH]; simpl; [done|].
  by rewrite Ho, result_bind_ok, Hfalse.
Qed.

(** X11: the order of precedence in [_determine_equipment_type].  What
    the tagger found decides alone, whatever the tokens are; with nothing
    from the tagger the first token the dictionary resolves decides; then
    the noun after a breakdown verb; then the sentinel. *)
Theorem equipment_type_precedence (doc : Doc) (found_equipment : list string) :
  (found_equipment ≠ [] →
   ∀ doc', _determine_equipment_type self doc found_equipment
           = _determine_equipment_type self doc' found_equipment)
  ∧ (∀ before token after k,
       tokens doc = before ++ token :: after →
       Forall (λ t, ∃ o, _match_term self (Some (tok_text t)) (equipment_types self)
                         = Ok o ∧ truthy_opt o = false) before →
       _match_term self (Some (tok_text token)) (equipment_types self)
       = Ok (Some k) →
       truthy k = true →
       _determine_equipment_type self doc [] = Ok (capitalize k))
  ∧ (Forall (λ t, ∃ o, _match_term self (Some (tok_text t)) (equipment_types self)
                       = Ok o ∧ truthy_opt o = false) (tokens doc) →
     _determine_equipment_type self doc [] =
     Ok (match first_context_noun doc with
         | Some noun => capitalize noun
         | None => "Неизвестное оборудование"
         end)).
Proof.
  split; [|split].
  - intros Hne doc'. by destruct found_equipment.
  - intros before token after k Htokens Hbefore Hk Htruthy.
    unfold _determine_equipment_type. rewrite Htokens.
    by rewrite (first_dictionary_type_hit _ _ _ _ Hbefore Hk Htruthy).
  - intros Hmiss. unfold _determine_equipment_type.
    rewrite (first_dictionary_type_miss _ Hmiss), result_bind_ok.
    by destruct (first_context_noun doc).
Qed.

Lemma first_converted_type_key ts :
  ∃ o, first_converted_type self ts = Ok o
       ∧ (o = None ∨ ∃ k, o = Some k ∧ k ∈ (equipment_types self).*1).
Proof.
  induction ts as [|token ts IH]; simpl; [exists None; split; [done|by left]|].
  destruct (truthy_opt (_convert_verb_to_noun self (tok_text token))); [|done].
  destruct (match_term_returns self (_convert_verb_to_noun self (tok_text token))
              (equipment_types self)) as [term Hterm].
  rewrite Hterm, result_bind_ok.
  destruct (truthy_opt term) eqn:Ht; [|done].
  exists term. split; [done|]. destruct term as [k|]; [|done]. right.
  exists k. split; [done|]. by eapply match_term_key.
Qed.

Lemma first_phrase_type_key pairs :
  ∃ o, first_phrase_type self pairs = Ok o
       ∧ (o = None ∨ ∃ k, o = Some k ∧ k ∈ (equipment_types self).*1).
Proof.
  induction pairs as [|[first second] pairs IH]; simpl;
    [exists None; split; [done|by left]|].
  destruct (match_term_returns self
              (Some (tok_text first +:+ " " +:+ tok_text second))
              (equipment_types self)) as [term Hterm].
  rewrite Hterm, result_bind_ok.
  destruct (truthy_opt term) eqn:Ht; [|done].
  exists term. split; [done|]. destruct term as [k|]; [|done]. right.
  exists k. split; [done|]. by eapply match_term_key.
Qed.

(** X12: [_get_equipment_type] returns for every document, with or
    without a morphological analyzer, and what it returns is the sentinel
    or the capitalized form of a key of the equipment dictionary; a
    document with no token gives the sentinel. *)
Theorem get_equipment_type_sentinel_or_key (doc : Doc) :
  (∃ r, _get_equipment_type self doc = Ok r
     ∧ (r = "Неизвестное оборудование"
        ∨ ∃ k, k ∈ (equipment_types self).*1 ∧ r = capitalize k))
  ∧ (tokens doc = [] →
     _get_equipment_type self doc = Ok "Неизвестное оборудование").
Proof.
  split.
  - unfold _get_equipment_type.
    destruct (first_converted_type_key (tokens doc)) as (o & -> & Ho).
    rewrite result_bind_ok.
    destruct Ho as [->|(k & -> & Hk)]; [|eexists; split; [done|right; eauto]].
    destruct (first_phrase_type_key (adjacent (tokens doc))) as (o & -> & Ho).
    rewrite result_bind_ok.
    destruct Ho as [->|(k & -> & Hk)]; eexists; (split; [done|]);
      [by left|right; eauto].
  - intros Hempty. unfold _get_equipment_type. by rewrite Hempty.
Qed.

End equipment_type_facts.

(** ** When [analyze_text] returns, and what it prefers *)

Section analysis_facts.
Context `{PyStr} (self : IIoTAnalyzer).

#[local] Arguments _match_term : simpl never.
#[local] Arguments _verb_to_symptom_noun : simpl never.

Lemma verb_loop_returns_iff ts (acc : gset string) :
  returns (for_each ts (λ token acc,
    if String.eqb (pos_ token) "VERB" then
      noun_form ← _verb_to_symptom_noun self (tok_text token);
      Ok (add_if_truthy noun_form acc)
    else Ok acc) acc)
  ↔ ∀ token, token ∈ ts → pos_ token = "VERB" →
      returns (_verb_to_symptom_noun self (tok_text token)).
Proof.
  revert acc. induction ts as [|t ts IH]; intros acc; cbn [for_each].
  - split; [|by eexists]. by intros _ token ?%not_elem_of_nil.
  - destruct (String.eqb_spec (pos_ t) "VERB") as [Hv|Hnv].
    + destruct (_verb_to_symptom_noun self (tok_text t)) as [noun|e] eqn:Hnoun.
      * rewrite !result_bind_ok, IH. split.
        -- intros Hall token [->|Hin]%elem_of_cons Hverb; [|by apply Hall].
           rewrite Hnoun. by eexists.
        -- intros Hall token Hin. apply Hall. by right.
      * split; [by intros [? ?]|]. intros Hall.
        destruct (Hall t) as [? Hret]; [by left|done|]. congruence.
    + rewrite result_bind_ok, IH. split.
      * intros Hall token [->|Hin]%elem_of_cons Hverb; [done|by apply Hall].
      * intros Hall token Hin. apply Hall. by right.
Qed.

Lemma analyze_doc_returns_iff doc text now :
  returns (analyze_doc self doc text now)
  ↔ ∀ token, token ∈ tokens doc → pos_ token = "VERB" →
      returns (_verb_to_symptom_noun self (tok_text token)).
Proof.
  pose proof (analyze_doc_after_verbs self doc text now) as Hdoc.
  rewrite <- (verb_loop_returns_iff _
    (list_to_set (ner_symptoms (collect_ner doc)))).
  destruct (for_each (tokens doc) _ _) as [syms|e].
  - destruct Hdoc as (r & -> & _). split; intros _; by eexists.
  - rewrite Hdoc. split; intros [x Hx]; discriminate Hx.
Qed.

(** X13: [analyze_text] returns exactly when the pipeline returns a
    document for the text and the verb lookup returns for every token of
    it tagged VERB: the call of the pipeline and the verb lookup are the
    only steps that can raise.  What the pipeline raises comes out as it
    is. *)
Theorem analyze_text_returns_iff text now :
  (returns (analyze_text self text now)
   ↔ ∃ doc, nlp self text = Ok doc
       ∧ ∀ token, token ∈ tokens doc → pos_ token = "VERB" →
           returns (_verb_to_symptom_noun self (tok_text token)))
  ∧ (∀ e, nlp self text = Raise e → analyze_text self text now = Raise e).
Proof.
  split; [|intros e He; by apply analyze_text_pipeline_raises].
  destruct (nlp self text) as [doc|e] eqn:Hnlp.
  - rewrite (analyze_text_on_doc _ _ _ _ Hnlp), analyze_doc_returns_iff. split.
    + intros Hverbs. by exists doc.
    + by intros (doc' & [= <-] & Hverbs).
  - rewrite (analyze_text_pipeline_raises _ _ _ _ Hnlp). split.
    + intros [r Hr]. discriminate Hr.
    + intros (doc & Hdoc & _). discriminate Hdoc.
Qed.

Lemma analyze_doc_fields doc text now r :
  analyze_doc self doc text now = Ok r →
  ∃ syms,
    for_each (tokens doc) (λ token acc,
      if String.eqb (pos_ token) "VERB" then
        noun_form ← _verb_to_symptom_noun self (tok_text token);
        Ok (add_if_truthy noun_form acc)
      else Ok acc)
      (list_to_set (ner_symptoms (collect_ner doc)) : gset string) = Ok syms
    ∧ _determine_equipment_type self doc (ner_equipment (collect_ner doc))
      = Ok (equipment_type (failure_analysis r))
    ∧ match ner_components (collect_ner doc) with
      | [] => _get_components_from_dict self doc
      | cs => Ok (list_to_set cs)
      end = Ok (fa_components (failure_analysis r))
    ∧ (if is_empty_set syms then _get_symptoms_from_dict self doc else Ok syms)
      = Ok (fa_symptoms (failure_analysis r)).
Proof.
  unfold analyze_doc. intros Hr.
  destruct (for_each (tokens doc) _ _) as [syms|] eqn:Hsyms; [|done].
  rewrite result_bind_ok in Hr.
  destruct (_determine_equipment_type self doc _) as [et|] eqn:Het; [|done].
  rewrite result_bind_ok in Hr.
  destruct (match ner_components (collect_ner doc) with [] => _ | _ => _ end)
    as [cs|] eqn:Hcs; [|done].
  rewrite result_bind_ok in Hr.
  destruct (if is_empty_set syms then _ else _) as [ss|] eqn:Hss; [|done].
  rewrite result_bind_ok in Hr. injection Hr as <-. simpl.
  exists syms. by rewrite Hss.
Qed.

(** X14: the tagger is preferred and the dictionary fills in.  When the
    tagger found components the result holds exactly those, and the
    dictionary is not asked; when it found none the result is what the
    dictionary pass gives.  The symptoms the tagger found are always in
    the result, and the equipment type is decided from the tagger's
    equipment mentions. *)
Theorem tagger_preferred_dictionary_fills text now r :
  analyze_text self text now = Ok r →
  ∃ doc, nlp self text = Ok doc ∧
  (ner_components (ner r) ≠ [] →
   fa_components (failure_analysis r) = list_to_set (ner_components (ner r)))
  ∧ (ner_components (ner r) = [] →
     _get_components_from_dict self doc = Ok (fa_components (failure_analysis r)))
  ∧ (∀ x, x ∈ ner_symptoms (ner r) → x ∈ fa_symptoms (failure_analysis r))
  ∧ _determine_equipment_type self doc (ner_equipment (ner r))
    = Ok (equipment_type (failure_analysis r)).
Proof.
  intros (doc & Hdoc & Hr)%analyze_text_doc. exists doc. split; [done|].
  destruct (analyze_doc_success self doc text now r Hr) as [_ Hner].
  destruct (analyze_doc_fields doc text now r Hr) as (syms & Hsyms & Het & Hcs & Hss).
  rewrite Hner. split; [|split; [|split]]; [| | |done].
  - intros Hne. destruct (ner_components (collect_ner doc)); [done|].
    by injection Hcs as <-.
  - intros Hnil. by rewrite Hnil in Hcs.
  - intros x Hx.
    assert (x ∈ syms) as Hin.
    { eapply elem_of_weaken; [by apply elem_of_list_to_set|].
      eapply for_each_subseteq; [|exact Hsyms].
      intros y t t'. cbv beta. destruct (String.eqb _ _); [|by intros [= <-]].
      destruct (_verb_to_symptom_noun self (tok_text y)) as [noun|]; [|done].
      rewrite result_bind_ok. intros [= <-]. apply add_if_truthy_subseteq. }
    revert Hss. unfold is_empty_set. case_bool_decide as Hempty.
    + rewrite Hempty in Hin. by apply not_elem_of_empty in Hin.
    + by intros [= <-].
Qed.

End analysis_facts.

(** ** More on training *)

Section training_more.
Context {Model Example Optimizer Loss : Type}.
Context `{!Spacy Model Example Optimizer Loss}.

Lemma iterations_length n itn train_examples eval_examples optimizer
    (m m' : Model) out0 out :
  iterations n itn train_examples eval_examples optimizer m out0 = (m', Ok out) →
  length out = length out0 + n.
Proof.
  revert itn optimizer m out0. induction n as [|n IH]; intros itn opt m out0; simpl.
  - intros [= _ <-]. lia.
  - destruct (iteration itn train_examples eval_examples opt m)
      as [m1 [[opt1 rep]|e]]; [|done].
    intros Hrest%IH. rewrite length_app in Hrest. simpl in Hrest. lia.
Qed.

(** X15: [train_ner_model] writes the model directory only when every
    iteration went through: on success the directory holds the trained
    in-memory model and one line was reported per iteration; on failure
    the directory is as it was. *)
Theorem persisted_only_on_success train_data n_iter (p p' : Pipeline) :
  (∀ out, train_ner_model train_data n_iter p = (p', Ok out) →
     on_disk p' = Some (in_memory p') ∧ length out = n_iter)
  ∧ (∀ e, train_ner_model train_data n_iter p = (p', Raise e) →
     on_disk p' = on_disk p).
Proof.
  unfold train_ner_model.
  destruct (for_each train_data _ _) as [examples|e1];
    [|split; [done|by intros e [= <- _]]].
  destruct (begin_training _) as [[m2 optimizer]|e2];
    [|split; [done|by intros e [= <- _]]].
  destruct (iterations _ _ _ _ _ _ _) as [m3 [out|e3]] eqn:Hiter.
  - split; [|done]. intros out' [= <- <-]. split; [done|].
    by apply iterations_length in Hiter.
  - split; [done|]. by intros e [= <- _].
Qed.

Lemma minibatch_concat (fuel i : nat) (items : list Example) :
  (∀ i, 0 < batch_size i) → (length items ≤ fuel)%nat →
  concat (minibatch fuel i items) = items
  ∧ Forall (λ batch, batch ≠ []) (minibatch fuel i items).
Proof.
  intros Hpos. revert i items. induction fuel as [|fuel IH]; intros i items Hlen.
  - destruct items; [done|simpl in Hlen; lia].
  - simpl. destruct (take (batch_size i) items) as [|x batch] eqn:Htake.
    + destruct items as [|y items]; [done|].
      specialize (Hpos i). destruct (batch_size i); [lia|done].
    + destruct (IH (S i) (drop (batch_size i) items)) as [Hconcat Hall].
      { assert (length (take (batch_size i) items) ≠ 0) as Hne by by rewrite Htake.
        rewrite length_take in Hne. rewrite length_drop. lia. }
      split.
      * cbn [concat]. rewrite Hconcat, <- Htake. apply take_drop.
      * by constructor.
Qed.

(** X16: with batch sizes that are never zero, as [compounding] from
    4.0 gives them, the batches of one iteration are non-empty and, put
    end to end, are the training examples: each example is trained on
    once per iteration, in order. *)
Theorem minibatch_partitions (items : list Example) :
  (∀ i, 0 < batch_size i) →
  concat (minibatch (length items) 0 items) = items
  ∧ Forall (λ batch, batch ≠ []) (minibatch (length items) 0 items).
Proof. intros Hpos. by apply minibatch_concat. Qed.

Lemma make_examples_length (m : Model) train_data acc examples :
  for_each train_data (λ item examples,
    example ← make_example m item.1 item.2;
    Ok (examples ++ [example])) acc = Ok examples →
  length examples = length acc + length train_data.
Proof.
  revert acc. induction train_data as [|item train_data IH]; intros acc; simpl.
  - intros [= <-]. lia.
  - destruct (make_example m item.1 item.2) as [example|e]; [|done]. simpl.
    intros Hrest%IH. rewrite length_app in Hrest. simpl in Hrest. lia.
Qed.

(** X17: a corpus of at most one example can never be trained on: the
    80/20 split leaves no training example, no batch is run, and the
    first iteration raises.  The model directory is not written. *)
Theorem train_small_corpus_raises train_data (n : nat) (p : Pipeline) :
  (length train_data ≤ 1)%nat →
  ∃ p' e, train_ner_model train_data (S n) p = (p', Raise e)
          ∧ on_disk p' = on_disk p.
Proof.
  intros Hlen. unfold train_ner_model.
  destruct (for_each train_data _ _) as [examples|e1] eqn:Hex;
    [|by eexists _, _].
  apply make_examples_length in Hex. simpl in Hex.
  assert (take (4 * length (shuffle examples) / 5) (shuffle examples) = []) as ->.
  { rewrite (Permutation_length (shuffle_perm examples)), Hex.
    destruct train_data as [|? [|? ?]]; simpl in *; [done|done|lia]. }
  destruct (begin_training _) as [[m2 optimizer]|e2]; [|by eexists _, _].
  cbn [iterations].
  destruct (iteration_without_training 0
              (drop (4 * length (shuffle examples) / 5) (shuffle examples))
              optimizer m2) as [e ->].
  by eexists _, _.
Qed.

Lemma learn_iterations_empty (zero : Loss) n itn optimizer (m : Model) out :
  Learn.iterations zero n itn [] optimizer m out
  = (m, Ok (out ++ ((λ i, (S i, zero)) <$> seq itn n))).
Proof.
  revert itn out. induction n as [|n IH]; intros itn out; simpl.
  - by rewrite app_nil_r.
  - rewrite shuffle_nil. unfold Learn.iteration. simpl. rewrite lookup_empty. simpl.
    rewrite IH, <- app_assoc. done.
Qed.

(** X18: the [train_ner_model] of [istok_nlp_learn.py] goes through on
    the empty corpus: it reads the loss with a default, reports the loss 0
    on every iteration and writes the model [begin_training] initialised. *)
Theorem learn_train_empty_corpus (zero : Loss) (n : nat) (p : Pipeline) :
  Learn.train_ner_model zero [] n p =
  match begin_training (in_memory p) with
  | Ok (m, _) =>
      ({| in_memory := m; on_disk := Some m |},
       Ok ((λ i, (S i, zero)) <$> seq 0 n))
  | Raise e => ({| in_memory := in_memory p; on_disk := on_disk p |}, Raise e)
  end.
Proof.
  unfold Learn.train_ner_model. simpl.
  destruct (begin_training (in_memory p)) as [[m optimizer]|e]; [|done].
  by rewrite learn_iterations_empty.
Qed.

End training_more.

(** ** The remote annotator and the link *)

Section link_facts.
Context `{PyStr}.

(** X19: [build_winnum_url] raises exactly when a value it lowercases
    is not a string: the equipment, when a number is given too, or the
    symptom.  The exception is [AttributeError]; in every other case it
    returns. *)
Theorem build_winnum_url_raises_iff (entities : gmap string Llama3.value) :
  let bad_equipment :=
    ∃ r n, entities !! "equipment" = Some (Llama3.VOther r)
           ∧ entities !! "number" = Some n in
  let bad_symptom := ∃ r, entities !! "symptom" = Some (Llama3.VOther r) in
  (Llama3.build_winnum_url entities = Raise AttributeError
   ↔ bad_equipment ∨ bad_symptom)
  ∧ (returns (Llama3.build_winnum_url entities)
     ↔ ¬ (bad_equipment ∨ bad_symptom)).
Proof.
  cbv zeta. unfold Llama3.build_winnum_url, returns.
  destruct (entities !! "equipment") as [[e|r]|];
    destruct (entities !! "number") as [n|];
    destruct (entities !! "symptom") as [[s|r']|]; simpl;
    (split; [split; [try done; intros _|]|split; [|try (intros _; by eexists)]]);
    try (intros [(? & ? & ? & ?)|(? & ?)]; done);
    try (intros _ [(? & ? & ? & ?)|(? & ?)]; done);
    try (intros [? ?]; done);
    try (intros Hno; exfalso; apply Hno);
    try (left; by eexists _, _); try (right; by eexists).
Qed.

(** X20: the link [build_winnum_url] returns is the fixed address and
    the five fixed parameters, then [pid] when both the equipment and the
    number are given, then [tid] when the symptom is given.  The number is
    put in as it is written, an unknown equipment type falls back to
    [WNProduct:] and an unknown symptom to [NC_DEFAULT]. *)
Theorem build_winnum_url_closed_form (entities : gmap string Llama3.value) url :
  Llama3.build_winnum_url entities = Ok url →
  url =
    Llama3.base_url +:+ "?" +:+ Llama3.query Llama3.fixed_params
    +:+ match entities !! "equipment", entities !! "number" with
        | Some (Llama3.VStr e), Some n =>
            "&pid=" +:+ default "WNProduct:" (Llama3.product_map !! lower e)
            +:+ Llama3.str n
        | _, _ => EmptyString
        end
    +:+ match entities !! "symptom" with
        | Some (Llama3.VStr s) =>
            "&tid=" +:+ default "NC_DEFAULT" (Llama3.symptom_map !! lower s)
        | _ => EmptyString
        end.
Proof.
  assert (∀ s : string, s +:+ EmptyString = s) as Hnil.
  { induction s as [|c s IH]; [done|]. by rewrite append_cons, IH. }
  unfold Llama3.build_winnum_url.
  destruct (entities !! "equipment") as [[e|r]|];
    destruct (entities !! "number") as [n|];
    destruct (entities !! "symptom") as [[s|r']|];
    unfold Llama3.lower_of; rewrite ?result_bind_ok; try done;
    intros [= <-];
    unfold Llama3.query, Llama3.fixed_params;
    cbn [fmap list_fmap Llama3.join_with fst snd];
    rewrite ?append_assoc, ?Hnil, ?append_nil; done.
Qed.

End link_facts.

Section remote_facts.
Context `{PyStr} {J : Type}.
Variable post : string → string → string → result Llama3.Response.
Variable strip : string → string.
Variable json_loads : string → result J.

Lemma fenced_is_not_json raw :
  String.prefix "```json" raw = true → String.prefix "{" raw = false.
Proof.
  intros [rest ->]%prefix_app. reflexivity.
Qed.

(** X21: what [extract_entities] does with each outcome of the request.
    A failure of the request itself is not caught.  A status other than
    200, and a reply that does not begin with an opening brace, a reply
    wrapped in a json fence included, give the fallback with no raw
    response kept.  A reply that begins with a brace and holds no fence
    is parsed, and the fallback keeps it when parsing raises.  The link
    built from a fallback is the fixed one. *)
Theorem extract_entities_outcomes (text : string) :
  let reply :=
    post "http://localhost:11434/api/generate" "phi3" (Llama3.build_prompt text) in
  let extract := Llama3.extract_entities post strip json_loads text in
  (∀ e, reply = Raise e → extract = Raise e)
  ∧ (∀ response, reply = Ok response → Llama3.status_code response ≠ 200 →
       extract = Ok (Llama3.RawResponse None))
  ∧ (∀ response data s,
       reply = Ok response → Llama3.status_code response = 200 →
       Llama3.json response = Ok data →
       data !! "response" = Some (Llama3.VStr s) →
       (String.prefix "{" (strip s) = false ∨ String.prefix "```json" (strip s) = true →
        extract = Ok (Llama3.RawResponse None))
       ∧ (String.prefix "{" (strip s) = true → is_in "```json" (strip s) = false →
          extract = Ok match json_loads (strip s) with
                       | Ok entities => Llama3.Parsed entities
                       | Raise _ => Llama3.RawResponse (Some (strip s))
                       end))
  ∧ (∀ raw, Llama3.build_winnum_url (Llama3.raw_response_dict raw)
            = Ok (Llama3.base_url +:+ "?" +:+ Llama3.query Llama3.fixed_params)).
Proof.
  cbv zeta. unfold Llama3.extract_entities, Llama3.ask_ollama.
  split; [|split; [|split]].
  - by intros e ->.
  - intros response -> Hstatus. rewrite result_bind_ok.
    by destruct (Nat.eqb_spec (Llama3.status_code response) 200).
  - intros response data s -> Hstatus Hjson Hdata.
    rewrite result_bind_ok, Hstatus. simpl Nat.eqb. cbv iota.
    rewrite Hjson, result_bind_ok, Hdata, result_bind_ok.
    split.
    + intros Hbad.
      assert (String.prefix "{" (strip s) = false) as ->.
      { destruct Hbad as [?|?%fenced_is_not_json]; done. }
      done.
    + intros -> Hfence. simpl. rewrite Hfence. simpl.
      by destruct (json_loads (strip s)).
  - intros raw. by destruct raw.
Qed.

End remote_facts.

(** ** Runs of [analyze_text] *)

Section action_facts.
Context {World : Type}.
#[local] Existing Instance Run.action_ret.
#[local] Existing Instance Run.action_bind.

Implicit Types s : Run.Store World.

Lemma bind_run {A B} (m : Run.Action World A) (k : A → Run.Action World B) s :
  (m ≫= k) s =
  match m s with
  | (Ok a, s') => k a s'
  | (Raise e, s') => (Raise e, s')
  end.
Proof. reflexivity. Qed.

Lemma bind_returns {A B} (m : Run.Action World A) (k : A → Run.Action World B)
    s b s' :
  (m ≫= k) s = (Ok b, s') →
  ∃ a s0, m s = (Ok a, s0) ∧ k a s0 = (Ok b, s').
Proof.
  rewrite bind_run. destruct (m s) as [[a|e] s0]; [|done]. intros Hk. by exists a, s0.
Qed.

Lemma agree_refl {A} (r : result A) : agree eq r r.
Proof. by destruct r. Qed.

Lemma agree_eq {A} (r1 r2 : result A) : agree eq r1 r2 ↔ r1 = r2.
Proof.
  destruct r1, r2; simpl; split; try done; by intros ->||(by intros [= ->]).
Qed.

(** *** The analyzer is left as it was *)

Lemma frames_ret {A} (a : A) : frames (mret a : Run.Action World A).
Proof. by intros s. Qed.

Lemma frames_value {A} (r : result A) : frames (Run.value r : Run.Action World A).
Proof. by intros s. Qed.

Lemma frames_attribute {A} (field : IIoTAnalyzer → A) :
  frames (Run.attribute field : Run.Action World A).
Proof. by intros s. Qed.

Lemma frames_outside {A} (call : World → result A * World) :
  frames (Run.outside call).
Proof. intros s. unfold Run.outside. by destruct (call (Run.world s)). Qed.

Lemma frames_bind {A B} (m : Run.Action World A) (k : A → Run.Action World B) :
  frames m → (∀ a, frames (k a)) → frames (m ≫= k).
Proof.
  intros Hm Hk s. rewrite bind_run. specialize (Hm s).
  destruct (m s) as [[a|e] s']; simpl in *; [by rewrite Hk|done].
Qed.

Lemma frames_try {A} (body handler : Run.Action World A) :
  frames body → frames handler → frames (Run.try_except body handler).
Proof.
  intros Hb Hh s. unfold Run.try_except. specialize (Hb s).
  destruct (body s) as [[a|e] s']; simpl in *; [done|by rewrite Hh].
Qed.

Lemma frames_for_each {A S} (xs : list A) (body : A → S → Run.Action World S) acc :
  (∀ x acc', frames (body x acc')) → frames (Run.for_each xs body acc).
Proof.
  intros Hbody. revert acc. induction xs as [|x xs IH]; intros acc; simpl.
  - apply frames_ret.
  - apply frames_bind; [apply Hbody|apply IH].
Qed.

(** *** The outcome is settled by the analyzer *)

Lemma settled_ret {A} (R : A → A → Prop) (a : A) :
  R a a → settled R (mret a : Run.Action World A).
Proof. by intros Ha s1 s2 _. Qed.

Lemma settled_value {A} (r : result A) :
  settled eq (Run.value r : Run.Action World A).
Proof. intros s1 s2 _. apply agree_refl. Qed.

Lemma settled_attribute {A} (field : IIoTAnalyzer → A) :
  settled eq (Run.attribute field : Run.Action World A).
Proof. intros s1 s2 Heq. simpl. by rewrite Heq. Qed.

Lemma settled_outside {A} (call : World → result A * World) :
  (∀ w w', (call w).1 = (call w').1) → settled eq (Run.outside call).
Proof.
  intros Hcall s1 s2 _. unfold Run.outside.
  specialize (Hcall (Run.world s1) (Run.world s2)).
  destruct (call (Run.world s1)), (call (Run.world s2)). simpl in *.
  rewrite Hcall. apply agree_refl.
Qed.

Lemma settled_bind {A B} (R : B → B → Prop)
    (m : Run.Action World A) (k : A → Run.Action World B) :
  frames m → settled eq m → (∀ a, settled R (k a)) → settled R (m ≫= k).
Proof.
  intros Hf Hm Hk s1 s2 Heq. rewrite !bind_run.
  pose proof (Hm s1 s2 Heq) as Hres.
  pose proof (Hf s1) as Hf1. pose proof (Hf s2) as Hf2.
  destruct (m s1) as [[a|e] s1'], (m s2) as [[b|e'] s2']; simpl in *; try done.
  subst b. apply Hk. congruence.
Qed.

Lemma settled_try {A} (body handler : Run.Action World A) :
  frames body → settled eq body → settled eq handler →
  settled eq (Run.try_except body handler).
Proof.
  intros Hf Hb Hh s1 s2 Heq. unfold Run.try_except.
  pose proof (Hb s1 s2 Heq) as Hres.
  pose proof (Hf s1) as Hf1. pose proof (Hf s2) as Hf2.
  destruct (body s1) as [[a|e] s1'], (body s2) as [[b|e'] s2']; simpl in *; try done.
  apply Hh. congruence.
Qed.

Lemma settled_for_each {A S} (xs : list A) (body : A → S → Run.Action World S) acc :
  (∀ x acc', frames (body x acc')) → (∀ x acc', settled eq (body x acc')) →
  settled eq (Run.for_each xs body acc).
Proof.
  intros Hf Hbody. revert acc. induction xs as [|x xs IH]; intros acc; simpl.
  - by apply settled_ret.
  - apply settled_bind; [apply Hf|apply Hbody|apply IH].
Qed.

End action_facts.

Create HintDb run discriminated.

#[local] Hint Resolve frames_ret frames_value frames_attribute frames_outside : run.
#[local] Hint Resolve settled_value settled_attribute : run.
#[local] Hint Extern 1 (settled eq (mret _)) => apply settled_ret; reflexivity : run.

Ltac run_step :=
  first
    [ progress cbv zeta
    | solve [auto with run]
    | apply frames_bind; [|intros]
    | apply settled_bind; [| |intros]
    | apply frames_try
    | apply settled_try
    | apply frames_for_each; intros
    | apply settled_for_each; intros
    | match goal with
      | |- frames (match ?x with _ => _ end) => destruct x
      | |- settled _ (match ?x with _ => _ end) => destruct x
      end ].

Ltac run_auto := repeat run_step.

Section run_facts.
Context `{PyStr} `{PySet} {World : Type} (libs : Run.Libraries World).
#[local] Existing Instance Run.action_ret.
#[local] Existing Instance Run.action_bind.

Implicit Types s : Run.Store World.

(** **** No method of the call tree of [analyze_text] writes the analyzer *)

Lemma morph_parse_frames word : frames (Run.morph_parse libs word).
Proof. unfold Run.morph_parse. run_auto. Qed.
#[local] Hint Resolve morph_parse_frames : run.

Lemma normalize_frames word : frames (Run._normalize libs word).
Proof. unfold Run._normalize. run_auto. Qed.
#[local] Hint Resolve normalize_frames : run.

Lemma any_variant_frames normalized variants :
  frames (Run.any_variant libs normalized variants).
Proof. induction variants as [|variant rest IH]; simpl; run_auto. Qed.
#[local] Hint Resolve any_variant_frames : run.

Lemma match_items_frames normalized items :
  frames (Run.match_items libs normalized items).
Proof. induction items as [|[term variants] rest IH]; simpl; run_auto. Qed.
#[local] Hint Resolve match_items_frames : run.

Lemma match_term_frames text dict : frames (Run._match_term libs text dict).
Proof. unfold Run._match_term. run_auto. Qed.
#[local] Hint Resolve match_term_frames : run.

Lemma verb_to_symptom_noun_frames verb : frames (Run._verb_to_symptom_noun libs verb).
Proof. unfold Run._verb_to_symptom_noun. run_auto. Qed.
#[local] Hint Resolve verb_to_symptom_noun_frames : run.

Lemma get_components_from_dict_frames doc :
  frames (Run._get_components_from_dict libs doc).
Proof. unfold Run._get_components_from_dict. run_auto. Qed.
#[local] Hint Resolve get_components_from_dict_frames : run.

Lemma get_symptoms_from_dict_frames doc :
  frames (Run._get_symptoms_from_dict libs doc).
Proof. unfold Run._get_symptoms_from_dict. run_auto. Qed.
#[local] Hint Resolve get_symptoms_from_dict_frames : run.

Lemma first_dictionary_type_frames ts : frames (Run.first_dictionary_type libs ts).
Proof. induction ts as [|token rest IH]; simpl; run_auto. Qed.
#[local] Hint Resolve first_dictionary_type_frames : run.

Lemma determine_equipment_type_frames doc found_equipment :
  frames (Run._determine_equipment_type libs doc found_equipment).
Proof. unfold Run._determine_equipment_type. run_auto. Qed.
#[local] Hint Resolve determine_equipment_type_frames : run.

Lemma get_timestamp_frames doc : frames (Run._get_timestamp libs doc).
Proof. unfold Run._get_timestamp. destruct (List.find _ _); [run_auto|by intros s]. Qed.
#[local] Hint Resolve get_timestamp_frames : run.

Lemma analyze_text_frames text : frames (Run.analyze_text libs text).
Proof. unfold Run.analyze_text. run_auto. Qed.

(** **** With fixed answers of the libraries, what a method returns is
    settled by the analyzer *)

Section fixed_answers.
Hypothesis Hfixed : Run.answers_fixed libs.

Lemma call_nlp_settled pipeline text :
  settled eq (Run.outside (Run.call_nlp libs pipeline text)).
Proof. apply settled_outside. intros w w'. apply Hfixed. Qed.

Lemma call_parse_settled m word :
  settled eq (Run.outside (Run.call_parse libs m word)).
Proof. apply settled_outside. intros w w'. apply Hfixed. Qed.
#[local] Hint Resolve call_nlp_settled call_parse_settled : run.

Lemma morph_parse_settled word : settled eq (Run.morph_parse libs word).
Proof. unfold Run.morph_parse. run_auto. Qed.
#[local] Hint Resolve morph_parse_settled : run.

Lemma normalize_settled word : settled eq (Run._normalize libs word).
Proof. unfold Run._normalize. run_auto. Qed.
#[local] Hint Resolve normalize_settled : run.

Lemma any_variant_settled normalized variants :
  settled eq (Run.any_variant libs normalized variants).
Proof. induction variants as [|variant rest IH]; simpl; run_auto. Qed.
#[local] Hint Resolve any_variant_settled : run.

Lemma match_items_settled normalized items :
  settled eq (Run.match_items libs normalized items).
Proof. induction items as [|[term variants] rest IH]; simpl; run_auto. Qed.
#[local] Hint Resolve match_items_settled : run.

Lemma match_term_settled text dict : settled eq (Run._match_term libs text dict).
Proof. unfold Run._match_term. run_auto. Qed.
#[local] Hint Resolve match_term_settled : run.

Lemma verb_to_symptom_noun_settled verb :
  settled eq (Run._verb_to_symptom_noun libs verb).
Proof. unfold Run._verb_to_symptom_noun. run_auto. Qed.
#[local] Hint Resolve verb_to_symptom_noun_settled : run.

Lemma get_components_from_dict_settled doc :
  settled eq (Run._get_components_from_dict libs doc).
Proof. unfold Run._get_components_from_dict. run_auto. Qed.
#[local] Hint Resolve get_components_from_dict_settled : run.

Lemma get_symptoms_from_dict_settled doc :
  settled eq (Run._get_symptoms_from_dict libs doc).
Proof. unfold Run._get_symptoms_from_dict. run_auto. Qed.
#[local] Hint Resolve get_symptoms_from_dict_settled : run.

Lemma first_dictionary_type_settled ts :
  settled eq (Run.first_dictionary_type libs ts).
Proof. induction ts as [|token rest IH]; simpl; run_auto. Qed.
#[local] Hint Resolve first_dictionary_type_settled : run.

Lemma determine_equipment_type_settled doc found_equipment :
  settled eq (Run._determine_equipment_type libs doc found_equipment).
Proof. unfold Run._determine_equipment_type. run_auto. Qed.
#[local] Hint Resolve determine_equipment_type_settled : run.

(** The clock reaches the timestamp only. *)
Lemma timestamp_settled doc (assemble : string → Returned) :
  (∀ t1 t2, blank_timestamp (assemble t1) = blank_timestamp (assemble t2)) →
  settled (λ r1 r2, blank_timestamp r1 = blank_timestamp r2)
    (timestamp ← Run._get_timestamp libs doc; mret (assemble timestamp)).
Proof.
  intros Hblank s1 s2 _. unfold Run._get_timestamp.
  destruct (List.find _ _); simpl; apply Hblank.
Qed.

Lemma analyze_text_settled text :
  settled (λ r1 r2, blank_timestamp r1 = blank_timestamp r2)
    (Run.analyze_text libs text).
Proof.
  unfold Run.analyze_text.
  apply settled_bind; [run_auto..|intros pipeline].
  apply settled_bind; [run_auto..|intros doc]. cbv zeta.
  apply settled_bind; [run_auto..|intros symptoms].
  apply settled_bind; [run_auto..|intros equipment_type].
  apply settled_bind; [run_auto..|intros components].
  apply settled_bind; [run_auto..|intros symptoms'].
  apply (timestamp_settled doc (λ timestamp, {| run_ner := _ |})).
  reflexivity.
Qed.

End fixed_answers.

(** **** The timestamp of a run *)

Lemma find_date_head (doc : Doc) :
  ent_text <$> List.find (λ ent, String.eqb (label_ ent) "DATE") (ents doc)
  = head (ner_dates (collect_ner doc)).
Proof.
  destruct (collect_ner_lists doc) as (-> & _). cbv zeta.
  induction (ents doc) as [|ent es IH]; [done|].
  cbn [List.find]. rewrite filter_cons.
  destruct (String.eqb_spec (label_ ent) "DATE") as [Heq|Hne].
  - by rewrite decide_True by done.
  - by rewrite decide_False by done.
Qed.

Lemma analyze_text_timestamp text s r s' :
  Run.analyze_text libs text s = (Ok r, s') →
  run_timestamp (run_failure_analysis r) =
  match ner_dates (run_ner r) with
  | date :: _ => date
  | [] => Run.clock libs (Run.world s')
  end.
Proof.
  unfold Run.analyze_text. intros Hrun.
  apply bind_returns in Hrun as (pipeline & s0 & _ & Hrun).
  apply bind_returns in Hrun as (doc & s1 & _ & Hrun). cbv zeta in Hrun.
  apply bind_returns in Hrun as (symptoms & s2 & _ & Hrun).
  apply bind_returns in Hrun as (equipment_type & s3 & _ & Hrun).
  apply bind_returns in Hrun as (components & s4 & _ & Hrun).
  apply bind_returns in Hrun as (symptoms' & s5 & _ & Hrun).
  apply bind_returns in Hrun as (timestamp & s6 & Hstamp & Hrun).
  injection Hrun as <- <-. simpl.
  pose proof (find_date_head doc) as Hhead.
  unfold Run._get_timestamp in Hstamp.
  destruct (List.find _ (ents doc)) as [ent|]; injection Hstamp as <- <-.
  - destruct (ner_dates (collect_ner doc)) as [|date dates]; simpl in *; congruence.
  - destruct (ner_dates (collect_ner doc)) as [|date dates]; simpl in *; congruence.
Qed.

Lemma agree_blank_timestamp (r1 r2 : result Returned) :
  agree (λ a b, blank_timestamp a = blank_timestamp b) r1 r2 →
  map_result blank_timestamp r1 = map_result blank_timestamp r2.
Proof. destruct r1, r2; simpl; [by intros ->|done|done|by intros ->]. Qed.

Lemma blank_timestamp_inj (r1 r2 : Returned) :
  blank_timestamp r1 = blank_timestamp r2 →
  run_timestamp (run_failure_analysis r1) = run_timestamp (run_failure_analysis r2) →
  r1 = r2.
Proof.
  destruct r1 as [n1 [] t1 b1], r2 as [n2 [] t2 b2]. unfold blank_timestamp. simpl.
  intros [= -> -> -> -> -> -> -> ->] ->. done.
Qed.

End run_facts.

(** *** What the code itself writes

    With libraries that keep no state of their own, nothing in the store
    changes. *)

Section still_facts.
Context {World : Type}.
#[local] Existing Instance Run.action_ret.
#[local] Existing Instance Run.action_bind.

Lemma still_ret {A} (a : A) : still (mret a : Run.Action World A).
Proof. by intros s. Qed.

Lemma still_value {A} (r : result A) : still (Run.value r : Run.Action World A).
Proof. by intros s. Qed.

Lemma still_attribute {A} (field : IIoTAnalyzer → A) :
  still (Run.attribute field : Run.Action World A).
Proof. by intros s. Qed.

Lemma still_outside {A} (call : World → result A * World) :
  (∀ w, (call w).2 = w) → still (Run.outside call).
Proof.
  intros Hcall s. unfold Run.outside. specialize (Hcall (Run.world s)).
  destruct (call (Run.world s)) as [r w]. simpl in *. subst w. by destruct s.
Qed.

Lemma still_bind {A B} (m : Run.Action World A) (k : A → Run.Action World B) :
  still m → (∀ a, still (k a)) → still (m ≫= k).
Proof.
  intros Hm Hk s. rewrite bind_run. specialize (Hm s).
  destruct (m s) as [[a|e] s']; simpl in *; subst s'; [apply Hk|done].
Qed.

Lemma still_try {A} (body handler : Run.Action World A) :
  still body → still handler → still (Run.try_except body handler).
Proof.
  intros Hb Hh s. unfold Run.try_except. specialize (Hb s).
  destruct (body s) as [[a|e] s']; simpl in *; subst s'; [done|apply Hh].
Qed.

Lemma still_for_each {A S} (xs : list A) (body : A → S → Run.Action World S) acc :
  (∀ x acc', still (body x acc')) → still (Run.for_each xs body acc).
Proof.
  intros Hbody. revert acc. induction xs as [|x xs IH]; intros acc; simpl.
  - apply still_ret.
  - apply still_bind; [apply Hbody|apply IH].
Qed.

End still_facts.

#[local] Hint Resolve still_ret still_value still_attribute : run.

Ltac still_step :=
  first
    [ progress cbv zeta
    | solve [auto with run]
    | apply still_bind; [|intros]
    | apply still_try
    | apply still_for_each; intros
    | match goal with
      | |- still (match ?x with _ => _ end) => destruct x
      end ].

Ltac still_auto := repeat still_step.

Section quiet_facts.
Context `{PyStr} `{PySet} {World : Type} (libs : Run.Libraries World).
#[local] Existing Instance Run.action_ret.
#[local] Existing Instance Run.action_bind.
Hypothesis Hquiet : Run.quiet libs.

Lemma call_nlp_still pipeline text :
  still (Run.outside (Run.call_nlp libs pipeline text)).
Proof. apply still_outside. apply Hquiet. Qed.

Lemma call_parse_still m word :
  still (Run.outside (Run.call_parse libs m word)).
Proof. apply still_outside. apply Hquiet. Qed.
#[local] Hint Resolve call_nlp_still call_parse_still : run.

Lemma morph_parse_still word : still (Run.morph_parse libs word).
Proof. unfold Run.morph_parse. still_auto. Qed.
#[local] Hint Resolve morph_parse_still : run.

Lemma normalize_still word : still (Run._normalize libs word).
Proof. unfold Run._normalize. still_auto. Qed.
#[local] Hint Resolve normalize_still : run.

Lemma any_variant_still normalized variants :
  still (Run.any_variant libs normalized variants).
Proof. induction variants as [|variant rest IH]; simpl; still_auto. Qed.
#[local] Hint Resolve any_variant_still : run.

Lemma match_items_still normalized items :
  still (Run.match_items libs normalized items).
Proof. induction items as [|[term variants] rest IH]; simpl; still_auto. Qed.
#[local] Hint Resolve match_items_still : run.

Lemma match_term_still text dict : still (Run._match_term libs text dict).
Proof. unfold Run._match_term. still_auto. Qed.
#[local] Hint Resolve match_term_still : run.

Lemma verb_to_symptom_noun_still verb : still (Run._verb_to_symptom_noun libs verb).
Proof. unfold Run._verb_to_symptom_noun. still_auto. Qed.
#[local] Hint Resolve verb_to_symptom_noun_still : run.

Lemma get_components_from_dict_still doc :
  still (Run._get_components_from_dict libs doc).
Proof. unfold Run._get_components_from_dict. still_auto. Qed.
#[local] Hint Resolve get_components_from_dict_still : run.

Lemma get_symptoms_from_dict_still doc :
  still (Run._get_symptoms_from_dict libs doc).
Proof. unfold Run._get_symptoms_from_dict. still_auto. Qed.
#[local] Hint Resolve get_symptoms_from_dict_still : run.

Lemma first_dictionary_type_still ts : still (Run.first_dictionary_type libs ts).
Proof. induction ts as [|token rest IH]; simpl; still_auto. Qed.
#[local] Hint Resolve first_dictionary_type_still : run.

Lemma determine_equipment_type_still doc found_equipment :
  still (Run._determine_equipment_type libs doc found_equipment).
Proof. unfold Run._determine_equipment_type. still_auto. Qed.
#[local] Hint Resolve determine_equipment_type_still : run.

Lemma get_timestamp_still doc : still (Run._get_timestamp libs doc).
Proof. unfold Run._get_timestamp. destruct (List.find _ _); [still_auto|by intros s]. Qed.
#[local] Hint Resolve get_timestamp_still : run.

(** What [analyze_text] itself does writes nothing: whatever a run
    changes in the store, a library changed. *)
Lemma analyze_text_still text : still (Run.analyze_text libs text).
Proof. unfold Run.analyze_text. still_auto. Qed.

End quiet_facts.

(** *** Runs and the tables

    With libraries that answer as the pipeline and the morphological
    analyzer of the analyzer say, each action returns what the method
    returns when they are read as tables. *)

Section refinement_facts.
Context {World : Type}.
#[local] Existing Instance Run.action_ret.
#[local] Existing Instance Run.action_bind.

Implicit Types s : Run.Store World.

Lemma refines_ret {A B} self (R : A → B → Prop) a b :
  R a b → refines self R (mret a : Run.Action World A) (Ok b).
Proof. by intros HR s _. Qed.

Lemma refines_value {A} self (r : result A) :
  refines self eq (Run.value r : Run.Action World A) r.
Proof. intros s _. apply agree_refl. Qed.

Lemma refines_attribute {A B C} self (R : B → C → Prop) (field : IIoTAnalyzer → A)
    (k : A → Run.Action World B) r :
  refines self R (k (field self)) r →
  refines self R (Run.attribute field ≫= k) r.
Proof. intros Hk s Hs. rewrite bind_run. simpl. rewrite Hs. by apply Hk. Qed.

Lemma refines_outside {A} self (call : World → result A * World) r :
  (∀ w, (call w).1 = r) → refines self eq (Run.outside call) r.
Proof.
  intros Hcall s _. unfold Run.outside. specialize (Hcall (Run.world s)).
  destruct (call (Run.world s)). simpl in *. subst r. apply agree_refl.
Qed.

Lemma refines_bind {A A' B B'} self (Q : A → A' → Prop) (R : B → B' → Prop)
    (m : Run.Action World A) (k : A → Run.Action World B) r q :
  frames m → refines self Q m r →
  (∀ a a', Q a a' → refines self R (k a) (q a')) →
  refines self R (m ≫= k) (r ≫= q).
Proof.
  intros Hf Hm Hk s Hs. rewrite bind_run.
  pose proof (Hm s Hs) as Hres. pose proof (Hf s) as Hfs.
  destruct (m s) as [[a|e] s'], r as [a'|e']; simpl in *; try done.
  apply Hk; [done|congruence].
Qed.

Lemma refines_try {A} self (body handler : Run.Action World A) rb rh :
  frames body → refines self eq body rb → refines self eq handler rh →
  refines self eq (Run.try_except body handler) (try_except rb rh).
Proof.
  intros Hf Hb Hh s Hs. unfold Run.try_except, try_except.
  pose proof (Hb s Hs) as Hres. pose proof (Hf s) as Hfs.
  destruct (body s) as [[a|e] s'], rb as [a'|e']; simpl in *; try done.
  apply Hh. congruence.
Qed.

Lemma refines_for_each {A S S'} self (Q : S → S' → Prop) (xs : list A)
    (body : A → S → Run.Action World S) pbody acc acc' :
  (∀ x a, frames (body x a)) →
  (∀ x a a', Q a a' → refines self Q (body x a) (pbody x a')) →
  Q acc acc' →
  refines self Q (Run.for_each xs body acc) (for_each xs pbody acc').
Proof.
  intros Hf Hbody. revert acc acc'.
  induction xs as [|x xs IH]; intros acc acc' Hacc; simpl.
  - by apply refines_ret.
  - apply (refines_bind self Q); [apply Hf|by apply Hbody|]. intros a a' Ha. by apply IH.
Qed.

End refinement_facts.

Section link_facts.
Context `{PyStr} `{PySet} {World : Type} (libs : Run.Libraries World).
#[local] Existing Instance Run.action_ret.
#[local] Existing Instance Run.action_bind.
#[local] Hint Resolve frames_ret frames_value frames_attribute frames_outside : run.
#[local] Hint Resolve morph_parse_frames normalize_frames any_variant_frames
  match_items_frames match_term_frames verb_to_symptom_noun_frames
  get_components_from_dict_frames get_symptoms_from_dict_frames
  first_dictionary_type_frames determine_equipment_type_frames
  get_timestamp_frames : run.

#[local] Arguments _match_term : simpl never.
#[local] Arguments Run._match_term : simpl never.
#[local] Arguments _normalize : simpl never.
#[local] Arguments Run._normalize : simpl never.

Hypothesis Hfaithful : Run.faithful libs.

Lemma morph_parse_refines self word :
  refines self eq (Run.morph_parse libs word) (morph_parse self word).
Proof.
  unfold Run.morph_parse, morph_parse. apply refines_attribute.
  destruct (morph self) as [m|]; [|apply refines_value].
  apply refines_outside. intros w. apply Hfaithful.
Qed.

Lemma normalize_refines self word :
  refines self eq (Run._normalize libs word) (_normalize self word).
Proof.
  unfold Run._normalize, _normalize. apply refines_attribute.
  destruct (negb (truthy word) || negb (bool_decide (is_Some (morph self))));
    [by apply refines_ret|].
  apply refines_try; [run_auto| |by apply refines_ret].
  apply (refines_bind self eq); [run_auto|apply morph_parse_refines|].
  intros parsed ? <-.
  apply (refines_bind self eq); [run_auto|apply refines_value|].
  intros p0 ? <-. by apply refines_ret.
Qed.

Lemma any_variant_refines self normalized variants :
  refines self eq (Run.any_variant libs normalized variants)
    (any_variant self normalized variants).
Proof.
  induction variants as [|variant rest IH]; simpl; [by apply refines_ret|].
  apply (refines_bind self eq); [run_auto|apply normalize_refines|].
  intros nv ? <-. destruct (String.eqb normalized nv); [by apply refines_ret|done].
Qed.

Lemma match_items_refines self normalized items :
  refines self eq (Run.match_items libs normalized items)
    (match_items self normalized items).
Proof.
  induction items as [|[term variants] rest IH]; simpl; [by apply refines_ret|].
  destruct (String.eqb normalized term); [by apply refines_ret|].
  apply (refines_bind self eq); [run_auto|apply any_variant_refines|].
  intros hit ? <-. destruct hit; [by apply refines_ret|done].
Qed.

Lemma match_term_refines self text dict :
  refines self eq (Run._match_term libs text dict) (_match_term self text dict).
Proof.
  unfold Run._match_term, _match_term.
  destruct text as [t|]; [|by apply refines_ret]. cbv zeta.
  apply (refines_bind self eq); [run_auto|apply normalize_refines|].
  intros normalized ? <-. apply match_items_refines.
Qed.

Lemma verb_to_symptom_noun_refines self verb :
  refines self eq (Run._verb_to_symptom_noun libs verb)
    (_verb_to_symptom_noun self verb).
Proof.
  unfold Run._verb_to_symptom_noun, _verb_to_symptom_noun.
  apply (refines_bind self eq); [run_auto|apply morph_parse_refines|].
  intros parsed ? <-.
  apply (refines_bind self eq); [run_auto|apply refines_value|].
  intros p0 ? <-. by apply refines_ret.
Qed.

Lemma first_dictionary_type_refines self ts :
  refines self eq (Run.first_dictionary_type libs ts) (first_dictionary_type self ts).
Proof.
  induction ts as [|token rest IH]; simpl; [by apply refines_ret|].
  apply refines_attribute.
  apply (refines_bind self eq); [run_auto|apply match_term_refines|].
  intros eq_type ? <-. destruct (truthy_opt eq_type); [by apply refines_ret|done].
Qed.

Lemma determine_equipment_type_refines self doc found_equipment :
  refines self eq (Run._determine_equipment_type libs doc found_equipment)
    (_determine_equipment_type self doc found_equipment).
Proof.
  unfold Run._determine_equipment_type, _determine_equipment_type.
  destruct found_equipment as [|first others].
  - apply (refines_bind self eq); [run_auto|apply first_dictionary_type_refines|].
    intros eq_type ? <-. destruct eq_type; [by apply refines_ret|].
    destruct (first_context_noun doc); by apply refines_ret.
  - apply refines_attribute. unfold id.
    destruct (first_named_type self (first :: others)); by apply refines_ret.
Qed.

(** A set under construction, and the set. *)
Lemma is_set_add o added (found : gset string) :
  is_set added found → is_set (Run.add_if_truthy o added) (add_if_truthy o found).
Proof.
  unfold is_set. intros <-. destruct o as [x|]; simpl; [|done].
  destruct (truthy x); [|done].
  rewrite list_to_set_app_L. simpl. rewrite (right_id_L ∅ (∪)). apply (comm_L (∪)).
Qed.

Lemma is_set_nil added (found : gset string) :
  is_set added found → (added = [] ↔ found = ∅).
Proof.
  unfold is_set. intros <-. split; [by intros ->|].
  destruct added as [|x xs]; [done|]. simpl. set_solver.
Qed.

Lemma is_set_list added (found : gset string) :
  is_set added found → is_set (set_list added) found.
Proof.
  unfold is_set. intros <-. apply set_eq. intros x.
  by rewrite !elem_of_list_to_set, set_list_elem.
Qed.

Lemma is_set_with_sentinel added (found : gset string) sentinel :
  is_set added found →
  is_set (match added with [] => [sentinel] | _ => set_list added end)
    (if is_empty_set found then {[sentinel]} else found).
Proof.
  intros Hset. pose proof (is_set_nil _ _ Hset) as Hnil. unfold is_empty_set.
  destruct added as [|x xs].
  - rewrite bool_decide_eq_true_2 by (by apply Hnil).
    unfold is_set. simpl. apply (right_id_L ∅ (∪)).
  - rewrite bool_decide_eq_false_2 by (intros Hempty; by apply Hnil in Hempty).
    by apply is_set_list.
Qed.

Lemma get_components_from_dict_refines self doc :
  refines self is_set (Run._get_components_from_dict libs doc)
    (_get_components_from_dict self doc).
Proof.
  unfold Run._get_components_from_dict, _get_components_from_dict.
  apply (refines_bind self is_set); [run_auto| |].
  - apply refines_for_each; [intros; run_auto| |done].
    intros token added found Hset. apply refines_attribute.
    apply (refines_bind self eq); [run_auto|apply match_term_refines|].
    intros component ? <-. apply refines_ret. by apply is_set_add.
  - intros added found Hset. apply refines_ret. by apply is_set_with_sentinel.
Qed.

Lemma get_symptoms_from_dict_refines self doc :
  refines self is_set (Run._get_symptoms_from_dict libs doc)
    (_get_symptoms_from_dict self doc).
Proof.
  unfold Run._get_symptoms_from_dict, _get_symptoms_from_dict.
  apply (refines_bind self is_set); [run_auto| |].
  - apply refines_for_each; [intros; run_auto| |done].
    intros token added found Hset. apply refines_attribute.
    apply (refines_bind self eq); [run_auto|apply match_term_refines|].
    intros symptom ? <-. apply refines_ret. by apply is_set_add.
  - intros added found Hset. apply refines_ret. by apply is_set_with_sentinel.
Qed.

(** What [analyze_text] returns, the timestamp apart. *)
Lemma analyze_text_refines self text now :
  refines self (λ r r', as_sets (blank_timestamp r) = without_timestamp r')
    (Run.analyze_text libs text) (analyze_text self text now).
Proof.
  unfold Run.analyze_text, analyze_text. apply refines_attribute.
  apply (refines_bind self eq); [run_auto| |].
  { apply refines_outside. intros w. apply Hfaithful. }
  intros doc ? <-. unfold analyze_doc. cbv zeta.
  apply (refines_bind self is_set); [run_auto| |].
  { apply refines_for_each; [intros; run_auto| |done].
    intros token added found Hset.
    destruct (String.eqb (pos_ token) "VERB"); [|by apply refines_ret].
    apply (refines_bind self eq); [run_auto|apply verb_to_symptom_noun_refines|].
    intros noun_form ? <-. apply refines_ret. by apply is_set_add. }
  intros symptoms symptoms' Hsymptoms.
  apply (refines_bind self eq); [run_auto|apply determine_equipment_type_refines|].
  intros equipment_type ? <-.
  apply (refines_bind self is_set); [run_auto| |].
  { destruct (ner_components (collect_ner doc)) as [|c cs].
    - apply get_components_from_dict_refines.
    - by apply refines_ret. }
  intros components components' Hcomponents.
  apply (refines_bind self is_set); [run_auto| |].
  { pose proof (is_set_nil _ _ Hsymptoms) as Hnil. unfold is_empty_set.
    destruct symptoms as [|x xs].
    - rewrite bool_decide_eq_true_2 by (by apply Hnil).
      apply get_symptoms_from_dict_refines.
    - rewrite bool_decide_eq_false_2 by (intros Hempty; by apply Hnil in Hempty).
      apply refines_ret. by apply is_set_list. }
  intros found found' Hfound.
  intros s _. rewrite bind_run.
  assert (∃ timestamp, Run._get_timestamp libs doc s = (Ok timestamp, s))
    as [timestamp ->].
  { unfold Run._get_timestamp. destruct (List.find _ _); by eexists. }
  simpl. unfold as_sets, blank_timestamp, without_timestamp. simpl.
  apply is_set_list in Hcomponents. unfold is_set in *. by subst.
Qed.

Lemma analyze_text_pure_timestamp self text now r :
  analyze_text self text now = Ok r →
  timestamp (failure_analysis r) =
  match ner_dates (ner r) with
  | date :: _ => date
  | [] => now
  end.
Proof.
  intros (doc & _ & Hr)%analyze_text_doc.
  destruct (analyze_doc_success _ _ _ _ _ Hr) as [_ ->].
  rewrite analyze_doc_timestamp in Hr.
  destruct (analyze_doc self doc text EmptyString) as [r0|]; [|done].
  injection Hr as <-. simpl. unfold _get_timestamp.
  pose proof (find_date_head doc) as Hhead.
  destruct (List.find _ (ents doc)) as [ent|];
    destruct (ner_dates (collect_ner doc)); simpl in *; congruence.
Qed.

Lemma as_sets_timestamp (r : Returned) (r' : Analysis) :
  as_sets (blank_timestamp r) = without_timestamp r' →
  run_timestamp (run_failure_analysis r) = timestamp (failure_analysis r') →
  as_sets r = r'.
Proof.
  destruct r as [n [] t b], r' as [n' [] t' b'].
  unfold as_sets, blank_timestamp, without_timestamp. simpl.
  intros [= -> -> -> -> -> -> -> ->] ->. done.
Qed.

(** With libraries that answer as the tables of the analyzer say, a run
    of [analyze_text] returns what [analyze_text] on those tables returns
    for the clock reading of the run, its lists read as sets, and raises
    what it raises. *)
Lemma run_refines_analyze_text text (s : Run.Store World) :
  map_result as_sets (Run.analyze_text libs text s).1
  = analyze_text (Run.analyzer s) text
      (Run.clock libs (Run.world (Run.analyze_text libs text s).2)).
Proof.
  pose proof (analyze_text_refines (Run.analyzer s) text
                (Run.clock libs (Run.world (Run.analyze_text libs text s).2))
                s eq_refl) as Href.
  destruct (Run.analyze_text libs text s) as [[r|e] s'] eqn:Hrun; simpl in *.
  - destruct (analyze_text (Run.analyzer s) text (Run.clock libs (Run.world s')))
      as [r'|e'] eqn:Hpure; [|done].
    f_equal. apply as_sets_timestamp; [done|].
    rewrite (analyze_text_timestamp libs text s r s' Hrun).
    rewrite (analyze_text_pure_timestamp _ _ _ _ Hpure).
    assert (run_ner r = ner r') as -> by exact (f_equal ner Href). done.
  - destruct (analyze_text _ _ _); [done|by subst].
Qed.

End link_facts.

Section clock_run_facts.
Context `{PyStr} `{PySet} {World : Type}.

(** C7, as the code has it.  A run of [analyze_text] leaves the analyzer
    as it found it, whatever the libraries do, and leaves the whole store
    as it found it when the libraries keep no state of their own: the
    code itself writes nothing.  Its timestamp is the text of the first
    DATE entity of the tagger, and the clock as the run reads it when
    there is none.  Two runs on the same text, with the same analyzer
    state and libraries whose answers are fixed by it (the second run may
    start from the state the first one left), return results that are
    equal in every field but the timestamp, lists in the same order, or
    raise the same exception; the results are equal in the timestamp too
    when the tagger found a DATE entity. *)
Theorem analysis_deterministic_up_to_clock (libs : Run.Libraries World)
    (text : string) (s1 s2 : Run.Store World) :
  let run1 := Run.analyze_text libs text s1 in
  let run2 := Run.analyze_text libs text s2 in
  Run.analyzer run1.2 = Run.analyzer s1
  ∧ (Run.quiet libs → run1.2 = s1)
  ∧ (∀ r1, run1.1 = Ok r1 →
       run_timestamp (run_failure_analysis r1) =
       match ner_dates (run_ner r1) with
       | date :: _ => date
       | [] => Run.clock libs (Run.world run1.2)
       end)
  ∧ (Run.answers_fixed libs → Run.analyzer s1 = Run.analyzer s2 →
     map_result blank_timestamp run1.1 = map_result blank_timestamp run2.1
     ∧ ∀ r1 r2, run1.1 = Ok r1 → run2.1 = Ok r2 →
         ner_dates (run_ner r1) ≠ [] → r1 = r2).
Proof.
  intros run1 run2.
  assert (∀ s r, (Run.analyze_text libs text s).1 = Ok r →
            run_timestamp (run_failure_analysis r) =
            match ner_dates (run_ner r) with
            | date :: _ => date
            | [] => Run.clock libs (Run.world (Run.analyze_text libs text s).2)
            end) as Hstamp.
  { intros s r Hr. apply (analyze_text_timestamp libs text s).
    destruct (Run.analyze_text libs text s) as [r' s']. simpl in Hr. by subst r'. }
  split; [apply analyze_text_frames|].
  split; [intros Hquiet; by apply analyze_text_still|]. split; [apply Hstamp|].
  intros Hfixed Heq.
  pose proof (analyze_text_settled libs Hfixed text s1 s2 Heq) as Hagree.
  fold run1 run2 in Hagree.
  split; [by apply agree_blank_timestamp|].
  intros r1 r2 Hr1 Hr2 Hdates. rewrite Hr1, Hr2 in Hagree. simpl in Hagree.
  apply blank_timestamp_inj; [done|].
  rewrite (Hstamp s1 r1 Hr1), (Hstamp s2 r2 Hr2).
  assert (run_ner r1 = run_ner r2) as <-
    by exact (f_equal run_ner Hagree).
  by destruct (ner_dates (run_ner r1)).
Qed.

End clock_run_facts.


(** * The extra properties on concrete inputs *)

Section more_examples.
#[local] Existing Instance utf8_str.
#[local] Existing Instance toy_spacy.

(** Witness of X1: "ремонт" is a key of the action dictionary, but it is
    listed as a variant of the earlier key "замена", which wins. *)
Lemma match_term_earliest_entry_wins_witness :
  _match_term toy_analyzer (Some "Ремонт") actions_dict = Ok (Some "замена").
Proof.
  destruct (match_term_earliest_entry_wins toy_analyzer "Ремонт" actions_dict
              [] "замена"
              ["замена"; "смена"; "промывка"; "ремонт"; "установка"; "обслуживание"]
              (tail actions_dict) "ремонт")
    as (k & Hk & Hin); [reflexivity| |reflexivity|].
  - apply list_elem_of_In. simpl. tauto.
  - apply list_elem_of_singleton in Hin. by rewrite Hin in Hk.
Defined.

(** Witness of X2: without an analyzer the word comes back as it is. *)
Lemma convert_verb_to_noun_cases_witness :
  _convert_verb_to_noun plain_analyzer "Вибрирует" = Some "Вибрирует".
Proof.
  destruct (convert_verb_to_noun_cases plain_analyzer "Вибрирует") as (_ & _ & Hraise).
  apply Hraise; [discriminate|by left].
Defined.

(** Witness of X3. *)
Lemma not_urgent_reads_as_high_witness :
  _detect_urgency (blank_nlp "Это не срочно, плановый осмотр") = "Высокая"
  ∧ Learn._detect_urgency (blank_nlp "Это не срочно, плановый осмотр") = "Высокая".
Proof.
  destruct (not_urgent_reads_as_high (blank_nlp "Это не срочно, плановый осмотр"))
    as [Hhere Hlearn]; [reflexivity|].
  split; [exact Hhere|exact Hlearn].
Defined.

(** Witness of X4: two tokens with the lemma "ремень" give two names. *)
Lemma simple_components_sentinel_witness :
  length (EquipmentFailureAnalyzer._get_components
            {| doc_text := "ремень и ремень"; sents := []; ents := [];
               tokens := [noun "ремень"; noun "и"; noun "ремень"] |}) = 2.
Proof.
  destruct (simple_components_sentinel
              {| doc_text := "ремень и ремень"; sents := []; ents := [];
                 tokens := [noun "ремень"; noun "и"; noun "ремень"] |})
    as (_ & _ & Hcount).
  destruct Hcount as [-> _]; [|reflexivity].
  intros Hall. apply Forall_cons in Hall as [Hfirst _]. discriminate Hfirst.
Defined.

(** Witness of X5. *)
Lemma simple_equipment_first_known_witness :
  EquipmentFailureAnalyzer._get_equipment doc_machine_vibrates = "Станок".
Proof.
  destruct (simple_equipment_first_known doc_machine_vibrates) as [Hfirst _].
  apply (Hfirst [] (noun "станок")
           [{| tok_text := "вибрирует"; pos_ := "VERB"; lemma_ := "вибрировать" |}]);
    [reflexivity|constructor|reflexivity].
Defined.

(** Witness of X6. *)
Lemma simple_urgent_repair_witness :
  "Требуется срочный ремонт"
    ∈ EquipmentFailureAnalyzer._get_symptoms (blank_nlp "Нужен срочный ремонт")
  ∧ EquipmentFailureAnalyzer._detect_urgency (blank_nlp "Нужен срочный ремонт")
    = "Высокая".
Proof.
  destruct (simple_urgent_repair (blank_nlp "Нужен срочный ремонт")) as [_ Hrepair].
  apply Hrepair. reflexivity.
Defined.

(** Witness of X7: the entity tagged EQUIPMENT_ID reaches no list. *)
Lemma ner_lists_by_label_witness :
  match analyze_text report_analyzer "Ошибка E15 на станке 5 в 10:30"
          "01.01.2025 10:00" with
  | Ok r =>
      ner_error_codes (ner r) = ["E15"] ∧ ner_times (ner r) = ["10:30"]
      ∧ ner_dates (ner r) = [] ∧ ner_components (ner r) = []
  | Raise _ => False
  end.
Proof.
  destruct (analyze_text report_analyzer "Ошибка E15 на станке 5 в 10:30"
              "01.01.2025 10:00") as [r|e] eqn:Hr.
  - destruct (ner_lists_by_label report_analyzer _ _ r Hr)
      as (doc & [= <-] & Hd & He & Ht & Hc & _).
    rewrite Hd, He, Ht, Hc. by vm_compute.
  - vm_compute in Hr. discriminate Hr.
Defined.

(** Witness of X8: "E15" is an entity and is not reported; "станке",
    inside the entity "станке 5", is. *)
Lemma unknown_terms_are_untagged_nouns_witness :
  ("E15" ∉ _find_unknown_terms doc_error_report)
  ∧ ("станке" ∈ _find_unknown_terms doc_error_report).
Proof.
  destruct (unknown_terms_are_untagged_nouns doc_error_report) as (Hiff & Hents & _).
  split.
  - apply (Hents {| ent_text := "E15"; label_ := "ERROR_CODE" |}).
    apply list_elem_of_In. simpl. tauto.
  - apply Hiff. exists (noun "станке").
    split; [apply list_elem_of_In; simpl; tauto|]. split; [reflexivity|].
    split; [apply list_elem_of_In; simpl; tauto|].
    intros ent Hent Heq. apply list_elem_of_In in Hent. simpl in Hent.
    destruct Hent as [<-|[<-|[<-|[<-|[]]]]]; discriminate Heq.
Defined.

(** Witness of X9: "шпиндель" is found, and the sentinel is not in the
    result; for a text without a component word the result is the
    sentinel. *)
Lemma components_sentinel_or_keys_witness :
  (∃ found, _get_components_from_dict plain_analyzer (blank_nlp "шпиндель и вал")
            = Ok found
     ∧ "шпиндель" ∈ found ∧ "Не указаны" ∉ found)
  ∧ _get_components_from_dict plain_analyzer (blank_nlp "стук") = Ok {["Не указаны"]}.
Proof.
  split.
  - destruct (components_sentinel_or_keys plain_analyzer
                (blank_nlp "шпиндель и вал")) as [(found & Hfound & _ & Hsome) _].
    assert (pass_hit plain_analyzer (components plain_analyzer)
              (λ token, Some (tok_text token)) (blank_nlp "шпиндель и вал")
              "шпиндель") as Hhit.
    { exists {| tok_text := "шпиндель"; pos_ := ""; lemma_ := "" |}.
      split; [apply list_elem_of_In; left; reflexivity|].
      split; reflexivity. }
    destruct Hsome as (_ & Hiff & Hkeys); [by exists "шпиндель"|].
    exists found. split; [exact Hfound|]. split; [by apply Hiff|].
    intros Hin. apply Hkeys, list_elem_of_In in Hin. simpl in Hin.
    repeat (destruct Hin as [Heq|Hin]; [discriminate Heq|]). exact Hin.
  - destruct (components_sentinel_or_keys plain_analyzer (blank_nlp "стук"))
      as [(found & Hfound & Hnone & _) _].
    rewrite Hfound, Hnone; [reflexivity|].
    intros x (token & Hin & Hmatch & _).
    apply list_elem_of_In in Hin. simpl in Hin.
    destruct Hin as [<-|[]]. vm_compute in Hmatch. discriminate Hmatch.
Defined.

(** Witness of X10: the trigger "вибрирует" gives the symptom "вибрация". *)
Lemma symptoms_layers_add_up_witness :
  ∃ found, _get_symptoms toy_analyzer doc_machine_vibrates = Ok found
           ∧ "вибрация" ∈ found.
Proof.
  destruct (symptoms_layers_add_up toy_analyzer doc_machine_vibrates)
    as (found & Hfound & _ & _ & Hrules & _).
  exists found. split; [exact Hfound|].
  apply (Hrules ("вибрация", ["вибрирует"; "дрожит"; "трясется"])).
  - apply list_elem_of_In. simpl. tauto.
  - reflexivity.
Defined.

(** Witness of X11: nothing from the tagger, the first token resolves. *)
Lemma equipment_type_precedence_witness :
  _determine_equipment_type plain_analyzer doc_machine_vibrates [] = Ok "Станок".
Proof.
  destruct (equipment_type_precedence plain_analyzer doc_machine_vibrates [])
    as (_ & Hfirst & _).
  apply (Hfirst [] (noun "станок")
           [{| tok_text := "вибрирует"; pos_ := "VERB"; lemma_ := "вибрировать" |}]
           "станок");
    [reflexivity|constructor|reflexivity|reflexivity].
Defined.

(** Witness of X12. *)
Lemma get_equipment_type_sentinel_or_key_witness :
  _get_equipment_type plain_analyzer (blank_nlp "") = Ok "Неизвестное оборудование".
Proof.
  destruct (get_equipment_type_sentinel_or_key plain_analyzer (blank_nlp ""))
    as [_ Hempty].
  apply Hempty. reflexivity.
Defined.

(** Witness of X13: once initialised, the blank pipeline tags no verb
    and [analyze_text] returns; on the analyzer [__init__] leaves when it
    loads no model the pipeline raises, and so does [analyze_text]. *)
Lemma analyze_text_returns_iff_witness :
  returns (analyze_text plain_analyzer "станок вибрирует" "01.01.2025 10:00")
  ∧ analyze_text fresh_analyzer "станок вибрирует" "01.01.2025 10:00"
    = Raise ValueError.
Proof.
  split.
  - apply (proj1 (analyze_text_returns_iff plain_analyzer "станок вибрирует"
                    "01.01.2025 10:00")).
    exists (blank_nlp "станок вибрирует"). split; [reflexivity|].
    intros token Hin Hverb. exfalso.
    apply list_elem_of_In in Hin. simpl in Hin.
    destruct Hin as [<-|[<-|[]]]; discriminate Hverb.
  - apply (proj2 (analyze_text_returns_iff fresh_analyzer "станок вибрирует"
                    "01.01.2025 10:00")).
    reflexivity.
Defined.

(** Witness of X14: the tagger found the component "Шпиндель"; the
    dictionary key "шпиндель" is not added to it. *)
Lemma tagger_preferred_dictionary_fills_witness :
  match analyze_text report_analyzer "Шпиндель станка 2 шумит"
          "01.01.2025 10:00" with
  | Ok r => fa_components (failure_analysis r) = {["Шпиндель"]}
  | Raise _ => False
  end.
Proof.
  destruct (analyze_text report_analyzer "Шпиндель станка 2 шумит"
              "01.01.2025 10:00") as [r|e] eqn:Hr.
  - destruct (tagger_preferred_dictionary_fills report_analyzer _ _ r Hr)
      as (doc & _ & Hpref & _).
    destruct (analyze_text_doc _ _ _ _ Hr) as (doc' & [= <-] & Hdoc).
    destruct (analyze_doc_success _ _ _ _ _ Hdoc) as [_ Hner].
    rewrite Hpref; rewrite Hner; [by vm_compute|discriminate].
  - vm_compute in Hr. discriminate Hr.
Defined.

(** Witness of X15: five examples, two iterations. *)
Lemma persisted_only_on_success_witness :
  on_disk (train_ner_model five_examples 2
             {| in_memory := ([], 7); on_disk := None |}).1
  = Some (["EQUIPMENT"], 2).
Proof.
  destruct (persisted_only_on_success five_examples 2
              {| in_memory := ([], 7); on_disk := None |}
              (train_ner_model five_examples 2
                 {| in_memory := ([], 7); on_disk := None |}).1) as [Hok _].
  destruct (Hok [{| rep_iter := 1; rep_loss := 4; rep_correct := 0; rep_total := 1 |};
                 {| rep_iter := 2; rep_loss := 4; rep_correct := 0; rep_total := 1 |}])
    as [Hdisk _]; [reflexivity|].
  rewrite Hdisk. reflexivity.
Defined.

(** Witness of X16: six examples in batches of four. *)
Lemma minibatch_partitions_witness :
  concat (minibatch 6 0 ["a"; "b"; "c"; "d"; "e"; "f"])
  = ["a"; "b"; "c"; "d"; "e"; "f"].
Proof.
  destruct (minibatch_partitions ["a"; "b"; "c"; "d"; "e"; "f"]) as [Hconcat _].
  - intros i. simpl. lia.
  - exact Hconcat.
Defined.

(** Witness of X17: one example, the default 150 iterations. *)
Lemma train_small_corpus_raises_witness :
  ∃ p' e,
    train_ner_model [("Почините робот KUKA-5", [(10, 17, "EQUIPMENT")])] 150
      {| in_memory := ([], 7); on_disk := None |} = (p', Raise e)
    ∧ on_disk p' = None.
Proof.
  apply (train_small_corpus_raises
           [("Почините робот KUKA-5", [(10, 17, "EQUIPMENT")])] 149
           {| in_memory := ([], 7); on_disk := None |}).
  simpl. lia.
Defined.

(** Witness of X19: the number 12 given as the equipment. *)
Lemma build_winnum_url_raises_iff_witness :
  Llama3.build_winnum_url
    (<["equipment" := Llama3.VOther "12"]> (<["number" := Llama3.VStr "5"]> ∅))
  = Raise AttributeError.
Proof.
  destruct (build_winnum_url_raises_iff
              (<["equipment" := Llama3.VOther "12"]>
                 (<["number" := Llama3.VStr "5"]> ∅))) as [Hraise _].
  apply Hraise. left. by exists "12", (Llama3.VStr "5").
Defined.

(** Witness of X20. *)
Lemma build_winnum_url_closed_form_witness :
  Llama3.build_winnum_url
    (<["equipment" := Llama3.VStr "Пресс"]> (<["number" := Llama3.VOther "7"]> ∅))
  = Ok (Llama3.base_url +:+ "?" +:+ Llama3.query Llama3.fixed_params
        +:+ "&pid=WNPress:7").
Proof.
  destruct (Llama3.build_winnum_url
              (<["equipment" := Llama3.VStr "Пресс"]>
                 (<["number" := Llama3.VOther "7"]> ∅))) as [url|e] eqn:Hurl.
  - rewrite (build_winnum_url_closed_form _ url Hurl). by vm_compute.
  - vm_compute in Hurl. discriminate Hurl.
Defined.

(** Witness of X21: the fenced reply is dropped. *)
Lemma extract_entities_outcomes_witness :
  Llama3.extract_entities fenced_post strip_nothing brace_loads "станок 5 шумит"
  = Ok (Llama3.RawResponse None).
Proof.
  destruct (extract_entities_outcomes fenced_post strip_nothing brace_loads
              "станок 5 шумит") as (_ & _ & Hreply & _).
  destruct (Hreply _ {["response" := Llama3.VStr "```json{}```"]} "```json{}```"
              eq_refl eq_refl eq_refl eq_refl) as [Hdropped _].
  apply Hdropped. by right.
Defined.

(** The [train_ner_model] of [istok_nlp_learn.py] on the empty corpus,
    three iterations. *)
Example learn_train_empty_corpus_run :
  Learn.train_ner_model 0 [] 3 {| in_memory := (["EQUIPMENT"], 7); on_disk := None |}
  = ({| in_memory := (["EQUIPMENT"], 0); on_disk := Some (["EQUIPMENT"], 0) |},
     Ok [(1, 0); (2, 0); (3, 0)]).
Proof. reflexivity. Qed.

End more_examples.

(** * Runs on concrete reports *)

Section run_examples.
#[local] Existing Instance utf8_str.
#[local] Existing Instance insertion_order.

(** Counterexample to C7: two runs on the same text, the second from the
    state the first left, with the analyzer unchanged and libraries whose
    answers are fixed: the results differ, the clock having moved. *)
Lemma analyze_text_depends_on_clock :
  Run.answers_fixed ticking_libs
  ∧ ∃ r1 r2 s,
      Run.analyze_text ticking_libs "шпиндель" plain_store = (Ok r1, s)
      ∧ Run.analyzer s = Run.analyzer plain_store
      ∧ (Run.analyze_text ticking_libs "шпиндель" s).1 = Ok r2
      ∧ r1 ≠ r2.
Proof.
  split; [by split|].
  eexists _, _, _. split; [by vm_compute|]. split; [reflexivity|].
  split; [by vm_compute|].
  intros Heq.
  apply (f_equal (λ r, run_timestamp (run_failure_analysis r))) in Heq.
  vm_compute in Heq. discriminate Heq.
Qed.

(** Witness of C7: the second run starts from the state the first left,
    a hundred and five library calls later; with libraries that keep no
    state the store is left as it was. *)
Lemma analysis_deterministic_up_to_clock_witness :
  Run.world (Run.analyze_text ticking_libs "станок вибрирует" toy_store).2 = 105
  ∧ (Run.analyze_text still_libs "станок вибрирует" toy_store).2 = toy_store
  ∧ map_result blank_timestamp
      (Run.analyze_text ticking_libs "станок вибрирует" toy_store).1
    = map_result blank_timestamp
        (Run.analyze_text ticking_libs "станок вибрирует"
           (Run.analyze_text ticking_libs "станок вибрирует" toy_store).2).1
  ∧ (Run.analyze_text ticking_libs "отчет за июнь 2023" dated_store).1
    = (Run.analyze_text ticking_libs "отчет за июнь 2023"
         (Run.analyze_text ticking_libs "отчет за июнь 2023" dated_store).2).1.
Proof.
  split; [by vm_compute|]. split; [|split].
  - destruct (analysis_deterministic_up_to_clock still_libs "станок вибрирует"
                toy_store toy_store) as (_ & Hstill & _).
    apply Hstill. by split.
  - destruct (analysis_deterministic_up_to_clock ticking_libs "станок вибрирует"
                toy_store
                (Run.analyze_text ticking_libs "станок вибрирует" toy_store).2)
      as (Hframe & _ & _ & Htwo).
    destruct Htwo as [Hblank _]; [by split|by symmetry|exact Hblank].
  - destruct (analysis_deterministic_up_to_clock ticking_libs "отчет за июнь 2023"
                dated_store
                (Run.analyze_text ticking_libs "отчет за июнь 2023" dated_store).2)
      as (Hframe & _ & _ & Htwo).
    destruct Htwo as [_ Hdated]; [by split|by symmetry|].
    destruct (Run.analyze_text ticking_libs "отчет за июнь 2023" dated_store).1
      as [r1|e1] eqn:Hr1; [|by vm_compute in Hr1].
    destruct (Run.analyze_text ticking_libs "отчет за июнь 2023"
                (Run.analyze_text ticking_libs "отчет за июнь 2023" dated_store).2).1
      as [r2|e2] eqn:Hr2; [|by vm_compute in Hr2].
    f_equal. apply Hdated; [done|done|].
    vm_compute in Hr1. injection Hr1 as <-. discriminate.
Defined.

End run_examples.
